(** * Voice-signature pipeline of personal-brand-dna: a shallow embedding

    The development follows the Python sources under [ai-pipeline/]:

    - [utils/config.py]                  -> [Module Config]
    - [voice_analysis/analyzer.py]       -> [Module VoiceAnalyzer]
    - [models/voice_profile.py]          -> [Module VoiceProfile]
    - [content_generation/templates.py]  -> [Module TemplateManager]
    - [content_generation/generator.py]  -> [Module ContentGenerator]

    Conventions of the embedding.

    - A Python [float] score is a rational [Q]: finite values with exact
      arithmetic.  Rounding, infinities and NaN are outside the model, but
      for the values parsed from the provider's answer, which can be floats
      that are not finite or integers that no float holds.
      Where the code only selects between values ([min], [max], [dict.get])
      results are stated with Leibniz equality; where it computes with them
      (sums, quotients) results are stated up to [Qeq].
    - A [Dict[str, float]] is a [gmap string Q]; [d.update(e)] is the
      right-biased union, [d.get(k, x)] is [default x (d !! k)].
    - A Python [str] is a [string] of ASCII characters.
    - A call that may raise returns a sum of the exception and the value. *)

From Stdlib Require Import QArith Qabs Qminmax Lqa ZArith Ascii String.
From stdpp Require Import gmap strings list fin_maps.

Set Warnings "-register-all".

Local Open Scope Q_scope.
Local Open Scope string_scope.

(** ** Python built-ins used by the sources *)

Module Py.

(** [x < y] on floats. *)
Definition Qltb (x y : Q) : bool := negb (Qle_bool y x).

(** [min(a, b)] keeps [a] unless [b < a]; [max(a, b)] keeps [a] unless
    [b > a] (the first extremal argument wins). *)
Definition min (a b : Q) : Q := if Qltb b a then b else a.
Definition max (a b : Q) : Q := if Qltb a b then b else a.

(** [d.get(k, x)]. *)
Definition get (d : gmap string Q) (k : string) (x : Q) : Q :=
  default x (d !! k).

(** [d.update(e)]: entries of [e] overwrite those of [d]. *)
Definition update (d e : gmap string Q) : gmap string Q := e ∪ d.

(** [sum(xs)] and [len(xs)] as a float. *)
Definition sum (xs : list Q) : Q := fold_left Qplus xs 0.
Definition len (xs : list Q) : Q := inject_Z (Z.of_nat (length xs)).

(** [statistics.mean] and [statistics.variance] (the sample variance,
    with divisor [n - 1]); the latter raises below two data points and is
    only called on longer lists. *)
Definition mean (xs : list Q) : Q := sum xs / len xs.
Definition variance (xs : list Q) : Q :=
  let m := mean xs in
  sum (List.map (fun x => (x - m) * (x - m)) xs) / (len xs - 1).

(** *** Strings *)

(** The ASCII characters removed by [str.strip()]. *)
Definition is_space (c : ascii) : bool :=
  let n := nat_of_ascii c in
  ((9 <=? n)%nat && (n <=? 13)%nat) || ((28 <=? n)%nat && (n <=? 32)%nat).

Fixpoint lstrip (s : string) : string :=
  match s with
  | String c s' => if is_space c then lstrip s' else s
  | EmptyString => EmptyString
  end.

Definition rstrip (s : string) : string := String.rev (lstrip (String.rev s)).
Definition strip (s : string) : string := rstrip (lstrip s).

(** [s.find(c)] and [s.rfind(c)] for a one-character needle: the index of
    the first (last) occurrence, [-1] when there is none. *)
Fixpoint find_from (c : ascii) (s : string) (i : Z) : Z :=
  match s with
  | EmptyString => (-1)%Z
  | String a s' => if Ascii.eqb a c then i else find_from c s' (i + 1)%Z
  end.
Definition find (c : ascii) (s : string) : Z := find_from c s 0.

Fixpoint rfind_from (c : ascii) (s : string) (i last : Z) : Z :=
  match s with
  | EmptyString => last
  | String a s' => rfind_from c s' (i + 1)%Z (if Ascii.eqb a c then i else last)
  end.
Definition rfind (c : ascii) (s : string) : Z := rfind_from c s 0 (-1).

(** [s[start:stop]] for [0 <= start <= stop]. *)
Definition slice (s : string) (start stop : Z) : string :=
  substring (Z.to_nat start) (Z.to_nat (stop - start)) s.

(** [s.lower()] on ASCII. *)
Definition lower_ascii (c : ascii) : ascii :=
  let n := nat_of_ascii c in
  if (65 <=? n)%nat && (n <=? 90)%nat then ascii_of_nat (n + 32) else c.

Fixpoint lower (s : string) : string :=
  match s with
  | EmptyString => EmptyString
  | String c s' => String (lower_ascii c) (lower s')
  end.

(** [sub in s]. *)
Fixpoint contains (sub s : string) : bool :=
  match s with
  | EmptyString => String.prefix sub EmptyString
  | String _ s' => String.prefix sub s || contains sub s'
  end.

(** [x in xs] for a list of strings. *)
Definition mem (x : string) (xs : list string) : bool :=
  existsb (String.eqb x) xs.

(** *** Exceptions and parsed JSON *)

(** The exceptions the modelled code can raise. [Exception_insufficient n]
    is [Exception(f"Insufficient text for analysis: {n} characters")]. *)
Inductive exn :=
| IndexError
| Exception_insufficient (n : nat)
| ValidationError.

(** A [float] where the code can meet one that is not finite: [json.loads]
    yields [inf], [-inf] and [nan] for [Infinity], [-Infinity] and [NaN] and
    for a literal beyond the range of a double. *)
Inductive special := PosInf | NegInf | NaN.

Inductive float :=
| Finite (q : Q)
| Special (f : special).

(** [a < b] on floats: every comparison with [nan] is false. *)
Definition lt_float (a b : float) : bool :=
  match a, b with
  | Finite x, Finite y => Qltb x y
  | Finite _, Special PosInf => true
  | Special NegInf, Finite _ => true
  | Special NegInf, Special PosInf => true
  | _, _ => false
  end.

(** [min(a, b)] and [max(a, b)] on floats, as on [Q]: the first argument
    unless the second is strictly smaller (larger). *)
Definition min_float (a b : float) : float := if lt_float b a then b else a.
Definition max_float (a b : float) : float := if lt_float a b then b else a.

(** [float(z)] for an [int] raises [OverflowError] as soon as the magnitude
    rounds beyond the largest double, which is from 2^1024 - 2^970 on;
    [None] stands for the exception.  Below that the conversion rounds to
    the nearest double; the exact value stands for it. *)
Definition float_limit : Z := 2 ^ 1024 - 2 ^ 970.

Definition float_of_int (z : Z) : option float :=
  if (Z.abs z <? float_limit)%Z then Some (Finite (inject_Z z)) else None.

(** What [json.loads] yields; [JSpecial] is a float that is not finite, and
    [JDict] lists the items of a [dict] in order, each key once. *)
Inductive json :=
| JNull
| JBool (b : bool)
| JInt (z : Z)
| JFloat (q : Q)
| JSpecial (f : special)
| JStr (s : string)
| JList (xs : list json)
| JDict (items : list (string * json)).

End Py.

(** ** utils/config.py *)

Module Config.

(** [Settings.voice_dimensions]. *)
Definition voice_dimensions : list string :=
  [ "formality_level";
    "emotional_expressiveness";
    "technical_depth";
    "storytelling_style";
    "authority_tone";
    "empathy_level";
    "humor_usage";
    "vulnerability_comfort";
    "industry_jargon";
    "communication_pace";
    "explanation_style";
    "question_asking_tendency";
    "call_to_action_style";
    "personal_experience_sharing" ].

(** [Settings.min_transcription_length] when the environment does not
    override it. *)
Definition default_min_transcription_length : Z := 50.

(** [INDUSTRY_VOICE_ADJUSTMENTS]: for each industry the (dimension,
    multiplier) items of its dictionary, in source order. *)
Definition INDUSTRY_VOICE_ADJUSTMENTS : gmap string (list (string * Q)) :=
  list_to_map
  [ ("technology",
      [ ("technical_depth", 1.2); ("formality_level", 0.9);
        ("industry_jargon", 1.3) ]);
    ("finance",
      [ ("formality_level", 1.3); ("authority_tone", 1.2);
        ("technical_depth", 1.1) ]);
    ("healthcare",
      [ ("empathy_level", 1.4); ("technical_depth", 1.2);
        ("authority_tone", 1.1) ]);
    ("marketing",
      [ ("emotional_expressiveness", 1.3); ("storytelling_style", 1.2);
        ("call_to_action_style", 1.4) ]);
    ("consulting",
      [ ("authority_tone", 1.2); ("explanation_style", 1.3);
        ("question_asking_tendency", 1.2) ]) ].

End Config.

(** ** voice_analysis/analyzer.py *)

Module VoiceAnalyzer.

(** [max(0.0, min(1.0, x))], the clamp applied to every score. *)
Definition clamp01 (x : Q) : Q := Py.max 0.0 (Py.min 1.0 x).

(** The merge loop of [_create_voice_signature]:
    [for analysis in analyses: combined_data.update(analysis)]. *)
Definition combine_analyses (analyses : list (gmap string Q)) : gmap string Q :=
  fold_left Py.update analyses ∅.

(** The [dimension_mappings] literal, as its items in source order. *)
Definition dimension_mappings (combined_data : gmap string Q) : list (string * Q) :=
  let get := Py.get combined_data in
  [ ("formality_level", get "formality_level" 0.5);
    ("emotional_expressiveness", get "emotional_expressiveness" 0.3);
    ("technical_depth",
      get "technical_depth" (get "technical_density" 0 * 2));
    ("storytelling_style", get "storytelling_style" 0.3);
    ("authority_tone", get "authority_tone" 0.4);
    ("empathy_level", get "empathy_level" 0.4);
    ("humor_usage", get "humor_usage" 0.1);
    ("vulnerability_comfort", get "vulnerability_comfort" 0.3);
    ("industry_jargon",
      get "industry_jargon" (get "entity_density" 0 * 3));
    ("communication_pace", get "communication_pace" 0.5);
    ("explanation_style",
      get "explanation_style" (get "avg_sentence_length" 15 / 30));
    ("question_asking_tendency", get "question_asking_tendency" 0.2);
    ("call_to_action_style", get "call_to_action_style" 0.3);
    ("personal_experience_sharing", get "personal_experience_sharing" 0.4) ].

(** The clamping loop:
    [for dimension, score in dimension_mappings.items():
       voice_signature[dimension] = max(0.0, min(1.0, float(score)))]. *)
Definition clamp_items (items : list (string * Q)) : gmap string Q :=
  fold_left
    (fun voice_signature item => <[item.1 := clamp01 item.2]> voice_signature)
    items ∅.

Definition _create_voice_signature (analyses : list (gmap string Q))
  : gmap string Q :=
  clamp_items (dimension_mappings (combine_analyses analyses)).

(** [_calculate_confidence_score].  Its body cannot raise on a mapping of
    floats (the divisor 14 is a constant and [statistics.variance] is
    guarded by the length test), so the [except] branch returning 0.5 is
    not reachable here. *)
Definition values (d : gmap string Q) : list Q := (map_to_list d).*2.

Definition _calculate_confidence_score
    (voice_signature : gmap string Q) (text_length conversation_turns : Z) : Q :=
  let length_factor := Py.min (inject_Z text_length / 1000) 1.0 in
  let turns_factor := Py.min (inject_Z conversation_turns / 5) 1.0 in
  let expected_dimensions :=
    inject_Z (Z.of_nat (length Config.voice_dimensions)) in
  let actual_dimensions :=
    Py.len (List.filter (fun v => Py.Qltb 0 v) (values voice_signature)) in
  let completeness_factor := actual_dimensions / expected_dimensions in
  let scores := values voice_signature in
  let score_variance :=
    if (1 <? length scores)%nat then Py.variance scores else 0 in
  let consistency_factor := Py.max 0.5 (1.0 - score_variance) in
  let confidence :=
    length_factor * 0.3 + turns_factor * 0.2 +
    completeness_factor * 0.3 + consistency_factor * 0.2 in
  Py.max 0.0 (Py.min 1.0 confidence).

(** [apply_industry_adjustments]. *)
Definition adjust (adjusted_signature : gmap string Q) (item : string * Q)
  : gmap string Q :=
  match adjusted_signature !! item.1 with
  | Some v => <[item.1 := Py.max 0.0 (Py.min 1.0 (v * item.2))]> adjusted_signature
  | None => adjusted_signature
  end.

Definition apply_industry_adjustments
    (voice_signature : gmap string Q) (industry : string) : gmap string Q :=
  match Config.INDUSTRY_VOICE_ADJUSTMENTS !! industry with
  | None => voice_signature
  | Some adjustments => fold_left adjust adjustments voice_signature
  end.

(** One entry of [conversation_data]; a key may be missing from the
    dictionary. *)
Record ConversationItem := {
  question_id : string;
  transcription : option string;
  metadata : option (gmap string string)
}.

(** [_combine_transcriptions]. *)
Definition _combine_transcriptions (conversation_data : list ConversationItem)
  : string :=
  let combined :=
    fold_left
      (fun combined item =>
         let transcription := Py.strip (default "" (transcription item)) in
         if String.eqb transcription "" then combined
         else (combined ++ [transcription])%list)
      conversation_data [] in
  String.concat " " combined.

(** [_ai_enhanced_analysis], from the provider's answer on: keep the numeric
    entries of the parsed object, clamped.  [bool] is a subclass of [int],
    so [isinstance(value, (int, float))] accepts booleans. *)
Definition is_number (value : Py.json) : bool :=
  match value with
  | Py.JBool _ | Py.JInt _ | Py.JFloat _ | Py.JSpecial _ => true
  | _ => false
  end.

(** [float(value)] for a value that passed the test; [None] when it raises
    [OverflowError]. *)
Definition to_float (value : Py.json) : option Py.float :=
  match value with
  | Py.JBool b => Some (Py.Finite (if b then 1 else 0))
  | Py.JInt z => Py.float_of_int z
  | Py.JFloat q => Some (Py.Finite q)
  | Py.JSpecial f => Some (Py.Special f)
  | _ => None
  end.

(** [max(0.0, min(1.0, x))] on a float.  The result is finite whatever [x]
    is, so it is given as a rational. *)
Definition clamp_float (x : Py.float) : Q :=
  match Py.max_float (Py.Finite 0.0) (Py.min_float (Py.Finite 1.0) x) with
  | Py.Finite q => q
  | Py.Special _ => 0.0
  end.

(** The loop over [ai_scores.items()].  [None] stands for the
    [OverflowError] that [float(value)] raises inside the loop: the scores
    validated so far are lost with it. *)
Definition validate_scores (ai_scores : list (string * Py.json))
  : option (gmap string Q) :=
  fold_left
    (fun validated_scores item =>
       match validated_scores with
       | Some scores =>
           if is_number item.2 then
             match to_float item.2 with
             | Some value => Some (<[item.1 := clamp_float value]> scores)
             | None => None
             end
           else Some scores
       | None => None
       end)
    ai_scores (Some ∅).

(** What is handed to [json.loads]: [response_text[start_idx:end_idx]]
    when [start_idx >= 0 and end_idx > start_idx]. *)
Definition json_str (response_text : string) : option string :=
  let start_idx := Py.find "{" response_text in
  let end_idx := (Py.rfind "}" response_text + 1)%Z in
  if (0 <=? start_idx)%Z && (start_idx <? end_idx)%Z
  then Some (Py.slice response_text start_idx end_idx)
  else None.

(** Events the analyzer leaves behind: its log entries and the calls of the
    fusion and confidence steps. *)
Inductive event :=
| Log_voice_analysis_start (user_id conversation_id : string) (turns : nat)
| Create_voice_signature (analyses : list (gmap string Q))
| Calculate_confidence_score (voice_signature : gmap string Q)
| Log_voice_analysis_complete (user_id : string) (confidence : Q) (dimensions : nat)
| Log_operation_error (e : Py.exn).

Record ProcessingDetails := {
  text_length : nat;
  conversation_turns : nat;
  analysis_dimensions : nat
}.

Record AnalysisResult := {
  voice_signature : gmap string Q;
  confidence_score : Q;
  processing_details : ProcessingDetails
}.

Section Services.

(** The collaborators of the analyzer: the configured threshold, the
    heuristic extractors (spaCy and regular expressions, each returning
    [{}] on failure), the chat client ([None] when no API key is
    configured; a call answers with the message text or raises, which is
    [None]), [json.loads] ([None] when it raises), and the fixed text
    around the sample in the prompt.  Every exception raised inside the
    [try] of [_ai_enhanced_analysis] ends in its [except] branch, which
    returns [{}]. *)
Variable min_transcription_length : Z.
Variable _analyze_linguistic_patterns : string -> gmap string Q.
Variable _analyze_communication_style :
  string -> list ConversationItem -> gmap string Q.
Variable _analyze_emotional_patterns : string -> gmap string Q.
Variable openai_client : option (string -> option string).
Variable json_loads : string -> option Py.json.
Variable prompt_head prompt_tail : string.

Definition _ai_enhanced_analysis
    (text : string) (conversation_data : list ConversationItem)
  : gmap string Q :=
  match openai_client with
  | None => ∅
  | Some create =>
      let prompt := prompt_head ++ substring 0 2000 text ++ prompt_tail in
      match create prompt with
      | None => ∅
      | Some content =>
          let response_text := Py.strip content in
          match json_str response_text with
          | None => ∅
          | Some js =>
              match json_loads js with
              | Some (Py.JDict ai_scores) =>
                  default ∅ (validate_scores ai_scores)
              | _ => ∅
              end
          end
      end
  end.

(** [analyze_voice]: the events it produced, and the exception it raised
    or the dictionary it returned.  [conversation_data[0]] is read for the
    first log entry, before the [try]. *)
Definition analyze_voice
    (conversation_data : list ConversationItem) (user_id : string)
  : list event * (Py.exn + AnalysisResult) :=
  match conversation_data with
  | [] => ([], inl Py.IndexError)
  | first :: _ =>
      let started :=
        Log_voice_analysis_start user_id
          (default "unknown" (default ∅ (metadata first) !! "conversation_id"))
          (length conversation_data) in
      let full_text := _combine_transcriptions conversation_data in
      if (Z.of_nat (String.length full_text) <? min_transcription_length)%Z
      then
        let e := Py.Exception_insufficient (String.length full_text) in
        ([started; Log_operation_error e], inl e)
      else
        let linguistic_analysis := _analyze_linguistic_patterns full_text in
        let style_analysis :=
          _analyze_communication_style full_text conversation_data in
        let emotional_analysis := _analyze_emotional_patterns full_text in
        let ai_enhanced_analysis :=
          _ai_enhanced_analysis full_text conversation_data in
        let analyses :=
          [linguistic_analysis; style_analysis; emotional_analysis;
           ai_enhanced_analysis] in
        let voice_signature := _create_voice_signature analyses in
        let confidence_score :=
          _calculate_confidence_score voice_signature
            (Z.of_nat (String.length full_text))
            (Z.of_nat (length conversation_data)) in
        ([started;
          Create_voice_signature analyses;
          Calculate_confidence_score voice_signature;
          Log_voice_analysis_complete user_id confidence_score
            (size voice_signature)],
         inr {| voice_signature := voice_signature;
                confidence_score := confidence_score;
                processing_details :=
                  {| text_length := String.length full_text;
                     conversation_turns := length conversation_data;
                     analysis_dimensions := size voice_signature |} |})
  end.

End Services.

(** *** The pattern-based analyzers, from their counts on *)

(** The counts that [_analyze_communication_style] takes from the text with
    [re.findall] and [str.split]: the indicator matches of each family, the
    number of pieces of [text.split('.')] and of words of [text.split()]. *)
Record StyleCounts := {
  question_count : nat;
  sentence_pieces : nat;
  first_person_pronouns : nat;
  word_count : nat;
  story_matches : nat;
  authority_matches : nat;
  empathy_matches : nat;
  humor_matches : nat;
  cta_matches : nat
}.

(** [x / y if <y is not zero> else 0], on counts. *)
Definition ratio (x y : nat) : Q :=
  if (0 <? y)%nat then inject_Z (Z.of_nat x) / inject_Z (Z.of_nat y) else 0.

(** [_analyze_communication_style], from the counts on. *)
Definition communication_style_of_counts (c : StyleCounts) : gmap string Q :=
  let question_ratio := ratio (question_count c) (sentence_pieces c) in
  let personal_experience_ratio := ratio (first_person_pronouns c) (word_count c) in
  let story_score := ratio (story_matches c) (word_count c) in
  let authority_score := ratio (authority_matches c) (word_count c) in
  let empathy_score := ratio (empathy_matches c) (word_count c) in
  let humor_score := ratio (humor_matches c) (word_count c) in
  let cta_score := ratio (cta_matches c) (word_count c) in
  list_to_map
    [ ("question_asking_tendency", Py.min (question_ratio * 5) 1.0);
      ("personal_experience_sharing", Py.min (personal_experience_ratio * 3) 1.0);
      ("storytelling_style", Py.min (story_score * 10) 1.0);
      ("authority_tone", Py.min (authority_score * 5) 1.0);
      ("empathy_level", Py.min (empathy_score * 8) 1.0);
      ("humor_usage", Py.min (humor_score * 20) 1.0);
      ("call_to_action_style", Py.min (cta_score * 5) 1.0) ].

(** [_analyze_emotional_patterns], from the counts on. *)
Definition emotional_patterns_of_counts
    (positive_score negative_score vulnerability_score total_words : nat)
  : gmap string Q :=
  let count (n : nat) : Q := inject_Z (Z.of_nat n) in
  list_to_map
    [ ("emotional_expressiveness",
        if (0 <? total_words)%nat
        then Py.min (count (positive_score + negative_score)%nat
                     / count total_words * 20) 1.0
        else 0);
      ("vulnerability_comfort",
        if (0 <? total_words)%nat
        then Py.min (count vulnerability_score / count total_words * 15) 1.0
        else 0) ].

End VoiceAnalyzer.

(** ** models/voice_profile.py *)

Module VoiceProfile.

(** The fields of [VoiceProfile] that the comparison reads. *)
Record VoiceProfile := {
  user_id : string;
  voice_signature : gmap string Q;
  confidence_score : Q
}.

Definition get_voice_dimension (self : VoiceProfile) (dimension : string) : Q :=
  Py.get (voice_signature self) dimension 0.0.

Record VoiceProfileComparison := {
  profile1_id : string;
  profile2_id : string;
  overall_similarity : Q;
  dimension_similarities : gmap string Q;
  differences : gmap string Q;
  recommendation : option string
}.

(** The state of the loop over [all_dimensions]:
    [dimension_similarities], [differences] and [similarities]. *)
Definition compare_state : Type := gmap string Q * gmap string Q * list Q.

Definition compare_dimension (profile1 profile2 : VoiceProfile)
    (st : compare_state) (dimension : string) : compare_state :=
  let score1 := get_voice_dimension profile1 dimension in
  let score2 := get_voice_dimension profile2 dimension in
  let diff := Qabs (score1 - score2) in
  let similarity := 1.0 - diff in
  (<[dimension := similarity]> st.1.1,
   <[dimension := diff]> st.1.2,
   (st.2 ++ [similarity])%list).

Definition recommend (overall_similarity : Q) : string :=
  if Py.Qltb 0.8 overall_similarity then
    "Very similar communication styles - content can be highly consistent"
  else if Py.Qltb 0.6 overall_similarity then
    "Similar styles with some variation - good for content diversity"
  else if Py.Qltb 0.4 overall_similarity then
    "Moderate differences - consider adapting content approach"
  else
    "Significant style differences - may need separate content strategies".

(** The loop [for dimension in all_dimensions: ...], started from empty
    dictionaries and an empty list. *)
Definition compare_loop (profile1 profile2 : VoiceProfile)
    (all_dimensions : list string) : compare_state :=
  fold_left (compare_dimension profile1 profile2) all_dimensions (∅, ∅, []).

(** [sum(similarities) / len(similarities) if similarities else 0.0]. *)
Definition overall_of (similarities : list Q) : Q :=
  match similarities with
  | [] => 0.0
  | _ => Py.sum similarities / Py.len similarities
  end.

(** [VoiceProfileComparison.compare_profiles].  The constructor validates
    [overall_similarity] against [Field(..., ge=0.0, le=1.0)] and raises
    otherwise. *)
Definition compare_profiles (profile1 profile2 : VoiceProfile)
  : Py.exn + VoiceProfileComparison :=
  let all_dimensions : gset string :=
    dom (voice_signature profile1) ∪ dom (voice_signature profile2) in
  let st := compare_loop profile1 profile2 (elements all_dimensions) in
  let similarities := st.2 in
  let overall_similarity := overall_of similarities in
  if Qle_bool 0.0 overall_similarity && Qle_bool overall_similarity 1.0 then
    inr {| profile1_id := user_id profile1;
           profile2_id := user_id profile2;
           overall_similarity := overall_similarity;
           dimension_similarities := st.1.1;
           differences := st.1.2;
           recommendation := Some (recommend overall_similarity) |}
  else inl Py.ValidationError.

(** [from_analysis_result]: the profile built from the dictionary returned by
    [analyze_voice].  The constructor validates [user_id] as a UUID and
    [confidence_score] against [Field(..., ge=0.0, le=1.0)], and raises
    [ValidationError] when either fails; [is_uuid] stands for pydantic's
    validation of the value given as [user_id].  The metadata, recording
    URL, transcription and creation time are stored in fields that this
    record leaves out. *)
Definition from_analysis_result (is_uuid : string -> bool) (user_id : string)
    (analysis_result : VoiceAnalyzer.AnalysisResult)
    (transcription : string) (recording_url : option string)
  : Py.exn + VoiceProfile :=
  let confidence_score := VoiceAnalyzer.confidence_score analysis_result in
  if is_uuid user_id &&
     Qle_bool 0.0 confidence_score && Qle_bool confidence_score 1.0 then
    inr {| user_id := user_id;
           voice_signature := VoiceAnalyzer.voice_signature analysis_result;
           confidence_score := confidence_score |}
  else inl Py.ValidationError.

(** [update_voice_signature]: [self.voice_signature.update(new_signature)]
    (the modification time is not part of this record). *)
Definition update_voice_signature (self : VoiceProfile)
    (new_signature : gmap string Q) : VoiceProfile :=
  {| user_id := user_id self;
     voice_signature := Py.update (voice_signature self) new_signature;
     confidence_score := confidence_score self |}.

(** [get_formality_level]. *)
Definition get_formality_level (self : VoiceProfile) : string :=
  let formality := get_voice_dimension self "formality_level" in
  if Py.Qltb 0.7 formality then "Very Formal"
  else if Py.Qltb 0.3 formality then "Professional"
  else "Casual".

(** [is_suitable_for_content_type]: the [content_requirements] literal and
    the loop that returns [False] at the first dimension below its minimum. *)
Definition content_requirements : gmap string (list (string * Q)) :=
  list_to_map
  [ ("story",
      [ ("storytelling_style", 0.4); ("personal_experience_sharing", 0.3) ]);
    ("technical_article",
      [ ("technical_depth", 0.5); ("formality_level", 0.4) ]);
    ("thought_leadership",
      [ ("authority_tone", 0.5); ("industry_jargon", 0.3) ]);
    ("personal_update",
      [ ("personal_experience_sharing", 0.4); ("emotional_expressiveness", 0.3) ]) ].

Definition is_suitable_for_content_type (self : VoiceProfile)
    (content_type : string) : bool :=
  let requirements := default [] (content_requirements !! content_type) in
  forallb
    (fun requirement =>
       negb (Py.Qltb (get_voice_dimension self requirement.1) requirement.2))
    requirements.

End VoiceProfile.

(** ** content_generation/templates.py *)

Module TemplateManager.

(** A template dictionary.  [template_structure] and [variables] are not
    read by the selection and are left out. *)
Record Template := {
  id : string;
  name : string;
  description : string;
  content_type : string;
  industry_tags : list string;
  use_case : string
}.

Definition _get_default_templates : list Template :=
  [ {| id := "professional_insight"; name := "Professional Insight";
       description := "Share a professional insight or lesson learned";
       content_type := "post";
       industry_tags := ["technology"; "business"; "marketing"; "finance"];
       use_case := "thought_leadership" |};
    {| id := "personal_story"; name := "Personal Story";
       description := "Share a personal experience with professional relevance";
       content_type := "post";
       industry_tags := ["leadership"; "career"; "entrepreneurship"];
       use_case := "personal_story" |};
    {| id := "industry_commentary"; name := "Industry Commentary";
       description := "Comment on industry trends or news";
       content_type := "post";
       industry_tags := ["technology"; "business"; "marketing"; "finance"];
       use_case := "thought_leadership" |};
    {| id := "career_milestone"; name := "Career Milestone Achievement";
       description := "Celebrate a career achievement or milestone";
       content_type := "post";
       industry_tags := ["career"; "leadership"; "business"];
       use_case := "personal_update" |};
    {| id := "problem_solution"; name := "Problem-Solution Case Study";
       description := "Present a business problem and solution approach";
       content_type := "post";
       industry_tags := ["business"; "consulting"; "strategy"];
       use_case := "thought_leadership" |};
    {| id := "learning_development"; name := "Learning & Development Update";
       description := "Share learning experiences and professional development";
       content_type := "post";
       industry_tags := ["education"; "career"; "development"];
       use_case := "personal_update" |};
    {| id := "quick_tip"; name := "Quick Professional Tips";
       description := "Share actionable professional advice";
       content_type := "post";
       industry_tags := ["productivity"; "business"; "career"];
       use_case := "professional_advice" |};
    {| id := "networking_connection"; name := "Networking Connection Request";
       description := "Professional networking and connection posts";
       content_type := "post";
       industry_tags := ["networking"; "business"; "career"];
       use_case := "networking" |};
    {| id := "thought_leadership_long"; name := "Thought Leadership Article";
       description := "In-depth thought leadership content";
       content_type := "article";
       industry_tags := ["leadership"; "strategy"; "innovation"];
       use_case := "thought_leadership" |};
    {| id := "company_update"; name := "Company News Announcement";
       description := "Share company news and updates professionally";
       content_type := "post";
       industry_tags := ["business"; "company"; "updates"];
       use_case := "company_news" |} ].

(** The score one template gets in the loop over [matching_templates]. *)
Definition template_score (voice_signature : gmap string Q) (template : Template) : Q :=
  let storytelling_score := Py.get voice_signature "storytelling_style" 0.3 in
  let authority_score := Py.get voice_signature "authority_tone" 0.4 in
  let personal_score := Py.get voice_signature "personal_experience_sharing" 0.4 in
  let technical_score := Py.get voice_signature "technical_depth" 0.3 in
  let score := 0.0 in
  let use_case := use_case template in
  let score :=
    if String.eqb use_case "personal_story" && Py.Qltb 0.5 storytelling_score
    then score + 3.0
    else if String.eqb use_case "thought_leadership" && Py.Qltb 0.5 authority_score
    then score + 3.0
    else if String.eqb use_case "personal_update" && Py.Qltb 0.5 personal_score
    then score + 2.0
    else if String.eqb use_case "professional_advice" && Py.Qltb 0.4 technical_score
    then score + 2.0
    else score + 1.0 in
  let score :=
    if Py.contains "story" (Py.lower (name template)) && Py.Qltb 0.4 storytelling_score
    then score + 1.5 else score in
  let score :=
    if Py.contains "insight" (Py.lower (name template)) && Py.Qltb 0.4 authority_score
    then score + 1.5 else score in
  let score :=
    if Py.contains "personal" (Py.lower (name template)) && Py.Qltb 0.4 personal_score
    then score + 1.5 else score in
  score.

(** [max(template_scores, key=lambda x: x[1])]: the first pair with the
    largest score; a later pair replaces the current one only when its
    score is strictly larger. *)
Definition max_by_score (first : Template * Q) (rest : list (Template * Q))
  : Template * Q :=
  fold_left (fun best x => if Py.Qltb best.2 x.2 then x else best) rest first.

(** The body of [get_template_for_voice_profile] as a function of its local
    [templates]; [templates[0]] raises on an empty list. *)
Definition select_template (templates : list Template)
    (voice_signature : gmap string Q) (content_type' : string)
  : Py.exn + Template :=
  let matching_templates :=
    List.filter (fun t => String.eqb (content_type t) content_type') templates in
  match matching_templates with
  | [] =>
      match templates with
      | t :: _ => inr t
      | [] => inl Py.IndexError
      end
  | template :: others =>
      let scored t := (t, template_score voice_signature t) in
      inr (max_by_score (scored template) (List.map scored others)).1
  end.

Definition get_template_for_voice_profile
    (voice_signature : gmap string Q) (content_type' : string)
  : Py.exn + Template :=
  select_template _get_default_templates voice_signature content_type'.

(** [get_template_by_id] without a database connection: the first default
    template with the requested id, [None] when there is none. *)
Definition get_template_by_id (template_id : string) : option Template :=
  List.find (fun template => String.eqb (id template) template_id)
            _get_default_templates.

(** The template cache: [template_cache] and [cache_expiry], both keyed by
    the cache key; [cache_ttl] is one hour. *)
Record Cache := {
  template_cache : gmap string (list Template);
  cache_expiry : gmap string Q
}.

Definition cache_ttl : Q := 3600.

(** [_is_cache_valid] at the time [now] (a POSIX timestamp). *)
Definition _is_cache_valid (self : Cache) (now : Q) (cache_key : string) : bool :=
  match template_cache self !! cache_key with
  | None => false
  | Some _ =>
      match cache_expiry self !! cache_key with
      | None => false
      | Some expiry => Py.Qltb now expiry
      end
  end.

(** How an f-string renders an [Optional[str]], and the truth value the
    filters test. *)
Definition format_optional (value : option string) : string :=
  default "None" value.

Definition is_given (value : option string) : bool :=
  match value with
  | Some (String _ _) => true
  | _ => false
  end.

Definition cache_key_of (content_type industry use_case : option string) : string :=
  "templates_" ++ format_optional content_type ++ "_" ++
  format_optional industry ++ "_" ++ format_optional use_case.

(** The three filters applied to the default templates. *)
Definition filter_defaults (content_type' industry use_case' : option string)
  : list Template :=
  let templates := _get_default_templates in
  let templates :=
    if is_given content_type'
    then List.filter
           (fun t => String.eqb (content_type t) (default "" content_type'))
           templates
    else templates in
  let templates :=
    if is_given industry
    then List.filter (fun t => Py.mem (default "" industry) (industry_tags t))
                     templates
    else templates in
  let templates :=
    if is_given use_case'
    then List.filter (fun t => String.eqb (use_case t) (default "" use_case'))
                     templates
    else templates in
  templates.

(** [get_templates] without a database connection.  [now] is the time read
    by the validity check and [stored_at] the time read when the result is
    cached.  Returns the templates and the cache afterwards. *)
Definition get_templates (self : Cache) (now stored_at : Q)
    (content_type' industry use_case' : option string)
  : list Template * Cache :=
  let cache_key := cache_key_of content_type' industry use_case' in
  if _is_cache_valid self now cache_key then
    (default [] (template_cache self !! cache_key), self)
  else
    let templates := filter_defaults content_type' industry use_case' in
    (templates,
     {| template_cache := <[cache_key := templates]> (template_cache self);
        cache_expiry := <[cache_key := stored_at + cache_ttl]> (cache_expiry self) |}).

End TemplateManager.

(** ** content_generation/generator.py *)

Module ContentGenerator.

Definition newline : string := String (ascii_of_nat 10) EmptyString.

(** The ASCII characters matched by [\w]. *)
Definition is_word (c : ascii) : bool :=
  let n := nat_of_ascii c in
  ((48 <=? n)%nat && (n <=? 57)%nat) || ((65 <=? n)%nat && (n <=? 90)%nat) ||
  ((97 <=? n)%nat && (n <=? 122)%nat) || (n =? 95)%nat.

(** [re.findall(r'#\w+', content)] as a left-to-right scan.  [run] is
    [Some w] while the scan is inside a candidate match: a [#] has been
    read, followed by the word characters [w].  The match ends at the first
    character that is not a word character (or at the end of the text) and
    counts when [w] is not empty; matches are leftmost, longest and do not
    overlap. *)
Definition flush (run : option string) : list string :=
  match run with
  | Some (String c w) => ["#" ++ String c w]
  | _ => []
  end.

Fixpoint findall_from (run : option string) (content : string) : list string :=
  match content with
  | EmptyString => flush run
  | String c rest =>
      if is_word c then
        findall_from ((fun w => w ++ String c EmptyString) <$> run) rest
      else
        (flush run ++
         findall_from (if Ascii.eqb c "#" then Some EmptyString else None) rest)%list
  end.

Definition findall_hashtags (content : string) : list string :=
  findall_from None content.

Definition industry_hashtags : gmap string (list string) :=
  list_to_map
  [ ("technology",
      ["#TechLeadership"; "#Innovation"; "#DigitalTransformation"; "#TechTrends"]);
    ("finance",
      ["#FinTech"; "#FinancialServices"; "#InvestmentStrategy"; "#EconomicInsights"]);
    ("healthcare",
      ["#HealthcareInnovation"; "#MedicalLeadership"; "#PatientCare"; "#HealthTech"]);
    ("marketing",
      ["#MarketingStrategy"; "#DigitalMarketing"; "#BrandBuilding"; "#MarketingInsights"]);
    ("consulting",
      ["#BusinessStrategy"; "#Consulting"; "#Leadership"; "#BusinessTransformation"]) ].

(** The loop selecting [new_hashtags] from [suggested_hashtags]. *)
Definition select_new (existing_hashtags : list string)
    (new_hashtags : list string) (hashtag : string) : list string :=
  if negb (Py.mem hashtag existing_hashtags) &&
     (Z.of_nat (length new_hashtags) <? 5 - Z.of_nat (length existing_hashtags))%Z
  then (new_hashtags ++ [hashtag])%list
  else new_hashtags.

Definition _optimize_hashtags (content industry : string) : string :=
  let existing_hashtags := findall_hashtags content in
  if (length existing_hashtags <? 3)%nat then
    let suggested_hashtags :=
      default ["#Leadership"; "#ProfessionalGrowth"; "#BusinessInsights"]
              (industry_hashtags !! Py.lower industry) in
    let new_hashtags :=
      fold_left (select_new existing_hashtags) suggested_hashtags [] in
    match new_hashtags with
    | [] => content
    | _ => content ++ newline ++ newline ++ String.concat " " new_hashtags
    end
  else content.

(** *** Paragraph layout *)

(** The sentence terminators of [_add_line_breaks]: the class [[.!?]]. *)
Definition is_terminator (c : ascii) : bool :=
  Ascii.eqb c "." || Ascii.eqb c "!" || Ascii.eqb c "?".

(** [re.split(r'[.!?]+', content)]: the pieces between maximal runs of
    terminators, with an empty piece before a leading and after a trailing
    run. *)
Fixpoint split_sentences (content : string) : list string :=
  match content with
  | EmptyString => [EmptyString]
  | String c rest =>
      let pieces := split_sentences rest in
      if is_terminator c then
        match rest with
        | String c' _ => if is_terminator c' then pieces else EmptyString :: pieces
        | EmptyString => EmptyString :: pieces
        end
      else
        match pieces with
        | piece :: others => String c piece :: others
        | [] => [String c EmptyString]
        end
  end.

(** ['. '.join(current_paragraph) + '.']. *)
Definition close_paragraph (current_paragraph : list string) : string :=
  String.concat ". " current_paragraph ++ ".".

(** One turn of the loop over [sentences]; the state is [paragraphs] and
    [current_paragraph]. *)
Definition add_sentence (st : list string * list string) (sentence : string)
  : list string * list string :=
  let sentence := Py.strip sentence in
  if String.eqb sentence "" then st
  else
    let current_paragraph := (st.2 ++ [sentence])%list in
    if (2 <=? length current_paragraph)%nat
    then ((st.1 ++ [close_paragraph current_paragraph])%list, [])
    else (st.1, current_paragraph).

Definition _add_line_breaks (content : string) : string :=
  let sentences := split_sentences content in
  let st := fold_left add_sentence sentences ([], []) in
  let paragraphs :=
    match st.2 with
    | [] => st.1
    | current_paragraph => (st.1 ++ [close_paragraph current_paragraph])%list
    end in
  String.concat (newline ++ newline) paragraphs.

(** *** Sampling temperature and voice match *)

(** [_calculate_temperature]. *)
Definition _calculate_temperature (voice_signature : gmap string Q) : Q :=
  let expressiveness := Py.get voice_signature "emotional_expressiveness" 0.3 in
  let humor := Py.get voice_signature "humor_usage" 0.1 in
  let storytelling := Py.get voice_signature "storytelling_style" 0.3 in
  let creativity_score := (expressiveness + humor + storytelling) / 3 in
  let temperature := 0.3 + (creativity_score * 0.6) in
  Py.min 0.9 (Py.max 0.3 temperature).

(** The temperature of a variation call in [_generate_variations]:
    [temperature = self._calculate_temperature(voice_signature) + 0.1],
    passed as [min(0.9, temperature)]. *)
Definition variation_temperature (voice_signature : gmap string Q) : Q :=
  let temperature := _calculate_temperature voice_signature + 0.1 in
  Py.min 0.9 temperature.

(** [_calculate_voice_match_score] from the four [re.findall] counts on:
    the numbers of formal, casual, story and first-person indicators found in
    the content.  Nothing in the body can raise, so the [except] branch
    returning 0.5 is not reachable. *)
Definition voice_match_score_of_counts
    (formal_indicators casual_indicators story_indicators personal_indicators : nat)
    (voice_signature : gmap string Q) : Q :=
  let count (n : nat) : Q := inject_Z (Z.of_nat n) in
  let expected_formality := Py.get voice_signature "formality_level" 0.5 in
  let actual_formality :=
    if (casual_indicators <? formal_indicators)%nat
    then Py.min (count formal_indicators / 5) 1.0
    else Py.max 0 (1.0 - count casual_indicators / 5) in
  let formality_match := 1.0 - Qabs (expected_formality - actual_formality) in
  let expected_storytelling := Py.get voice_signature "storytelling_style" 0.3 in
  let actual_storytelling := Py.min (count story_indicators / 10) 1.0 in
  let storytelling_match :=
    1.0 - Qabs (expected_storytelling - actual_storytelling) in
  let expected_personal := Py.get voice_signature "personal_experience_sharing" 0.4 in
  let actual_personal := Py.min (count personal_indicators / 20) 1.0 in
  let personal_match := 1.0 - Qabs (expected_personal - actual_personal) in
  let score_components := [formality_match; storytelling_match; personal_match] in
  Py.sum score_components / Py.len score_components.

(** *** Voice description and batches *)

(** The [descriptions] list built by [_voice_signature_to_description]. *)
Definition voice_descriptions (voice_signature : gmap string Q) : list string :=
  let formality := Py.get voice_signature "formality_level" 0.5 in
  let emotion := Py.get voice_signature "emotional_expressiveness" 0.3 in
  let technical := Py.get voice_signature "technical_depth" 0.3 in
  let storytelling := Py.get voice_signature "storytelling_style" 0.3 in
  let authority := Py.get voice_signature "authority_tone" 0.4 in
  let personal := Py.get voice_signature "personal_experience_sharing" 0.4 in
  [ if Py.Qltb 0.7 formality then "Very formal and professional tone"
    else if Py.Qltb 0.3 formality then "Balanced professional tone"
    else "Casual and approachable tone";
    if Py.Qltb 0.6 emotion then "Highly expressive and emotionally engaging"
    else if Py.Qltb 0.3 emotion
    then "Moderately expressive with emotional connection"
    else "Reserved and measured emotional expression";
    if Py.Qltb 0.6 technical then "Uses technical language and industry expertise"
    else if Py.Qltb 0.3 technical
    then "Balances technical concepts with accessibility"
    else "Uses simple, accessible language";
    if Py.Qltb 0.6 storytelling then "Strong storytelling with narrative elements"
    else if Py.Qltb 0.3 storytelling then "Incorporates some story elements"
    else "Direct and factual communication";
    if Py.Qltb 0.6 authority then "Confident and authoritative voice"
    else if Py.Qltb 0.3 authority then "Balanced confidence and humility"
    else "Humble and questioning approach";
    if Py.Qltb 0.6 personal
    then "Frequently shares personal experiences and insights"
    else if Py.Qltb 0.3 personal then "Occasionally includes personal anecdotes"
    else "Focuses on general insights rather than personal stories" ].

Definition _voice_signature_to_description (voice_signature : gmap string Q)
  : string :=
  "- " ++ String.concat (newline ++ "- ") (voice_descriptions voice_signature).

(** [batch_generate_content].  [generate_content] stands for the coroutine
    run on each request: [asyncio.gather(..., return_exceptions=True)] yields,
    in request order, its result or the exception it raised. *)
Inductive batch_error := Maximum_10_content_requests_per_batch.

Section Batch.
Variables Request Result Error : Type.
Variable generate_content : Request -> Error + Result.

Record BatchResult := {
  successful : list (nat * Result);
  failed : list (nat * Error);
  total_processed : nat
}.

Definition batch_step (st : list (nat * Result) * list (nat * Error))
    (item : nat * (Error + Result)) : list (nat * Result) * list (nat * Error) :=
  match item.2 with
  | inl error => (st.1, (st.2 ++ [(item.1, error)])%list)
  | inr result => ((st.1 ++ [(item.1, result)])%list, st.2)
  end.

Definition batch_generate_content (requests : list Request)
  : batch_error + BatchResult :=
  if (10 <? length requests)%nat
  then inl Maximum_10_content_requests_per_batch
  else
    let results := List.map generate_content requests in
    let st :=
      fold_left batch_step (combine (seq 0 (length results)) results) ([], []) in
    inr {| successful := st.1; failed := st.2;
           total_processed := length results |}.
End Batch.

(** *** The optimization pipeline *)

(** [s.split(c)] for a separator of one character: the pieces between the
    occurrences of [c], never an empty list. *)
Fixpoint split_char (c : ascii) (s : string) : list string :=
  match s with
  | EmptyString => [EmptyString]
  | String a rest =>
      if Ascii.eqb a c then EmptyString :: split_char c rest
      else
        match split_char c rest with
        | piece :: others => String a piece :: others
        | [] => [String a EmptyString]
        end
  end.

(** [re.sub(r'(\w)#', r'\1 #', text)]: a space is put between a word
    character and a [#] that follows it.  A match ends on [#], which is no
    word character, so the matches never overlap. *)
Fixpoint space_before_hash (text : string) : string :=
  match text with
  | String a tail =>
      match tail with
      | String b rest =>
          if is_word a && Ascii.eqb b "#"
          then String a (String " " (String "#" (space_before_hash rest)))
          else String a (space_before_hash tail)
      | EmptyString => text
      end
  | EmptyString => text
  end.

(** [_format_for_linkedin]; the content type is not used by the body. *)
Definition _format_for_linkedin (content content_type : string) : string :=
  let lines := split_char (ascii_of_nat 10) content in
  let lines :=
    match lines with
    | first_line :: others =>
        if (100 <? String.length first_line)%nat then
          let first_sentence := hd EmptyString (split_char "." first_line) in
          if (String.length first_sentence <? 80)%nat then
            (first_sentence ++ "." ++ newline ++ newline ++
             String.concat "." (tl (split_char "." first_line))) :: others
          else lines
        else lines
    | [] => lines
    end in
  let formatted := String.concat newline lines in
  let formatted := space_before_hash formatted in
  Py.strip formatted.

(** The calls to action of [_ensure_call_to_action]. *)
Definition cta_options : gmap string (list string) :=
  list_to_map
  [ ("post",
      [ "What's your experience with this?";
        "Thoughts?";
        "How do you handle this in your organization?";
        "What would you add to this list?" ]);
    ("story",
      [ "Have you had a similar experience?";
        "What lessons have you learned in similar situations?";
        "How would you have handled this differently?" ]);
    ("article",
      [ "What strategies have worked best for you?";
        "I'd love to hear your perspective on this.";
        "What other factors would you consider important?" ]) ].

(** [random.choice(options)] for the random number [draw]. *)
Definition random_choice (draw : nat) (options : list string) : string :=
  nth (draw mod length options) options EmptyString.

Section Optimization.

(** Whether one of the three [cta_patterns] is found in the content
    ([re.search], ignoring case), and the number drawn by
    [random.choice]. *)
Variable has_cta : string -> bool.
Variable draw : nat.

Definition _ensure_call_to_action (content content_type : string) : string :=
  if negb (has_cta content) then
    let options :=
      default (default [] (cta_options !! "post")) (cta_options !! content_type) in
    let selected_cta := random_choice draw options in
    content ++ newline ++ newline ++ selected_cta
  else content.

Definition _optimize_content (content content_type : string)
    (user_profile : gmap string string) : string :=
  let optimized := content in
  let optimized := _add_line_breaks optimized in
  let optimized :=
    _optimize_hashtags optimized (default "business" (user_profile !! "industry")) in
  let optimized := _ensure_call_to_action optimized content_type in
  let optimized := _format_for_linkedin optimized content_type in
  optimized.

End Optimization.

End ContentGenerator.

(** ** Reference tables of the specification *)

Module Spec.

(** The dimensions whose fallback in the fuser is a constant. *)
Definition constant_defaults : list (string * Q) :=
  [ ("formality_level", 0.5);
    ("emotional_expressiveness", 0.3);
    ("storytelling_style", 0.3);
    ("authority_tone", 0.4);
    ("empathy_level", 0.4);
    ("humor_usage", 0.1);
    ("vulnerability_comfort", 0.3);
    ("communication_pace", 0.5);
    ("question_asking_tendency", 0.2);
    ("call_to_action_style", 0.3);
    ("personal_experience_sharing", 0.4) ].

(** The signature obtained when no analysis contributes anything. *)
Definition neutral_signature : list (string * Q) :=
  [ ("formality_level", 0.5);
    ("emotional_expressiveness", 0.3);
    ("technical_depth", 0);
    ("storytelling_style", 0.3);
    ("authority_tone", 0.4);
    ("empathy_level", 0.4);
    ("humor_usage", 0.1);
    ("vulnerability_comfort", 0.3);
    ("industry_jargon", 0);
    ("communication_pace", 0.5);
    ("explanation_style", 0.5);
    ("question_asking_tendency", 0.2);
    ("call_to_action_style", 0.3);
    ("personal_experience_sharing", 0.4) ].

(** A voice signature has exactly the canonical dimensions as its keys. *)
Definition is_voice_signature (sig : gmap string Q) : Prop :=
  dom sig = list_to_set Config.voice_dimensions.

(** The scores of a signature, dimension by dimension in canonical order. *)
Definition score (sig : gmap string Q) (d : string) : Q := default 0 (sig !! d).
Definition scores (sig : gmap string Q) : list Q :=
  List.map (score sig) Config.voice_dimensions.

Definition total (xs : list Q) : Q := foldr Qplus 0 xs.

(** The (sample) variance of the fourteen scores. *)
Definition variance (sig : gmap string Q) : Q :=
  let mu := total (scores sig) / 14 in
  total (List.map (fun x => (x - mu) * (x - mu)) (scores sig)) / 13.

(** The number of dimensions with a value above 0. *)
Definition positive_dimensions (sig : gmap string Q) : Q :=
  inject_Z (Z.of_nat (length (List.filter (fun x => Py.Qltb 0 x) (scores sig)))).

(** The confidence score of section 4.4. *)
Definition confidence (sig : gmap string Q) (text_length turn_count : Z) : Q :=
  Qmax 0 (Qmin 1
    (0.3 * Qmin (inject_Z text_length / 1000) 1.0 +
     0.2 * Qmin (inject_Z turn_count / 5) 1.0 +
     0.3 * (positive_dimensions sig / 14) +
     0.2 * Qmax 0.5 (1.0 - variance sig))).

(** A signature respects the score invariant. *)
Definition is_bounded (sig : gmap string Q) : Prop :=
  map_Forall (fun _ v => 0 <= v <= 1) sig.

(** Section 4.5: per-dimension similarity over the union of the
    dimensions, a missing dimension counting as 0, and their arithmetic
    mean (0 when there is no dimension at all). *)
Definition similarity (sigA sigB : gmap string Q) (d : string) : Q :=
  1 - Qabs (score sigA d - score sigB d).

Definition union_dimensions (sigA sigB : gmap string Q) : list string :=
  elements (dom sigA ∪ dom sigB).

Definition mean (xs : list Q) : Q :=
  match xs with
  | [] => 0
  | _ => total xs / inject_Z (Z.of_nat (length xs))
  end.

Definition mean_similarity (sigA sigB : gmap string Q) : Q :=
  mean (List.map (similarity sigA sigB) (union_dimensions sigA sigB)).

(** A well-formed hashtag: [#] followed by one or more word characters. *)
Fixpoint all_word (w : string) : bool :=
  match w with
  | EmptyString => true
  | String c w' => ContentGenerator.is_word c && all_word w'
  end.

Definition is_hashtag (h : string) : bool :=
  match h with
  | String c (String c' w) => Ascii.eqb c "#" && all_word (String c' w)
  | _ => false
  end.

(** A separator ends a hashtag and starts none: it is neither a word
    character nor [#]. *)
Definition is_separator (c : ascii) : Prop :=
  ContentGenerator.is_word c = false /\ Ascii.eqb c "#" = false.

(** The suggestions for an industry, and the test that a suggestion is
    not among the hashtags already present. *)
Definition suggested_for (industry : string) : list string :=
  default ["#Leadership"; "#ProfessionalGrowth"; "#BusinessInsights"]
          (ContentGenerator.industry_hashtags !! Py.lower industry).

Definition fresh (existing : list string) (h : string) : bool :=
  negb (Py.mem h existing).

(** [c] occurs in [s]. *)
Fixpoint occurs (c : ascii) (s : string) : bool :=
  match s with
  | EmptyString => false
  | String a s' => Ascii.eqb a c || occurs c s'
  end.

(** An integer that [float()] refuses, and the score the estimator keeps
    for a value that converts: numbers are clamped to [0, 1], booleans
    counting as 1 and 0; [inf] and [nan] give 1 and [-inf] gives 0; an entry
    that is not a number has no score. *)
Definition overflows (value : Py.json) : bool :=
  match value with
  | Py.JInt z => (Py.float_limit <=? Z.abs z)%Z
  | _ => false
  end.

Definition kept_score (value : Py.json) : option Q :=
  match value with
  | Py.JBool b => Some (VoiceAnalyzer.clamp01 (if b then 1 else 0))
  | Py.JInt z => Some (VoiceAnalyzer.clamp01 (inject_Z z))
  | Py.JFloat q => Some (VoiceAnalyzer.clamp01 q)
  | Py.JSpecial Py.PosInf => Some 1.0
  | Py.JSpecial Py.NaN => Some 1.0
  | Py.JSpecial Py.NegInf => Some 0.0
  | _ => None
  end.

(** What the provider answers to a prompt, if anything, and what
    [json.loads] makes of the braces found in the answer, if anything. *)
Definition provider_answer (openai_client : option (string -> option string))
    (prompt : string) : option string :=
  match openai_client with
  | Some create => create prompt
  | None => None
  end.

Definition parsed_answer (json_loads : string -> option Py.json)
    (answer : option string) : option Py.json :=
  match answer with
  | Some content =>
      match VoiceAnalyzer.json_str (Py.strip content) with
      | Some js => json_loads js
      | None => None
      end
  | None => None
  end.

(** The value an industry multiplier gives a score. *)
Definition adjusted_value (multiplier v : Q) : Q :=
  Py.max 0.0 (Py.min 1.0 (v * multiplier)).

(** A string of whitespace only, and a conversation entry that contributes
    nothing to the combined transcript: its transcription is missing or
    consists of whitespace. *)
Fixpoint all_space (s : string) : bool :=
  match s with
  | EmptyString => true
  | String c s' => Py.is_space c && all_space s'
  end.

Definition is_blank (item : VoiceAnalyzer.ConversationItem) : Prop :=
  all_space (default "" (VoiceAnalyzer.transcription item)) = true.

(** The comparisons of the signature that template scoring depends on. *)
Record score_flags := {
  storytelling_above_05 : bool;
  storytelling_above_04 : bool;
  authority_above_05 : bool;
  authority_above_04 : bool;
  personal_above_05 : bool;
  personal_above_04 : bool;
  technical_above_04 : bool
}.

Definition flags_of (voice_signature : gmap string Q) : score_flags :=
  let storytelling_score := Py.get voice_signature "storytelling_style" 0.3 in
  let authority_score := Py.get voice_signature "authority_tone" 0.4 in
  let personal_score := Py.get voice_signature "personal_experience_sharing" 0.4 in
  let technical_score := Py.get voice_signature "technical_depth" 0.3 in
  {| storytelling_above_05 := Py.Qltb 0.5 storytelling_score;
     storytelling_above_04 := Py.Qltb 0.4 storytelling_score;
     authority_above_05 := Py.Qltb 0.5 authority_score;
     authority_above_04 := Py.Qltb 0.4 authority_score;
     personal_above_05 := Py.Qltb 0.5 personal_score;
     personal_above_04 := Py.Qltb 0.4 personal_score;
     technical_above_04 := Py.Qltb 0.4 technical_score |}.

(** The score of a template once the comparisons have been made. *)
Definition score_with (f : score_flags) (template : TemplateManager.Template) : Q :=
  let score := 0.0 in
  let use_case := TemplateManager.use_case template in
  let score :=
    if String.eqb use_case "personal_story" && storytelling_above_05 f
    then score + 3.0
    else if String.eqb use_case "thought_leadership" && authority_above_05 f
    then score + 3.0
    else if String.eqb use_case "personal_update" && personal_above_05 f
    then score + 2.0
    else if String.eqb use_case "professional_advice" && technical_above_04 f
    then score + 2.0
    else score + 1.0 in
  let score :=
    if Py.contains "story" (Py.lower (TemplateManager.name template))
       && storytelling_above_04 f
    then score + 1.5 else score in
  let score :=
    if Py.contains "insight" (Py.lower (TemplateManager.name template))
       && authority_above_04 f
    then score + 1.5 else score in
  let score :=
    if Py.contains "personal" (Py.lower (TemplateManager.name template))
       && personal_above_04 f
    then score + 1.5 else score in
  score.

(** The best-scored default post, as a function of the comparisons. *)
Definition best_post (f : score_flags) : option TemplateManager.Template :=
  match List.filter (fun t => String.eqb (TemplateManager.content_type t) "post")
                    TemplateManager._get_default_templates with
  | [] => None
  | template :: others =>
      Some (TemplateManager.max_by_score (template, score_with f template)
              (List.map (fun t => (t, score_with f t)) others)).1
  end.

(** Whether a template passes a filter that may be absent. *)
Definition passes (given : option string) (test : string -> bool) : bool :=
  if TemplateManager.is_given given then test (default "" given) else true.

(** The sentences the paragraph layout keeps: the stripped pieces that are
    not empty; the paragraphs made of a list of sentences, two sentences
    each; and the loop of the layout on the kept sentences. *)
Definition sentences_of (content : string) : list string :=
  List.filter (fun s => negb (String.eqb s ""))
              (List.map Py.strip (ContentGenerator.split_sentences content)).

Fixpoint paragraphs_of (sentences : list string) : list string :=
  match sentences with
  | s1 :: s2 :: rest =>
      ContentGenerator.close_paragraph [s1; s2] :: paragraphs_of rest
  | [s] => [ContentGenerator.close_paragraph [s]]
  | [] => []
  end.

Definition group_sentence (st : list string * list string) (sentence : string)
  : list string * list string :=
  let current_paragraph := (st.2 ++ [sentence])%list in
  if (2 <=? length current_paragraph)%nat
  then ((st.1 ++ [ContentGenerator.close_paragraph current_paragraph])%list, [])
  else (st.1, current_paragraph).

Definition finish (st : list string * list string) : list string :=
  match st.2 with
  | [] => st.1
  | current_paragraph =>
      (st.1 ++ [ContentGenerator.close_paragraph current_paragraph])%list
  end.

(** No sentence terminator occurs in [s]. *)
Fixpoint terminator_free (s : string) : bool :=
  match s with
  | EmptyString => true
  | String c s' => negb (ContentGenerator.is_terminator c) && terminator_free s'
  end.

(** A sentence as the loop keeps it: not empty, stripped, without
    terminators. *)
Definition is_sentence (s : string) : Prop :=
  s <> "" /\ Py.strip s = s /\ terminator_free s = true.

(** What may follow the full stop that ends a sentence. *)
Definition starts_plain (t : string) : Prop :=
  match t with
  | EmptyString => True
  | String c _ => ContentGenerator.is_terminator c = false
  end.

(** The canonical text of a UUID: hexadecimal digits in groups of 8, 4, 4,
    4 and 12, separated by hyphens. *)
Definition is_hex (c : ascii) : bool :=
  let n := nat_of_ascii c in
  ((48 <=? n)%nat && (n <=? 57)%nat) || ((65 <=? n)%nat && (n <=? 70)%nat) ||
  ((97 <=? n)%nat && (n <=? 102)%nat).

Fixpoint all_hex (s : string) : bool :=
  match s with
  | EmptyString => true
  | String c s' => is_hex c && all_hex s'
  end.

Definition is_canonical_uuid (s : string) : bool :=
  let groups := ContentGenerator.split_char "-" s in
  forallb all_hex groups &&
  bool_decide (List.map String.length groups = [8; 4; 4; 4; 12]%nat).

(** The description the prompt builder gives for a formality level of the
    profile. *)
Definition formality_description (level : string) : string :=
  if String.eqb level "Very Formal" then "Very formal and professional tone"
  else if String.eqb level "Professional" then "Balanced professional tone"
  else "Casual and approachable tone".

End Spec.

(** * Properties *)

Import VoiceAnalyzer.

(** ** Comparisons, [min], [max] and the clamp *)

Lemma Qltb_lt x y : Py.Qltb x y = true <-> x < y.
Proof.
  unfold Py.Qltb. rewrite negb_true_iff.
  destruct (Qle_bool y x) eqn:E.
  - apply Qle_bool_iff in E. split; [discriminate | lra].
  - split; [intros _ | reflexivity].
    apply Qnot_le_lt. intros H. apply Qle_bool_iff in H. congruence.
Qed.

Lemma Qltb_ge x y : Py.Qltb x y = false <-> y <= x.
Proof. unfold Py.Qltb. rewrite negb_false_iff. apply Qle_bool_iff. Qed.

(** Case analysis on every float comparison of the goal. *)
Ltac case_Qltb :=
  repeat match goal with
  | |- context [Py.Qltb ?x ?y] =>
      let E := fresh "E" in
      destruct (Py.Qltb x y) eqn:E;
      [apply Qltb_lt in E | apply Qltb_ge in E]
  end.

Lemma clamp01_bounds x : 0 <= clamp01 x <= 1.
Proof. unfold clamp01, Py.max, Py.min. case_Qltb; lra. Qed.

(** ** Strings *)

Lemma string_app_cons (x : ascii) (a b : string) :
  String x a ++ b = String x (a ++ b).
Proof. reflexivity. Qed.

Lemma string_app_nil_l (b : string) : "" ++ b = b.
Proof. reflexivity. Qed.

Lemma string_app_assoc (a b c : string) : (a ++ b) ++ c = a ++ (b ++ c).
Proof.
  induction a as [| x a IH]; [done |].
  by rewrite !string_app_cons, IH.
Qed.

Lemma string_app_nil_r (a : string) : a ++ "" = a.
Proof.
  induction a as [| x a IH]; [done |]. by rewrite string_app_cons, IH.
Qed.

Lemma string_length_app (a b : string) :
  String.length (a ++ b) = (String.length a + String.length b)%nat.
Proof.
  induction a as [| x a IH]; [done |].
  rewrite string_app_cons. cbn [String.length]. by rewrite IH.
Qed.

(** ** The voice signature fuser *)

(** Unfolds the fuser down to its fourteen insertions and reads one key. *)
Ltac fuser_lookup :=
  unfold _create_voice_signature, clamp_items, dimension_mappings, Py.get;
  cbn [fold_left fst snd];
  simplify_map_eq; try reflexivity.

(** C1.  Whatever partial analyses the fuser receives, the signature it
    returns has exactly the fourteen canonical dimensions as its keys, and
    every value lies between 0 and 1. *)
Theorem create_voice_signature_complete (analyses : list (gmap string Q)) :
  dom (_create_voice_signature analyses) = list_to_set Config.voice_dimensions /\
  size (_create_voice_signature analyses) = 14%nat /\
  map_Forall (fun _ v => 0 <= v <= 1) (_create_voice_signature analyses).
Proof.
  assert (Hdom : dom (_create_voice_signature analyses)
                 = list_to_set Config.voice_dimensions).
  { unfold _create_voice_signature, clamp_items, dimension_mappings.
    cbn [fold_left fst snd].
    rewrite !dom_insert_L, dom_empty_L.
    cbn [Config.voice_dimensions list_to_set]. set_solver. }
  split; [exact Hdom | split].
  - rewrite <- size_dom, Hdom. reflexivity.
  - unfold _create_voice_signature, clamp_items.
    generalize (dimension_mappings (combine_analyses analyses)).
    intros items. rewrite <- (rev_involutive items).
    induction (rev items) as [| [d s] l IH]; cbn [rev].
    + apply map_Forall_empty.
    + rewrite fold_left_app. cbn [fold_left fst snd].
      apply map_Forall_insert_2; [apply clamp01_bounds | exact IH].
Qed.

Lemma update_all_empty (analyses : list (gmap string Q)) (acc : gmap string Q) :
  Forall (fun a => a = ∅) analyses -> fold_left Py.update analyses acc = acc.
Proof.
  intros H. revert acc.
  induction H as [| a l -> _ IH]; intros acc; cbn [fold_left].
  - reflexivity.
  - unfold Py.update at 2. rewrite (left_id_L ∅ (∪)). apply IH.
Qed.

Lemma combine_analyses_empty (analyses : list (gmap string Q)) :
  Forall (fun a => a = ∅) analyses -> combine_analyses analyses = ∅.
Proof. apply update_all_empty. Qed.

(** C2, as stated, fails: [explanation_style] is a third dimension whose
    fallback is derived from another signal.  With the dimension absent from
    the merged input, the fuser yields 0.5 when nothing is known and 1 when
    [avg_sentence_length] is 30, so no constant describes its default. *)
Lemma explanation_style_default_not_constant :
  ~ (exists c : Q, forall analyses : list (gmap string Q),
        combine_analyses analyses !! "explanation_style" = None ->
        exists v, _create_voice_signature analyses !! "explanation_style" = Some v
                  /\ v == c).
Proof.
  intros [c H].
  destruct (H []) as (v0 & E0 & H0); [vm_compute; reflexivity |].
  destruct (H [{[ "avg_sentence_length" := 30 ]}]) as (v1 & E1 & H1);
    [vm_compute; reflexivity |].
  vm_compute in E0, E1.
  injection E0 as <-. injection E1 as <-.
  rewrite <- H1 in H0. vm_compute in H0. discriminate.
Qed.

(** C2, amended.  For each canonical dimension the merged value, clamped, is
    used when present.  Otherwise three dimensions fall back to a value
    derived from another signal: [technical_depth] to [technical_density * 2],
    [industry_jargon] to [entity_density * 3] (the signal counting as 0 when
    absent) and [explanation_style] to [avg_sentence_length / 30] (15 when
    absent), each clamped; the other eleven fall back to their constants.
    When every input mapping is empty the result is the neutral signature. *)
Theorem fuser_default_policy (analyses : list (gmap string Q)) :
  let merged := combine_analyses analyses in
  let sig := _create_voice_signature analyses in
  Forall (fun d => forall v, merged !! d = Some v -> sig !! d = Some (clamp01 v))
         Config.voice_dimensions /\
  Forall (fun dc => merged !! dc.1 = None -> sig !! dc.1 = Some dc.2)
         Spec.constant_defaults /\
  (merged !! "technical_depth" = None ->
   sig !! "technical_depth"
   = Some (clamp01 (Py.get merged "technical_density" 0 * 2))) /\
  (merged !! "industry_jargon" = None ->
   sig !! "industry_jargon"
   = Some (clamp01 (Py.get merged "entity_density" 0 * 3))) /\
  (merged !! "explanation_style" = None ->
   sig !! "explanation_style"
   = Some (clamp01 (Py.get merged "avg_sentence_length" 15 / 30))) /\
  (Forall (fun a => a = ∅) analyses ->
   Forall (fun dc => exists v, sig !! dc.1 = Some v /\ v == dc.2)
          Spec.neutral_signature).
Proof.
  intros merged sig. subst sig.
  repeat match goal with |- _ /\ _ => split end.
  - unfold Config.voice_dimensions.
    repeat (apply Forall_cons; split; [intros v Hv; fuser_lookup |]).
    apply Forall_nil_2.
  - unfold Spec.constant_defaults.
    repeat (apply Forall_cons; split; [cbn [fst snd]; intros Hv; fuser_lookup |]).
    apply Forall_nil_2.
  - intros Hv. fuser_lookup.
  - intros Hv. fuser_lookup.
  - intros Hv. fuser_lookup.
  - intros Hempty. subst merged.
    unfold _create_voice_signature.
    rewrite (combine_analyses_empty _ Hempty).
    unfold Spec.neutral_signature.
    repeat (apply Forall_cons; split;
            [eexists; split; [vm_compute; reflexivity | reflexivity] |]).
    apply Forall_nil_2.
Qed.

(** ** The confidence scorer *)

Lemma Py_min_Qmin a b : Py.min a b == Qmin a b.
Proof.
  unfold Py.min. case_Qltb.
  - rewrite Q.min_r; lra.
  - rewrite Q.min_l; lra.
Qed.

Lemma Py_max_Qmax a b : Py.max a b == Qmax a b.
Proof.
  unfold Py.max. case_Qltb.
  - rewrite Q.max_r; lra.
  - rewrite Q.max_l; lra.
Qed.

#[local] Instance Py_min_proper : Proper (Qeq ==> Qeq ==> Qeq) Py.min.
Proof. intros a a' Ha b b' Hb. rewrite !Py_min_Qmin. by rewrite Ha, Hb. Qed.

#[local] Instance Py_max_proper : Proper (Qeq ==> Qeq ==> Qeq) Py.max.
Proof. intros a a' Ha b b' Hb. rewrite !Py_max_Qmax. by rewrite Ha, Hb. Qed.

Lemma fold_left_Qplus (xs : list Q) (acc : Q) :
  fold_left Qplus xs acc == acc + Spec.total xs.
Proof.
  revert acc. induction xs as [| x xs IH]; intros acc;
    cbn [fold_left Spec.total foldr].
  - lra.
  - rewrite IH. unfold Spec.total. lra.
Qed.

Lemma sum_total xs : Py.sum xs == Spec.total xs.
Proof. unfold Py.sum. rewrite fold_left_Qplus. lra. Qed.

Lemma total_Permutation (l l' : list Q) : l ≡ₚ l' -> Spec.total l == Spec.total l'.
Proof.
  induction 1 as [| x l l' _ IH | x y l | l l' l'' _ IH1 _ IH2];
    cbn [Spec.total foldr] in *.
  - reflexivity.
  - by rewrite IH.
  - lra.
  - by rewrite IH1.
Qed.

Lemma total_map_ext (f g : Q -> Q) (l : list Q) :
  (forall x, f x == g x) -> Spec.total (List.map f l) == Spec.total (List.map g l).
Proof.
  intros H. induction l as [| x l IH]; cbn [List.map Spec.total foldr] in *;
    [reflexivity |]. by rewrite IH, H.
Qed.

Lemma filter_length_Permutation {A} (p : A -> bool) (l l' : list A) :
  l ≡ₚ l' -> length (List.filter p l) = length (List.filter p l').
Proof.
  induction 1 as [| x l l' _ IH | x y l | l l' l'' _ IH1 _ IH2]; cbn.
  - reflexivity.
  - destruct (p x); cbn; by rewrite IH.
  - by destruct (p x), (p y).
  - by rewrite IH1.
Qed.

Lemma NoDup_voice_dimensions : NoDup Config.voice_dimensions.
Proof. refine (bool_decide_unpack _ _). vm_compute. exact I. Qed.

Lemma values_Permutation (sig : gmap string Q) :
  Spec.is_voice_signature sig -> values sig ≡ₚ Spec.scores sig.
Proof.
  intros Hdom. unfold values, Spec.scores.
  assert (H : map_to_list sig ≡ₚ
              List.map (fun d => (d, Spec.score sig d)) Config.voice_dimensions).
  { apply NoDup_Permutation.
    - apply NoDup_map_to_list.
    - apply (NoDup_fmap_2_strong (fun d => (d, Spec.score sig d))); [| apply NoDup_voice_dimensions].
      by intros x y _ _ [= ->].
    - intros [k v]. rewrite elem_of_map_to_list.
      change (List.map ?f ?l) with (f <$> l). rewrite list_elem_of_fmap.
      assert (Hk : k ∈ Config.voice_dimensions <-> is_Some (sig !! k)).
      { rewrite <- elem_of_dom, Hdom. by rewrite elem_of_list_to_set. }
      split.
      + intros Hv. exists k. unfold Spec.score. rewrite Hv. split; [done |].
        apply Hk. by eexists.
      + intros (d & [= -> ->] & Hd). apply Hk in Hd as [v Hv].
        unfold Spec.score. by rewrite Hv. }
  rewrite H. change (List.map ?f ?l) with (f <$> l).
  rewrite <- list_fmap_compose. done.
Qed.

Lemma Permutation_len (l l' : list Q) : l ≡ₚ l' -> Py.len l = Py.len l'.
Proof. intros H. unfold Py.len. by rewrite (Permutation_length H). Qed.

Lemma scores_length sig : length (Spec.scores sig) = 14%nat.
Proof. reflexivity. Qed.

(** C3.  For a voice signature the confidence score is the clamp to [0,1] of
    0.3 * min(text_length/1000, 1) + 0.2 * min(turn_count/5, 1)
    + 0.3 * (number of dimensions above 0)/14
    + 0.2 * max(0.5, 1 - variance of the fourteen scores). *)
Theorem confidence_score_formula (sig : gmap string Q) (text_length turn_count : Z) :
  Spec.is_voice_signature sig ->
  _calculate_confidence_score sig text_length turn_count
  == Spec.confidence sig text_length turn_count.
Proof.
  intros Hsig. pose proof (values_Permutation sig Hsig) as Hperm.
  unfold _calculate_confidence_score, Spec.confidence.
  rewrite (Permutation_length Hperm), scores_length.
  cbn [Nat.ltb Nat.leb].
  assert (Hcount :
    Py.len (List.filter (fun v => Py.Qltb 0 v) (values sig))
      / inject_Z (Z.of_nat (length Config.voice_dimensions))
    == Spec.positive_dimensions sig / 14).
  { unfold Py.len, Spec.positive_dimensions.
    by rewrite (filter_length_Permutation _ _ _ Hperm). }
  assert (Hvar : Py.variance (values sig) == Spec.variance sig).
  { unfold Py.variance, Spec.variance, Py.mean.
    rewrite (Permutation_len _ _ Hperm).
    assert (Hmean : Py.sum (values sig) / Py.len (Spec.scores sig)
                    == Spec.total (Spec.scores sig) / 14).
    { rewrite sum_total, (total_Permutation _ _ Hperm). reflexivity. }
    rewrite sum_total.
    rewrite (total_Permutation _ _ (Permutation_map _ Hperm)).
    rewrite (total_map_ext _ (fun x => (x - Spec.total (Spec.scores sig) / 14)
                                * (x - Spec.total (Spec.scores sig) / 14))).
    - reflexivity.
    - intros x. by rewrite Hmean. }
  rewrite Hcount, Hvar, !Py_min_Qmin, !Py_max_Qmax.
  assert (E : forall a b c d : Q,
             a * 0.3 + b * 0.2 + c * 0.3 + d * 0.2
             == 0.3 * a + 0.2 * b + 0.3 * c + 0.2 * d) by (intros; ring).
  rewrite E.
  apply Q.max_compat; [reflexivity |].
  apply Q.min_compat; reflexivity.
Qed.

Lemma confidence_score_formula_witness :
  Spec.is_voice_signature (list_to_map Spec.neutral_signature) /\
  _calculate_confidence_score (list_to_map Spec.neutral_signature) 500 3
  == Spec.confidence (list_to_map Spec.neutral_signature) 500 3.
Proof.
  assert (H : Spec.is_voice_signature (list_to_map Spec.neutral_signature)).
  { unfold Spec.is_voice_signature. rewrite dom_list_to_map_L. reflexivity. }
  split; [exact H | exact (confidence_score_formula _ 500 3 H)].
Defined.

(** ** The profile comparator *)

Import VoiceProfile.

Lemma compare_loop_snoc (p1 p2 : VoiceProfile) (ds : list string) (d : string) :
  compare_loop p1 p2 (ds ++ [d]) = compare_dimension p1 p2 (compare_loop p1 p2 ds) d.
Proof. unfold compare_loop. by rewrite fold_left_app. Qed.

Lemma compare_loop_similarities (p1 p2 : VoiceProfile) (ds : list string) :
  (compare_loop p1 p2 ds).2
  = List.map
      (fun d => 1.0 - Qabs (get_voice_dimension p1 d - get_voice_dimension p2 d))
      ds.
Proof.
  induction ds as [| d ds IH] using rev_ind; [reflexivity |].
  rewrite compare_loop_snoc, map_app. cbn [compare_dimension snd]. by rewrite IH.
Qed.

Lemma compare_loop_dimension_similarities
    (p1 p2 : VoiceProfile) (ds : list string) (d : string) :
  (compare_loop p1 p2 ds).1.1 !! d
  = if bool_decide (d ∈ ds)
    then Some (1.0 - Qabs (get_voice_dimension p1 d - get_voice_dimension p2 d))
    else None.
Proof.
  induction ds as [| d' ds IH] using rev_ind.
  - reflexivity.
  - rewrite compare_loop_snoc. cbn [compare_dimension fst].
    destruct (decide (d = d')) as [-> | Hne].
    + rewrite lookup_insert_eq, bool_decide_eq_true_2; [done |].
      apply elem_of_app. right. by apply list_elem_of_singleton.
    + rewrite lookup_insert_ne, IH by done.
      apply (f_equal (fun b : bool => if b then _ else _)), bool_decide_ext.
      rewrite elem_of_app, list_elem_of_singleton. tauto.
Qed.

Lemma total_bounds (xs : list Q) :
  Forall (fun x => 0 <= x <= 1) xs ->
  0 <= Spec.total xs <= inject_Z (Z.of_nat (length xs)).
Proof.
  induction 1 as [| x xs Hx _ IH]; cbn [Spec.total foldr length].
  - change (inject_Z (Z.of_nat 0)) with 0. lra.
  - rewrite Nat2Z.inj_succ, <- Z.add_1_r, inject_Z_plus.
    change (inject_Z 1) with 1. unfold Spec.total in IH. lra.
Qed.

Lemma overall_of_mean (xs : list Q) :
  xs <> [] ->
  overall_of xs == Spec.total xs / inject_Z (Z.of_nat (length xs)).
Proof.
  intros Hne. destruct xs as [| x xs]; [done |].
  unfold overall_of. rewrite sum_total. reflexivity.
Qed.

Lemma len_pos (xs : list Q) : xs <> [] -> 0 < inject_Z (Z.of_nat (length xs)).
Proof.
  intros Hne. destruct xs as [| x xs]; [done |].
  change 0 with (inject_Z 0). rewrite <- Zlt_Qlt. cbn [length]. lia.
Qed.

Lemma overall_of_bounds (xs : list Q) :
  Forall (fun x => 0 <= x <= 1) xs -> 0 <= overall_of xs <= 1.
Proof.
  intros H. destruct (decide (xs = [])) as [-> | Hne].
  - cbn. lra.
  - rewrite (overall_of_mean _ Hne).
    pose proof (len_pos _ Hne) as Hn. pose proof (total_bounds _ H) as [H0 H1].
    split.
    + apply Qle_shift_div_l; [done | lra].
    + apply Qle_shift_div_r; [done | lra].
Qed.

Lemma total_Forall2 (xs ys : list Q) :
  Forall2 Qeq xs ys -> Spec.total xs == Spec.total ys.
Proof.
  induction 1 as [| x y l l' Hxy _ IH]; cbn [Spec.total foldr] in *;
    [reflexivity | by rewrite Hxy, IH].
Qed.

Lemma overall_of_Forall2 (xs ys : list Q) :
  Forall2 Qeq xs ys -> overall_of xs == Spec.mean ys.
Proof.
  intros H. pose proof (total_Forall2 _ _ H) as Ht.
  pose proof (Forall2_length _ _ _ H) as Hl.
  destruct H as [| x y xs ys _ _]; [reflexivity |].
  rewrite overall_of_mean by done. unfold Spec.mean.
  by rewrite Ht, Hl.
Qed.

Lemma get_voice_dimension_score (p : VoiceProfile) (d : string) :
  get_voice_dimension p d == Spec.score (voice_signature p) d.
Proof.
  unfold get_voice_dimension, Py.get, Spec.score.
  destruct (voice_signature p !! d); reflexivity.
Qed.

Lemma score_bounds (sig : gmap string Q) (d : string) :
  Spec.is_bounded sig -> 0 <= Spec.score sig d <= 1.
Proof.
  intros H. unfold Spec.score. destruct (sig !! d) as [v |] eqn:E; cbn.
  - exact (H d v E).
  - lra.
Qed.

Lemma similarity_bounds (sigA sigB : gmap string Q) (d : string) :
  Spec.is_bounded sigA -> Spec.is_bounded sigB ->
  0 <= Spec.similarity sigA sigB d <= 1.
Proof.
  intros HA HB. unfold Spec.similarity.
  pose proof (score_bounds sigA d HA). pose proof (score_bounds sigB d HB).
  pose proof (Qabs_nonneg (Spec.score sigA d - Spec.score sigB d)).
  assert (Qabs (Spec.score sigA d - Spec.score sigB d) <= 1)
    by (apply Qabs_Qle_condition; lra).
  lra.
Qed.

Lemma code_similarity (p1 p2 : VoiceProfile) (d : string) :
  1.0 - Qabs (get_voice_dimension p1 d - get_voice_dimension p2 d)
  == Spec.similarity (voice_signature p1) (voice_signature p2) d.
Proof.
  unfold Spec.similarity. rewrite !get_voice_dimension_score. lra.
Qed.

(** C4.  For two profiles whose signatures respect the score invariant, the
    comparison succeeds; its per-dimension similarities are defined exactly
    on the union of the two key sets, each being 1 - |scoreA - scoreB| with a
    missing score read as 0; and [overall_similarity] is the arithmetic mean
    of these similarities. *)
Theorem compare_profiles_union_mean (profile1 profile2 : VoiceProfile) :
  Spec.is_bounded (voice_signature profile1) ->
  Spec.is_bounded (voice_signature profile2) ->
  exists r,
    compare_profiles profile1 profile2 = inr r /\
    dom (dimension_similarities r)
    = dom (voice_signature profile1) ∪ dom (voice_signature profile2) /\
    map_Forall
      (fun d v => v == Spec.similarity (voice_signature profile1)
                                       (voice_signature profile2) d)
      (dimension_similarities r) /\
    overall_similarity r
    == Spec.mean_similarity (voice_signature profile1) (voice_signature profile2).
Proof.
  intros HA HB. unfold compare_profiles. cbv zeta.
  set (sigA := voice_signature profile1) in *.
  set (sigB := voice_signature profile2) in *.
  fold (Spec.union_dimensions sigA sigB).
  set (ds := Spec.union_dimensions sigA sigB).
  set (st := compare_loop _ _ ds).
  assert (Hsims : Forall2 Qeq st.2 (List.map (Spec.similarity sigA sigB) ds)).
  { subst st. rewrite compare_loop_similarities.
    change (List.map ?f ?l) with (f <$> l).
    apply Forall2_fmap, Forall_Forall2_diag, Forall_forall.
    intros d _. apply code_similarity. }
  assert (Hbounds : Forall (fun x => 0 <= x <= 1) st.2).
  { subst st. rewrite compare_loop_similarities. apply Forall_forall. intros x Hx.
    change (List.map ?f ?l) with (f <$> l) in Hx.
    apply list_elem_of_fmap in Hx as (d & -> & _).
    rewrite code_similarity. by apply similarity_bounds. }
  pose proof (overall_of_bounds _ Hbounds) as [H0 H1].
  rewrite (proj2 (Qle_bool_iff 0.0 _)) by lra.
  rewrite (proj2 (Qle_bool_iff _ 1.0)) by lra.
  eexists. split; [reflexivity |]. cbn [dimension_similarities overall_similarity].
  split; [| split].
  - apply set_eq. intros d. rewrite elem_of_dom. subst st.
    rewrite compare_loop_dimension_similarities. subst ds. unfold Spec.union_dimensions.
    case_bool_decide as Hd; rewrite elem_of_elements in Hd.
    + split; [done | by eexists].
    + split; [by intros [? [=]] | done].
  - intros d v. subst st. rewrite compare_loop_dimension_similarities.
    case_bool_decide; [| done]. intros [= <-]. apply code_similarity.
  - apply overall_of_Forall2, Hsims.
Qed.

Lemma Qabs_self (x : Q) : Qabs (x - x) == 0.
Proof.
  assert (E : x - x == 0) by ring. rewrite E. reflexivity.
Qed.

Lemma total_ones (n : nat) : Spec.total (replicate n 1) == inject_Z (Z.of_nat n).
Proof.
  induction n as [| n IH]; cbn [replicate Spec.total foldr] in *; [reflexivity |].
  rewrite IH, Nat2Z.inj_succ, <- Z.add_1_r, inject_Z_plus.
  change (inject_Z 1) with 1. lra.
Qed.

Lemma mean_ones (n : nat) : n <> 0%nat -> Spec.mean (replicate n 1) == 1.
Proof.
  intros Hn. destruct n as [| n]; [done |].
  pose proof (total_ones (S n)) as Ht.
  pose proof (len_pos (replicate (S n) 1) ltac:(done)) as Hl.
  rewrite length_replicate in Hl.
  unfold Spec.mean. cbn [replicate] in *. rewrite Ht.
  change (length (1 :: replicate n 1)) with (S (length (replicate n 1))).
  rewrite length_replicate. field. lra.
Qed.

(** C5.  Comparing a signature with itself gives [overall_similarity] 1,
    for every signature with at least one dimension (so for every
    fourteen-dimension voice signature). *)
Theorem compare_profiles_self (profile1 profile2 : VoiceProfile) :
  voice_signature profile1 = voice_signature profile2 ->
  voice_signature profile1 <> ∅ ->
  exists r,
    compare_profiles profile1 profile2 = inr r /\ overall_similarity r == 1.
Proof.
  intros Hsame Hne. unfold compare_profiles. cbv zeta.
  rewrite <- Hsame, (idemp_L (∪)).
  set (ds := elements (dom (voice_signature profile1))).
  set (st := compare_loop _ _ ds).
  assert (Hds : ds <> []).
  { subst ds. intros E. apply elements_empty_inv in E.
    apply Hne, dom_empty_iff_L. by apply leibniz_equiv. }
  assert (Hsims : Forall2 Qeq st.2 (replicate (length ds) 1)).
  { subst st. rewrite compare_loop_similarities. clear Hds.
    induction ds as [| d ds IH]; cbn [List.map length replicate]; constructor.
    - unfold get_voice_dimension. rewrite Hsame.
      rewrite Qabs_self. lra.
    - exact IH. }
  assert (Hone : overall_of st.2 == 1).
  { rewrite (overall_of_Forall2 _ _ Hsims). apply mean_ones.
    by destruct ds. }
  rewrite (proj2 (Qle_bool_iff 0.0 _)) by (rewrite Hone; lra).
  rewrite (proj2 (Qle_bool_iff _ 1.0)) by (rewrite Hone; lra).
  eexists. split; [reflexivity | exact Hone].
Qed.

Lemma compare_profiles_union_mean_witness :
  let p1 := {| user_id := "u1"; voice_signature := {[ "formality_level" := 0.5 ]};
               confidence_score := 1 |} in
  let p2 := {| user_id := "u2"; voice_signature := {[ "humor_usage" := 0.25 ]};
               confidence_score := 1 |} in
  exists r,
    compare_profiles p1 p2 = inr r /\
    dom (dimension_similarities r) = dom (voice_signature p1) ∪ dom (voice_signature p2) /\
    map_Forall
      (fun d v => v == Spec.similarity (voice_signature p1) (voice_signature p2) d)
      (dimension_similarities r) /\
    overall_similarity r
    == Spec.mean_similarity (voice_signature p1) (voice_signature p2).
Proof.
  apply compare_profiles_union_mean; apply map_Forall_singleton; lra.
Defined.

Lemma compare_profiles_self_witness :
  let p := {| user_id := "u1"; voice_signature := list_to_map Spec.neutral_signature;
              confidence_score := 1 |} in
  exists r, compare_profiles p p = inr r /\ overall_similarity r == 1.
Proof.
  apply compare_profiles_self; [reflexivity |].
  intros E. apply (f_equal (fun m => m !! "humor_usage")) in E.
  vm_compute in E. discriminate.
Defined.

(** ** The template selector *)

Import TemplateManager.

Lemma max_by_score_In (first : Template * Q) (rest : list (Template * Q)) :
  In (max_by_score first rest) (first :: rest).
Proof.
  unfold max_by_score. revert first.
  induction rest as [| x rest IH]; intros first; cbn [fold_left].
  - by left.
  - destruct (Py.Qltb first.2 x.2).
    + right. apply IH.
    + destruct (IH first) as [<- | H]; [by left | by right; right].
Qed.

Lemma select_template_spec (templates : list Template)
    (voice_signature : gmap string Q) (content_type' : string) :
  templates <> [] ->
  exists t,
    select_template templates voice_signature content_type' = inr t /\
    In t templates /\
    ((exists t', In t' templates /\ content_type t' = content_type') ->
     content_type t = content_type') /\
    ((forall t', In t' templates -> content_type t' <> content_type') ->
     Some t = head templates).
Proof.
  intros Hne. unfold select_template.
  set (matches := fun t => String.eqb (content_type t) content_type').
  destruct (List.filter matches templates) as [| template others] eqn:Ef.
  - destruct templates as [| t templates]; [done |].
    exists t. split; [done |]. split; [by left |]. split; [| done].
    intros (t' & Hin & Hct).
    assert (Hin' : In t' (List.filter matches (t :: templates))).
    { apply filter_In. split; [done |]. by apply String.eqb_eq. }
    rewrite Ef in Hin'. destruct Hin'.
  - set (scored := fun t => (t, template_score voice_signature t)).
    pose proof (max_by_score_In (scored template) (List.map scored others)) as Hin.
    change (scored template :: List.map scored others)
      with (List.map scored (template :: others)) in Hin.
    apply in_map_iff in Hin as (t & Et & Hin).
    subst scored. cbv beta in Et. rewrite <- Et. cbn [fst]. rewrite <- Ef in Hin.
    apply filter_In in Hin as [Hin Hm]. apply String.eqb_eq in Hm.
    exists t. split; [done |]. split; [done |]. split; [done |].
    intros Hnone. by destruct (Hnone t Hin).
Qed.

(** C6.  Template selection always returns one of the available templates.
    When some available template has the requested content type, the
    returned template has that content type; when none has, the first
    available template is returned. *)
Theorem get_template_matches_content_type
    (voice_signature : gmap string Q) (content_type' : string) :
  exists t,
    get_template_for_voice_profile voice_signature content_type' = inr t /\
    In t _get_default_templates /\
    ((exists t', In t' _get_default_templates /\ content_type t' = content_type') ->
     content_type t = content_type') /\
    ((forall t', In t' _get_default_templates -> content_type t' <> content_type') ->
     Some t = head _get_default_templates).
Proof. by apply select_template_spec. Qed.

Example select_post_storyteller :
  exists t,
    get_template_for_voice_profile
      {[ "storytelling_style" := 0.8; "authority_tone" := 0.2;
         "personal_experience_sharing" := 0.7 ]} "post" = inr t /\
    id t = "personal_story".
Proof. eexists. split; [vm_compute; reflexivity | reflexivity]. Qed.

Example select_story_fallback :
  exists t,
    get_template_for_voice_profile ∅ "story" = inr t /\
    id t = "professional_insight" /\ content_type t = "post".
Proof. eexists. split; [vm_compute; reflexivity | split; reflexivity]. Qed.

(** ** Hashtag optimization *)

Import ContentGenerator.

Lemma findall_from_separator (run : option string) (s t : string) (c : ascii) :
  Spec.is_separator c ->
  findall_from run (s ++ String c t)
  = (findall_from run s ++ findall_from None t)%list.
Proof.
  intros [Hw Hh]. revert run.
  induction s as [| x s IH]; intros run;
    rewrite ?string_app_nil_l, ?string_app_cons; cbn [findall_from].
  - by rewrite Hw, Hh.
  - destruct (is_word x); [apply IH |].
    by rewrite IH, (assoc_L (++)%list).
Qed.

Lemma findall_from_word (acc w : string) :
  Spec.all_word w = true -> findall_from (Some acc) w = flush (Some (acc ++ w)).
Proof.
  revert acc. induction w as [| c w IH]; intros acc Hw; cbn [findall_from].
  - by rewrite string_app_nil_r.
  - cbn [Spec.all_word] in Hw. apply andb_true_iff in Hw as [Hc Hw].
    rewrite Hc. cbn [fmap option_fmap option_map]. rewrite (IH _ Hw).
    by rewrite string_app_assoc.
Qed.

Lemma findall_hashtag (h : string) :
  Spec.is_hashtag h = true -> findall_from None h = [h].
Proof.
  destruct h as [| c [| c' w]]; [done.. |]. cbn [Spec.is_hashtag].
  intros H. apply andb_true_iff in H as [Hc Hw].
  apply Ascii.eqb_eq in Hc as ->.
  change (findall_from None (String "#" (String c' w)))
    with (findall_from (Some "") (String c' w)).
  by rewrite (findall_from_word _ _ Hw).
Qed.

Lemma space_separator : Spec.is_separator " ".
Proof. by split. Qed.

Lemma newline_separator : Spec.is_separator (ascii_of_nat 10).
Proof. by split. Qed.

Lemma findall_joined (tags : list string) :
  Forall (fun h => Spec.is_hashtag h = true) tags ->
  findall_from None (String.concat " " tags) = tags.
Proof.
  induction 1 as [| h tags Hh Htags IH]; [done |].
  destruct tags as [| h' tags].
  - cbn [String.concat]. by apply findall_hashtag.
  - change (String.concat " " (h :: h' :: tags))
      with (h ++ String " " (String.concat " " (h' :: tags))).
    rewrite (findall_from_separator _ _ _ _ space_separator), IH.
    by rewrite (findall_hashtag _ Hh).
Qed.

Lemma findall_appended (content : string) (tags : list string) :
  Forall (fun h => Spec.is_hashtag h = true) tags ->
  findall_hashtags (content ++ newline ++ newline ++ String.concat " " tags)
  = (findall_hashtags content ++ tags)%list.
Proof.
  intros Htags. unfold findall_hashtags, newline.
  rewrite !string_app_cons, !string_app_nil_l.
  rewrite (findall_from_separator _ _ _ _ newline_separator).
  change (findall_from None (String (ascii_of_nat 10) ?t))
    with (findall_from None t).
  by rewrite (findall_joined _ Htags).
Qed.

(** *** The selection of new hashtags *)

Lemma mem_In (h : string) (l : list string) : Py.mem h l = true <-> In h l.
Proof.
  unfold Py.mem. rewrite existsb_exists. split.
  - intros (x & Hx & E). by apply String.eqb_eq in E as ->.
  - intros H. exists h. split; [done | apply String.eqb_refl].
Qed.

Lemma select_new_fold (existing suggested acc : list string) :
  (length existing <= 5)%nat ->
  fold_left (select_new existing) suggested acc
  = (acc ++ take (5 - length existing - length acc)
                 (List.filter (Spec.fresh existing) suggested))%list.
Proof.
  intros Hk. revert acc.
  induction suggested as [| h rest IH]; intros acc; cbn [fold_left List.filter].
  - by rewrite take_nil, (right_id_L [] (++)%list).
  - rewrite IH. unfold select_new. fold (Spec.fresh existing h).
    destruct (Spec.fresh existing h); cbn [andb]; [| done].
    destruct (Z.ltb_spec (Z.of_nat (length acc))
                (5 - Z.of_nat (length existing))) as [Hlt | Hge].
    + rewrite length_app. cbn [length].
      replace (5 - length existing - length acc)%nat
        with (S (5 - length existing - (length acc + 1)))%nat by lia.
      cbn [take]. by rewrite <- (assoc_L (++)%list).
    + replace (5 - length existing - length acc)%nat with 0%nat by lia.
      done.
Qed.

Lemma filter_split_length {A} (p : A -> bool) (l : list A) :
  length l = (length (List.filter p l)
              + length (List.filter (fun x => negb (p x)) l))%nat.
Proof.
  induction l as [| x l IH]; cbn [List.filter]; [done |].
  destruct (p x); cbn [negb length]; lia.
Qed.

Lemma fresh_count (existing suggested : list string) :
  List.NoDup suggested ->
  (length suggested
   <= length (List.filter (Spec.fresh existing) suggested) + length existing)%nat.
Proof.
  intros Hnd. rewrite (filter_split_length (Spec.fresh existing) suggested).
  apply Nat.add_le_mono_l, NoDup_incl_length.
  - by apply List.NoDup_filter.
  - intros h Hh. apply filter_In in Hh as [_ Hh].
    unfold Spec.fresh in Hh. rewrite negb_involutive in Hh. by apply mem_In.
Qed.

Lemma suggested_for_ok (industry : string) :
  List.NoDup (Spec.suggested_for industry) /\
  (3 <= length (Spec.suggested_for industry))%nat /\
  Forall (fun h => Spec.is_hashtag h = true) (Spec.suggested_for industry).
Proof.
  unfold Spec.suggested_for.
  destruct (industry_hashtags !! Py.lower industry) as [l |] eqn:E; cbn [default].
  - apply elem_of_list_to_map_2 in E.
    repeat (apply elem_of_cons in E as [E | E]);
      [.. | by apply elem_of_nil in E];
      injection E as _ ->;
      (split; [apply NoDup_ListNoDup; refine (bool_decide_unpack _ _); by vm_compute
              | split; [cbn; lia | repeat constructor]]).
  - split; [apply NoDup_ListNoDup; refine (bool_decide_unpack _ _); by vm_compute
           | split; [cbn; lia | repeat constructor]].
Qed.

Lemma optimize_hashtags_eq (content industry : string) :
  _optimize_hashtags content industry =
  let existing := findall_hashtags content in
  if (length existing <? 3)%nat then
    match take (5 - length existing) (List.filter (Spec.fresh existing) (Spec.suggested_for industry)) with
    | [] => content
    | new => content ++ newline ++ newline ++ String.concat " " new
    end
  else content.
Proof.
  unfold _optimize_hashtags. cbv zeta.
  destruct (Nat.ltb_spec (length (findall_hashtags content)) 3) as [Hk | Hk]; [| done].
  fold (Spec.suggested_for industry).
  rewrite select_new_fold by lia. cbn [app length]. rewrite Nat.sub_0_r.
  by destruct (take _ _).
Qed.


(** C7, amended.  Applying the hashtag optimization a second time changes
    nothing: the content, and so its hashtags, are those of the first
    application.  One application appends distinct hashtags that were not
    present, leaves at least 3 hashtags, and at most 5 unless the content
    already had more, in which case it is unchanged. *)
Theorem optimize_hashtags_idempotent (content industry : string) :
  let once := _optimize_hashtags content industry in
  let before := findall_hashtags content in
  _optimize_hashtags once industry = once /\
  (exists added,
     findall_hashtags once = (before ++ added)%list /\
     List.NoDup added /\ Forall (fun h => ~ In h before) added) /\
  (3 <= length (findall_hashtags once))%nat /\
  (length (findall_hashtags once) <= Nat.max 5 (length before))%nat.
Proof.
  intros once before.
  assert (Hshape :
    exists added,
      findall_hashtags once = (before ++ added)%list /\
      List.NoDup added /\ Forall (fun h => ~ In h before) added /\
      (3 <= length (before ++ added)%list)%nat /\
      (length (before ++ added)%list <= Nat.max 5 (length before))%nat).
  { subst once. rewrite optimize_hashtags_eq. cbv zeta. fold before.
    destruct (Nat.ltb_spec (length before) 3) as [Hk | Hk].
    - destruct (suggested_for_ok industry) as (Hnd & Hlen & Htags).
      pose proof (fresh_count before _ Hnd) as Hcount.
      set (candidates := List.filter (Spec.fresh before) (Spec.suggested_for industry)) in *.
      set (new := take (5 - length before) candidates).
      assert (Hsub : forall h, In h new -> In h candidates).
      { intros h Hh. apply list_elem_of_In.
        apply (subseteq_take (5 - length before) candidates).
        by apply list_elem_of_In. }
      assert (Hnew : Forall (fun h => Spec.is_hashtag h = true) new).
      { apply Forall_forall. intros h Hh%list_elem_of_In%Hsub.
        apply filter_In in Hh as [Hh _].
        rewrite Forall_forall in Htags. by apply Htags, list_elem_of_In. }
      exists new. split; [| split; [| split; [| split]]].
      + destruct new as [| h new'] eqn:Enew.
        * by rewrite (right_id_L [] (++)%list).
        * by rewrite findall_appended.
      + apply NoDup_ListNoDup.
        apply (sublist_NoDup new candidates); [| apply sublist_take].
        by apply NoDup_ListNoDup, List.NoDup_filter.
      + apply Forall_forall. intros h Hh%list_elem_of_In%Hsub.
        apply filter_In in Hh as [_ Hh]. unfold Spec.fresh in Hh.
        apply negb_true_iff in Hh. intros Hin%mem_In. congruence.
      + rewrite length_app. subst new. rewrite length_take. lia.
      + rewrite length_app. subst new. rewrite length_take. lia.
    - exists []. rewrite (right_id_L [] (++)%list).
      split; [done |]. split; [constructor |]. split; [constructor |]. lia. }
  destruct Hshape as (added & Hfind & Hnd & Hfresh & Hmin & Hmax).
  split; [| split; [by exists added | rewrite Hfind; split; done]].
  rewrite (optimize_hashtags_eq once). cbv zeta. rewrite Hfind.
  by destruct (Nat.ltb_spec (length (before ++ added)%list) 3) as [Hk | Hk]; [lia |].
Qed.

(** C7, as stated, fails in its bound: content that already carries six
    hashtags is left alone, so one application does not always result in
    between 3 and 5 hashtags. *)
Lemma six_hashtags_exceed_cap :
  ~ (3 <= length (findall_hashtags
                    (_optimize_hashtags "#a #b #c #d #e #f" "technology")) <= 5)%nat.
Proof.
  assert (E : length (findall_hashtags
                        (_optimize_hashtags "#a #b #c #d #e #f" "technology"))
              = 6%nat) by (vm_compute; reflexivity).
  rewrite E. lia.
Qed.

Example findall_hashtags_scan :
  findall_hashtags "a #b1_c, ##d # C#sharp #" = ["#b1_c"; "#d"; "#sharp"].
Proof. vm_compute. reflexivity. Qed.

Example optimize_hashtags_technology :
  findall_hashtags (_optimize_hashtags "Hello #a world" "Technology")
  = ["#a"; "#TechLeadership"; "#Innovation"; "#DigitalTransformation"; "#TechTrends"].
Proof. vm_compute. reflexivity. Qed.

(** ** Industry adjustments *)

Lemma adjust_lookup (sig : gmap string Q) (k : string) (m : Q) (d : string) :
  adjust sig (k, m) !! d
  = if decide (d = k) then Spec.adjusted_value m <$> sig !! d else sig !! d.
Proof.
  unfold adjust. cbn [fst snd].
  destruct (decide (d = k)) as [-> | Hne].
  - destruct (sig !! k) as [v |] eqn:E; [by rewrite lookup_insert_eq | by rewrite E].
  - destruct (sig !! k); [by rewrite lookup_insert_ne |done].
Qed.

Lemma fold_adjust_lookup (adjustments : list (string * Q)) (sig : gmap string Q)
    (d : string) :
  NoDup adjustments.*1 ->
  fold_left adjust adjustments sig !! d
  = match (list_to_map adjustments : gmap string Q) !! d with
    | Some m => Spec.adjusted_value m <$> sig !! d
    | None => sig !! d
    end.
Proof.
  revert sig. induction adjustments as [| [k m] rest IH]; intros sig Hnd.
  - reflexivity.
  - cbn [fmap list_fmap fst] in Hnd. apply NoDup_cons in Hnd as [Hk Hnd].
    cbn [fold_left list_to_map foldr uncurry]. rewrite (IH _ Hnd).
    rewrite !adjust_lookup. cbn [curry fst snd uncurry].
    destruct (decide (d = k)) as [-> | Hne].
    + rewrite lookup_insert_eq.
      by rewrite (not_elem_of_list_to_map_1 _ _ Hk).
    + by rewrite lookup_insert_ne.
Qed.

Lemma fold_adjust_dom (adjustments : list (string * Q)) (sig : gmap string Q) :
  dom (fold_left adjust adjustments sig) = dom sig.
Proof.
  revert sig. induction adjustments as [| [k m] rest IH]; intros sig;
    cbn [fold_left]; [done |].
  rewrite IH. apply set_eq. intros d. rewrite !elem_of_dom, adjust_lookup.
  case_decide; [by rewrite fmap_is_Some | done].
Qed.

Lemma adjusted_value_bounds (m v : Q) : 0 <= Spec.adjusted_value m v <= 1.
Proof. apply clamp01_bounds. Qed.

Lemma fold_adjust_bounded (adjustments : list (string * Q)) (sig : gmap string Q) :
  Spec.is_bounded sig -> Spec.is_bounded (fold_left adjust adjustments sig).
Proof.
  revert sig. induction adjustments as [| [k m] rest IH]; intros sig Hsig;
    cbn [fold_left]; [done |].
  apply IH. intros d v. rewrite adjust_lookup.
  case_decide; [| apply Hsig].
  destruct (sig !! d); intros [= <-]. apply adjusted_value_bounds.
Qed.

Lemma industry_adjustments_NoDup (industry : string) (adjustments : list (string * Q)) :
  Config.INDUSTRY_VOICE_ADJUSTMENTS !! industry = Some adjustments ->
  NoDup adjustments.*1.
Proof.
  intros E. apply elem_of_list_to_map_2 in E.
  repeat (apply elem_of_cons in E as [E | E]);
    [.. | by apply elem_of_nil in E];
    injection E as _ ->; refine (bool_decide_unpack _ _); by vm_compute.
Qed.

(** C10.  [apply_industry_adjustments] keeps the keys of the signature.  For
    an industry outside the table the signature is returned as it is;
    otherwise a dimension listed for the industry has its score multiplied by
    the factor and clamped to [0,1], and every other dimension keeps its
    score.  A signature with all scores in [0,1] stays so. *)
Theorem apply_industry_adjustments_spec (sig : gmap string Q) (industry : string) :
  let adjusted := apply_industry_adjustments sig industry in
  dom adjusted = dom sig /\
  match Config.INDUSTRY_VOICE_ADJUSTMENTS !! industry with
  | None => adjusted = sig
  | Some adjustments =>
      forall d,
        adjusted !! d
        = match (list_to_map adjustments : gmap string Q) !! d with
          | Some multiplier =>
              (fun v => VoiceAnalyzer.clamp01 (v * multiplier)) <$> sig !! d
          | None => sig !! d
          end
  end /\
  (Spec.is_bounded sig -> Spec.is_bounded adjusted).
Proof.
  intros adjusted. subst adjusted. unfold apply_industry_adjustments.
  destruct (Config.INDUSTRY_VOICE_ADJUSTMENTS !! industry) as [adjustments |] eqn:E.
  - split; [apply fold_adjust_dom | split; [| apply fold_adjust_bounded]].
    intros d. apply fold_adjust_lookup. by eapply industry_adjustments_NoDup.
  - done.
Qed.

Example finance_formality :
  apply_industry_adjustments (list_to_map Spec.neutral_signature) "finance"
    !! "formality_level" = Some 0.65.
Proof. vm_compute. reflexivity. Qed.

Example finance_clamped :
  apply_industry_adjustments {[ "formality_level" := 0.9 ]} "finance"
    !! "formality_level" = Some 1.0.
Proof. vm_compute. reflexivity. Qed.

(** ** The AI-assisted estimator *)

Lemma find_from_first (c : ascii) (pre rest : string) (i : Z) :
  Spec.occurs c pre = false ->
  Py.find_from c (pre ++ String c rest) i = (i + Z.of_nat (String.length pre))%Z.
Proof.
  revert i. induction pre as [| a pre IH]; intros i Hpre.
  - rewrite string_app_nil_l. cbn [Py.find_from String.length].
    rewrite Ascii.eqb_refl. lia.
  - cbn [Spec.occurs] in Hpre. apply orb_false_iff in Hpre as [Ha Hpre].
    rewrite string_app_cons. cbn [Py.find_from String.length].
    rewrite Ha, (IH _ Hpre). lia.
Qed.

Lemma rfind_from_absent (c : ascii) (post : string) (i last : Z) :
  Spec.occurs c post = false -> Py.rfind_from c post i last = last.
Proof.
  revert i. induction post as [| a post IH]; intros i Hpost; [done |].
  cbn [Spec.occurs] in Hpost. apply orb_false_iff in Hpost as [Ha Hpost].
  cbn [Py.rfind_from]. by rewrite Ha, (IH _ Hpost).
Qed.

Lemma rfind_from_last (c : ascii) (s post : string) (i last : Z) :
  Spec.occurs c post = false ->
  Py.rfind_from c (s ++ String c post) i last = (i + Z.of_nat (String.length s))%Z.
Proof.
  intros Hpost. revert i last. induction s as [| a s IH]; intros i last.
  - rewrite string_app_nil_l. cbn [Py.rfind_from String.length].
    rewrite Ascii.eqb_refl, (rfind_from_absent _ _ _ _ Hpost). lia.
  - rewrite string_app_cons. cbn [Py.rfind_from String.length].
    rewrite IH. lia.
Qed.

Lemma substring_skip (pre t : string) (n : nat) :
  substring (String.length pre) n (pre ++ t) = substring 0 n t.
Proof.
  induction pre as [| a pre IH]; [done |].
  rewrite string_app_cons. cbn [String.length substring]. apply IH.
Qed.

Lemma substring_prefix (u post : string) :
  substring 0 (String.length u) (u ++ post) = u.
Proof.
  induction u as [| a u IH]; [by destruct post |].
  rewrite string_app_cons. cbn [String.length substring]. by rewrite IH.
Qed.

Lemma json_str_braces (pre mid post : string) :
  Spec.occurs "{" pre = false ->
  Spec.occurs "}" post = false ->
  json_str (pre ++ "{" ++ mid ++ "}" ++ post) = Some ("{" ++ mid ++ "}").
Proof.
  intros Hpre Hpost. unfold json_str, Py.find, Py.rfind.
  rewrite !string_app_cons, !string_app_nil_l.
  rewrite (find_from_first _ _ _ _ Hpre).
  replace (pre ++ String "{" (mid ++ String "}" post))
    with ((pre ++ String "{" mid) ++ String "}" post)
    by (by rewrite string_app_assoc, string_app_cons).
  rewrite (rfind_from_last _ _ _ _ _ Hpost), string_length_app.
  cbn [String.length].
  destruct (Z.leb_spec 0 (0 + Z.of_nat (String.length pre))) as [_ | ?]; [| lia].
  destruct (Z.ltb_spec (0 + Z.of_nat (String.length pre))
              (0 + Z.of_nat (String.length pre + S (String.length mid)) + 1))
    as [_ | ?]; [| lia].
  cbn [andb]. f_equal. unfold Py.slice.
  replace (Z.to_nat (0 + Z.of_nat (String.length pre))) with (String.length pre) by lia.
  replace (Z.to_nat _) with (String.length (String "{" (mid ++ "}")))
    by (cbn [String.length]; rewrite string_length_app; cbn [String.length]; lia).
  rewrite string_app_assoc, string_app_cons, substring_skip.
  replace (String "{" (mid ++ String "}" post))
    with (String "{" (mid ++ "}") ++ post)
    by (by rewrite string_app_cons, string_app_assoc).
  apply substring_prefix.
Qed.

Lemma json_str_no_open (response_text : string) :
  Spec.occurs "{" response_text = false -> json_str response_text = None.
Proof.
  intros H. unfold json_str, Py.find.
  assert (E : forall i, Py.find_from "{" response_text i = (-1)%Z).
  { induction response_text as [| a s IH]; intros i; [done |].
    cbn [Spec.occurs] in H. apply orb_false_iff in H as [Ha Hs].
    cbn [Py.find_from]. rewrite Ha. by apply IH. }
  by rewrite E.
Qed.



Lemma rfind_from_app_absent (c : ascii) (s t : string) (i last : Z) :
  Spec.occurs c t = false ->
  Py.rfind_from c (s ++ t) i last = Py.rfind_from c s i last.
Proof.
  intros Ht. revert i last. induction s as [| a s IH]; intros i last.
  - rewrite string_app_nil_l. by apply rfind_from_absent.
  - rewrite string_app_cons. cbn [Py.rfind_from]. apply IH.
Qed.

Lemma rfind_from_bound (c : ascii) (s : string) (i last : Z) :
  (last < i)%Z -> (Py.rfind_from c s i last < i + Z.of_nat (String.length s))%Z.
Proof.
  revert i last. induction s as [| a s IH]; intros i last Hlast;
    cbn [Py.rfind_from String.length].
  - lia.
  - specialize (IH (i + 1)%Z (if Ascii.eqb a c then i else last)).
    destruct (Ascii.eqb a c); lia.
Qed.

Lemma json_str_no_close (pre rest : string) :
  Spec.occurs "{" pre = false ->
  Spec.occurs "}" rest = false ->
  json_str (pre ++ "{" ++ rest) = None.
Proof.
  intros Hpre Hrest. unfold json_str, Py.find, Py.rfind.
  rewrite !string_app_cons, !string_app_nil_l.
  rewrite (find_from_first _ _ _ _ Hpre).
  rewrite rfind_from_app_absent by (cbn [Spec.occurs]; by rewrite Hrest).
  pose proof (rfind_from_bound "}" pre 0 (-1) ltac:(lia)) as Hb.
  destruct (Z.ltb_spec (0 + Z.of_nat (String.length pre))
              (Py.rfind_from "}" pre 0 (-1) + 1)) as [? | _]; [lia |].
  by rewrite andb_false_r.
Qed.

Lemma validate_scores_snoc (items : list (string * Py.json)) (k : string) (v : Py.json) :
  validate_scores (items ++ [(k, v)])
  = match validate_scores items with
    | Some scores =>
        if is_number v then
          match to_float v with
          | Some x => Some (<[k := clamp_float x]> scores)
          | None => None
          end
        else Some scores
    | None => None
    end.
Proof. unfold validate_scores. by rewrite fold_left_app. Qed.

Lemma clamp_float_finite (q : Q) : clamp_float (Py.Finite q) = clamp01 q.
Proof.
  unfold clamp_float, clamp01, Py.max_float, Py.min_float, Py.max, Py.min.
  cbn [Py.lt_float]. destruct (Py.Qltb q 1.0); cbn [Py.lt_float].
  - by destruct (Py.Qltb 0.0 q).
  - by destruct (Py.Qltb 0.0 1.0).
Qed.

Lemma clamp_float_bounds (x : Py.float) : 0 <= clamp_float x <= 1.
Proof.
  destruct x as [q | []]; [| vm_compute; split; discriminate..].
  rewrite clamp_float_finite. apply clamp01_bounds.
Qed.

(** A value either has no score (it is no number), or overflows, or
    converts and is kept with its clamped score. *)
Lemma kept_score_spec (v : Py.json) :
  Spec.overflows v = false ->
  match Spec.kept_score v with
  | Some score =>
      is_number v = true /\
      exists x, to_float v = Some x /\ clamp_float x = score
  | None => is_number v = false
  end.
Proof.
  destruct v as [| b | z | q | [] | | |]; cbn [Spec.overflows Spec.kept_score
    is_number to_float]; intros Hv; try done;
    try (split; [done |]; eexists; split; [reflexivity |];
         first [apply clamp_float_finite | reflexivity]).
  split; [done |]. unfold Py.float_of_int.
  rewrite Z.ltb_antisym, Hv. cbn [negb].
  eexists. split; [reflexivity | apply clamp_float_finite].
Qed.

Lemma overflows_spec (v : Py.json) :
  Spec.overflows v = true -> is_number v = true /\ to_float v = None.
Proof.
  destruct v as [| b | z | q | f | | |]; cbn [Spec.overflows]; try done.
  intros Hz. split; [done |]. cbn [to_float]. unfold Py.float_of_int.
  by rewrite Z.ltb_antisym, Hz.
Qed.

Lemma validate_scores_overflow (items : list (string * Py.json)) :
  Exists (fun item => Spec.overflows item.2 = true) items ->
  validate_scores items = None.
Proof.
  induction items as [| [k v] items IH] using rev_ind; intros H.
  - by apply Exists_nil in H.
  - rewrite validate_scores_snoc. apply Exists_app in H as [H | H].
    + by rewrite (IH H).
    + apply Exists_cons in H as [H | H]; [| by apply Exists_nil in H].
      cbn [snd] in H. destruct (overflows_spec v H) as [-> ->].
      by destruct (validate_scores items).
Qed.

Lemma validate_scores_converts (items : list (string * Py.json)) :
  Forall (fun item => Spec.overflows item.2 = false) items ->
  exists scores,
    validate_scores items = Some scores /\
    Spec.is_bounded scores /\
    (forall k, k ∉ items.*1 -> scores !! k = None) /\
    (NoDup items.*1 ->
     Forall (fun item => scores !! item.1 = Spec.kept_score item.2) items).
Proof.
  induction items as [| [k v] items IH] using rev_ind; intros Hall.
  - exists (∅ : gmap string Q). split; [done |]. split; [apply map_Forall_empty |].
    split; [done | constructor].
  - apply Forall_app in Hall as [Hitems Hv]. apply Forall_inv in Hv.
    cbn [snd] in Hv.
    destruct (IH Hitems) as (scores & E & Hb & Habsent & Hkept).
    rewrite validate_scores_snoc, E.
    pose proof (kept_score_spec v Hv) as Hscore.
    destruct (Spec.kept_score v) as [score |] eqn:Ek.
    + destruct Hscore as (-> & x & -> & Hx).
      exists (<[k := clamp_float x]> scores). split; [done |].
      split; [apply map_Forall_insert_2; [apply clamp_float_bounds | done] |].
      split.
      * intros k' Hk'. rewrite fmap_app, not_elem_of_app in Hk'.
        destruct Hk' as [Hk' Hne]. cbn in Hne.
        rewrite list_elem_of_singleton in Hne.
        rewrite lookup_insert_ne by done. by apply Habsent.
      * intros Hnd. rewrite fmap_app in Hnd.
        apply NoDup_app in Hnd as (Hnd & Hfresh & _).
        assert (Hk : k ∉ items.*1).
        { intros Hin. apply (Hfresh k Hin). cbn. by apply list_elem_of_singleton. }
        apply Forall_app. split.
        -- specialize (Hkept Hnd). rewrite Forall_forall in Hkept |- *.
           intros [k' v'] Hin. cbn [fst snd].
           assert (k <> k').
           { intros ->. apply Hk. apply list_elem_of_fmap. by exists (k', v'). }
           rewrite lookup_insert_ne by done. apply (Hkept _ Hin).
        -- constructor; [| constructor]. cbn [fst snd].
           by rewrite lookup_insert_eq, Ek, Hx.
    + rewrite Hscore. exists scores. split; [done |]. split; [done |]. split.
      * intros k' Hk'. rewrite fmap_app, not_elem_of_app in Hk'.
        destruct Hk' as [Hk' _]. by apply Habsent.
      * intros Hnd. rewrite fmap_app in Hnd.
        apply NoDup_app in Hnd as (Hnd & Hfresh & _).
        assert (Hk : k ∉ items.*1).
        { intros Hin. apply (Hfresh k Hin). cbn. by apply list_elem_of_singleton. }
        apply Forall_app. split; [by apply Hkept |].
        constructor; [| constructor]. cbn [fst snd]. rewrite Ek. by apply Habsent.
Qed.

Lemma validate_scores_bounded (items : list (string * Py.json)) :
  Spec.is_bounded (default ∅ (validate_scores items)).
Proof.
  induction items as [| [k v] items IH] using rev_ind.
  - change (Spec.is_bounded ∅). apply map_Forall_empty.
  - rewrite validate_scores_snoc.
    destruct (validate_scores items) as [scores |];
      cbn [default from_option Datatypes.id] in *; [| apply map_Forall_empty].
    destruct (is_number v); [| done].
    destruct (to_float v) as [x |];
      cbn [default from_option Datatypes.id]; [| apply map_Forall_empty].
    apply map_Forall_insert_2; [apply clamp_float_bounds | done].
Qed.

(** C9, amended.  The estimator returns scores in [0,1] only.  It returns
    the empty mapping when there is no client, when the call fails, when the
    answer has no [{] followed later by a [}], when [json.loads] fails on
    the text between the first [{] and the last [}] (that text is what is
    parsed, whatever lies between the braces), and when some value of the
    parsed object is an integer too large for [float()]: the
    [OverflowError] discards every score.  Otherwise every entry with a
    numeric value is kept, clamped to [0,1] (an out-of-range number is
    clamped, not dropped), every other entry is dropped, and no other key
    appears. *)
Theorem ai_enhanced_analysis_spec
    (openai_client : option (string -> option string))
    (json_loads : string -> option Py.json)
    (prompt_head prompt_tail text : string)
    (conversation_data : list ConversationItem) :
  let result :=
    _ai_enhanced_analysis openai_client json_loads prompt_head prompt_tail
      text conversation_data in
  let answer :=
    Spec.provider_answer openai_client
      (prompt_head ++ substring 0 2000 text ++ prompt_tail) in
  let parsed := Spec.parsed_answer json_loads answer in
  Spec.is_bounded result /\
  match parsed with
  | Some (Py.JDict ai_scores) =>
      result = default ∅ (validate_scores ai_scores) /\
      (Exists (fun item => Spec.overflows item.2 = true) ai_scores ->
       result = ∅) /\
      (Forall (fun item => Spec.overflows item.2 = false) ai_scores ->
       (forall k, k ∉ ai_scores.*1 -> result !! k = None) /\
       (NoDup ai_scores.*1 ->
        Forall (fun item => result !! item.1 = Spec.kept_score item.2)
               ai_scores))
  | _ => result = ∅
  end /\
  (forall pre mid post,
     Spec.occurs "{" pre = false ->
     Spec.occurs "}" post = false ->
     json_str (pre ++ "{" ++ mid ++ "}" ++ post) = Some ("{" ++ mid ++ "}")) /\
  (forall pre rest,
     Spec.occurs "{" pre = false ->
     Spec.occurs "}" rest = false ->
     json_str (pre ++ "{" ++ rest) = None) /\
  (forall response_text,
     Spec.occurs "{" response_text = false -> json_str response_text = None).
Proof.
  intros result answer parsed.
  assert (Hshape :
    match parsed with
    | Some (Py.JDict ai_scores) => result = default ∅ (validate_scores ai_scores)
    | _ => result = ∅
    end).
  { subst result answer parsed.
    unfold _ai_enhanced_analysis, Spec.parsed_answer, Spec.provider_answer.
    destruct openai_client as [create |]; [| done].
    destruct (create _) as [content |]; [| done].
    destruct (json_str _) as [js |]; [| done].
    by destruct (json_loads js) as [[] |]. }
  split; [| split; [| split; [apply json_str_braces |
                                split; [apply json_str_no_close
                                       | apply json_str_no_open]]]].
  - destruct parsed as [[] |]; rewrite Hshape;
      first [apply validate_scores_bounded | apply map_Forall_empty].
  - destruct parsed as [[] |]; try done.
    split; [done |]. rewrite Hshape. split.
    + intros Hover. by rewrite (validate_scores_overflow _ Hover).
    + intros Hconv.
      destruct (validate_scores_converts _ Hconv) as (scores & -> & _ & Habsent & Hkept).
      done.
Qed.

(** C9, as stated, fails: an out-of-range score is not dropped.  When the
    provider's object gives [technical_depth] the value 1.5, the estimator
    returns [technical_depth] with the value 1.0. *)
Lemma out_of_range_score_is_kept :
  _ai_enhanced_analysis
    (Some (fun _ => Some "{...}"))
    (fun _ => Some (Py.JDict [("technical_depth", Py.JFloat 1.5)]))
    "" "" "sample" [] !! "technical_depth" = Some 1.0.
Proof. vm_compute. reflexivity. Qed.

(** An integer beyond the range of a double costs every score: with
    [formality_level] 0.5 and [technical_depth] 10^400 in the provider's
    object, the estimator returns the empty mapping. *)
Example overflowing_score_discards_all :
  _ai_enhanced_analysis
    (Some (fun _ => Some "{...}"))
    (fun _ => Some (Py.JDict [("formality_level", Py.JFloat 0.5);
                              ("technical_depth", Py.JInt (10 ^ 400))]))
    "" "" "sample" [] = ∅.
Proof. vm_compute. reflexivity. Qed.

(** ** The entry point [analyze_voice] *)

(** C8 at the empty conversation.  Its combined transcript is empty, hence
    shorter than any positive threshold, yet [analyze_voice] raises
    [IndexError] from the first log call, not the insufficient-text
    exception. *)
Theorem analyze_voice_empty_conversation
    (min_transcription_length : Z)
    (linguistic : string -> gmap string Q)
    (style : string -> list ConversationItem -> gmap string Q)
    (emotional : string -> gmap string Q)
    (openai_client : option (string -> option string))
    (json_loads : string -> option Py.json)
    (prompt_head prompt_tail user_id : string) :
  _combine_transcriptions [] = "" /\
  analyze_voice min_transcription_length linguistic style emotional
    openai_client json_loads prompt_head prompt_tail [] user_id
  = ([], inl Py.IndexError).
Proof. split; reflexivity. Qed.

(** For a conversation with at least one entry the guard works as
    specified: a combined transcript below the threshold raises the
    insufficient-text exception, and neither the fusion nor the confidence
    step has been called. *)
Lemma analyze_voice_insufficient_text
    (min_transcription_length : Z)
    (linguistic : string -> gmap string Q)
    (style : string -> list ConversationItem -> gmap string Q)
    (emotional : string -> gmap string Q)
    (openai_client : option (string -> option string))
    (json_loads : string -> option Py.json)
    (prompt_head prompt_tail user_id : string)
    (conversation_data : list ConversationItem) :
  conversation_data <> [] ->
  (Z.of_nat (String.length (_combine_transcriptions conversation_data))
   < min_transcription_length)%Z ->
  let run :=
    analyze_voice min_transcription_length linguistic style emotional
      openai_client json_loads prompt_head prompt_tail conversation_data user_id in
  run.2 = inl (Py.Exception_insufficient
                 (String.length (_combine_transcriptions conversation_data))) /\
  Forall (fun e => match e with
                   | Create_voice_signature _ | Calculate_confidence_score _ => False
                   | _ => True
                   end) run.1.
Proof.
  intros Hne Hshort run. subst run. unfold analyze_voice.
  destruct conversation_data as [| first rest]; [done |].
  apply Z.ltb_lt in Hshort. rewrite Hshort. cbn [fst snd].
  split; [done | by repeat constructor].
Qed.

(** * Further properties of the sources *)

(** ** More on the confidence scorer *)

Lemma Py_min_mono_l (a a' b : Q) : a <= a' -> Py.min a b <= Py.min a' b.
Proof. intros H. rewrite !Py_min_Qmin. by apply Q.min_le_compat_r. Qed.

Lemma clamp_mono (x y : Q) :
  x <= y -> Py.max 0.0 (Py.min 1.0 x) <= Py.max 0.0 (Py.min 1.0 y).
Proof.
  intros H. rewrite !Py_max_Qmax, !Py_min_Qmin.
  by apply Q.max_le_compat_l, Q.min_le_compat_l.
Qed.

Lemma inject_Z_div_mono (a b : Z) (c : Q) :
  0 < c -> (a <= b)%Z -> inject_Z a / c <= inject_Z b / c.
Proof.
  intros Hc Hab. apply Qmult_le_compat_r; [by rewrite <- Zle_Qle |].
  apply Qlt_le_weak, Qinv_lt_0_compat, Hc.
Qed.

(** X1, [_calculate_confidence_score].  For a fixed signature the
    confidence never decreases when the transcript gets longer or the
    conversation gets more turns. *)
Theorem confidence_score_monotone
    (sig : gmap string Q) (text_length text_length' turns turns' : Z) :
  (text_length <= text_length')%Z -> (turns <= turns')%Z ->
  _calculate_confidence_score sig text_length turns
  <= _calculate_confidence_score sig text_length' turns'.
Proof.
  intros Hl Ht. unfold _calculate_confidence_score. cbv zeta.
  apply clamp_mono.
  pose proof (Py_min_mono_l _ _ 1.0 (inject_Z_div_mono _ _ 1000 ltac:(lra) Hl)).
  pose proof (Py_min_mono_l _ _ 1.0 (inject_Z_div_mono _ _ 5 ltac:(lra) Ht)).
  lra.
Qed.

Lemma confidence_score_monotone_witness :
  _calculate_confidence_score (list_to_map Spec.neutral_signature) 200 2
  <= _calculate_confidence_score (list_to_map Spec.neutral_signature) 800 4.
Proof. apply confidence_score_monotone; lia. Defined.

Lemma Py_min_saturated (x : Q) : 1 <= x -> Py.min x 1.0 == 1.0.
Proof. intros H. unfold Py.min. case_Qltb; apply Qle_antisym; lra. Qed.

(** X2, [_calculate_confidence_score].  The length and turn factors are
    capped: from 1000 characters and 5 turns on, more text or more turns no
    longer change the confidence. *)
Theorem confidence_score_saturates
    (sig : gmap string Q) (text_length turns : Z) :
  (1000 <= text_length)%Z -> (5 <= turns)%Z ->
  _calculate_confidence_score sig text_length turns
  == _calculate_confidence_score sig 1000 5.
Proof.
  intros Hl Ht. unfold _calculate_confidence_score. cbv zeta.
  assert (H1 : 1 <= inject_Z text_length / 1000).
  { apply Qle_shift_div_l; [lra |]. rewrite Zle_Qle in Hl.
    change (inject_Z 1000) with 1000 in Hl. lra. }
  assert (H2 : 1 <= inject_Z turns / 5).
  { apply Qle_shift_div_l; [lra |]. rewrite Zle_Qle in Ht.
    change (inject_Z 5) with 5 in Ht. lra. }
  rewrite (Py_min_saturated _ H1), (Py_min_saturated _ H2).
  rewrite (Py_min_saturated (inject_Z 1000 / 1000)) by (vm_compute; discriminate).
  rewrite (Py_min_saturated (inject_Z 5 / 5)) by (vm_compute; discriminate).
  reflexivity.
Qed.

Lemma confidence_score_saturates_witness :
  _calculate_confidence_score (list_to_map Spec.neutral_signature) 5000 12
  == _calculate_confidence_score (list_to_map Spec.neutral_signature) 1000 5.
Proof. apply confidence_score_saturates; lia. Defined.

Lemma confidence_score_bounds (sig : gmap string Q) (text_length turns : Z) :
  0 <= _calculate_confidence_score sig text_length turns <= 1.
Proof. unfold _calculate_confidence_score. cbv zeta. apply clamp01_bounds. Qed.

(** ** More on the fuser *)

Lemma create_voice_signature_dom (analyses : list (gmap string Q)) :
  Spec.is_voice_signature (_create_voice_signature analyses).
Proof.
  unfold Spec.is_voice_signature, _create_voice_signature, clamp_items,
    dimension_mappings.
  cbn [fold_left fst snd]. rewrite !dom_insert_L, dom_empty_L.
  cbn [Config.voice_dimensions list_to_set]. set_solver.
Qed.

Lemma create_voice_signature_size (analyses : list (gmap string Q)) :
  size (_create_voice_signature analyses) = 14%nat.
Proof. by rewrite <- size_dom, create_voice_signature_dom. Qed.

Lemma clamp_items_bounded (items : list (string * Q)) :
  Spec.is_bounded (clamp_items items).
Proof.
  unfold clamp_items. induction items as [| [d s] items IH] using rev_ind.
  - apply map_Forall_empty.
  - rewrite fold_left_app. cbn [fold_left fst snd].
    apply map_Forall_insert_2; [apply clamp01_bounds | exact IH].
Qed.

Lemma create_voice_signature_bounded (analyses : list (gmap string Q)) :
  Spec.is_bounded (_create_voice_signature analyses).
Proof. apply clamp_items_bounded. Qed.

Lemma combine_analyses_snoc (analyses : list (gmap string Q)) (a : gmap string Q) :
  combine_analyses (analyses ++ [a]) = a ∪ combine_analyses analyses.
Proof. unfold combine_analyses. by rewrite fold_left_app. Qed.

Lemma combine_analyses_last (before after : list (gmap string Q))
    (a : gmap string Q) (d : string) (v : Q) :
  a !! d = Some v ->
  Forall (fun b => b !! d = None) after ->
  combine_analyses (before ++ a :: after) !! d = Some v.
Proof.
  intros Ha. induction after as [| b after IH] using rev_ind; intros Hafter.
  - rewrite combine_analyses_snoc. by apply lookup_union_Some_l.
  - apply Forall_app in Hafter as [Hafter Hb]. apply Forall_inv in Hb.
    rewrite app_comm_cons, (assoc_L (++)%list), combine_analyses_snoc.
    rewrite (lookup_union_r _ _ _ Hb). by apply IH.
Qed.

Lemma create_voice_signature_present (analyses : list (gmap string Q))
    (d : string) (v : Q) :
  d ∈ Config.voice_dimensions ->
  combine_analyses analyses !! d = Some v ->
  _create_voice_signature analyses !! d = Some (clamp01 v).
Proof.
  intros Hd Hv. unfold Config.voice_dimensions in Hd.
  repeat (apply elem_of_cons in Hd as [-> | Hd]);
    [.. | by apply elem_of_nil in Hd]; fuser_lookup.
Qed.

(** X3, [_create_voice_signature].  The analyses are merged in argument
    order, so for a canonical dimension the last analysis that scores it
    decides: its value, clamped, is the fused score whatever the earlier
    analyses say. *)
Theorem create_voice_signature_last_wins
    (before after : list (gmap string Q)) (a : gmap string Q)
    (d : string) (v : Q) :
  d ∈ Config.voice_dimensions ->
  a !! d = Some v ->
  Forall (fun b => b !! d = None) after ->
  _create_voice_signature (before ++ a :: after) !! d = Some (clamp01 v).
Proof.
  intros Hd Ha Hafter. apply create_voice_signature_present; [done |].
  by apply combine_analyses_last.
Qed.

Lemma create_voice_signature_last_wins_witness :
  _create_voice_signature
    ([{[ "humor_usage" := 0.2 ]}] ++ {[ "humor_usage" := 0.7 ]} :: [∅])
    !! "humor_usage" = Some (clamp01 0.7).
Proof.
  apply create_voice_signature_last_wins.
  - unfold Config.voice_dimensions. set_solver.
  - reflexivity.
  - by repeat constructor.
Defined.

(** ** More on the entry point *)

Lemma lstrip_all_space (s : string) : Spec.all_space s = true -> Py.lstrip s = "".
Proof.
  induction s as [| c s IH]; [done |]. cbn [Spec.all_space Py.lstrip].
  intros [Hc Hs]%andb_true_iff. rewrite Hc. by apply IH.
Qed.

Lemma strip_all_space (s : string) : Spec.all_space s = true -> Py.strip s = "".
Proof. intros H. unfold Py.strip. by rewrite (lstrip_all_space _ H). Qed.

Lemma combine_transcriptions_blank (conversation_data : list ConversationItem) :
  Forall Spec.is_blank conversation_data ->
  _combine_transcriptions conversation_data = "".
Proof.
  intros H. unfold _combine_transcriptions.
  assert (E : forall acc,
    fold_left
      (fun combined item =>
         let transcription := Py.strip (default "" (transcription item)) in
         if String.eqb transcription "" then combined
         else (combined ++ [transcription])%list)
      conversation_data acc = acc).
  { induction H as [| item l Hitem _ IH]; intros acc; cbn [fold_left]; [done |].
    cbv zeta. rewrite (strip_all_space _ Hitem). cbn [String.eqb]. apply IH. }
  by rewrite E.
Qed.

(** X4, [analyze_voice] with [_combine_transcriptions].  A conversation
    that has entries but whose transcriptions are all missing or blank
    combines to the empty text, so with a positive threshold the analysis
    stops with the insufficient-text error reporting length 0, after the
    start entry and the error entry of the log only. *)
Theorem analyze_voice_blank_conversation
    (min_transcription_length : Z)
    (linguistic : string -> gmap string Q)
    (style : string -> list ConversationItem -> gmap string Q)
    (emotional : string -> gmap string Q)
    (openai_client : option (string -> option string))
    (json_loads : string -> option Py.json)
    (prompt_head prompt_tail user_id : string)
    (conversation_data : list ConversationItem) :
  conversation_data <> [] ->
  Forall Spec.is_blank conversation_data ->
  (0 < min_transcription_length)%Z ->
  exists started,
    analyze_voice min_transcription_length linguistic style emotional
      openai_client json_loads prompt_head prompt_tail conversation_data user_id
    = ([started; Log_operation_error (Py.Exception_insufficient 0)],
       inl (Py.Exception_insufficient 0)).
Proof.
  intros Hne Hblank Hmin. unfold analyze_voice.
  destruct conversation_data as [| first rest]; [done |].
  rewrite (combine_transcriptions_blank _ Hblank).
  change (Z.of_nat (String.length "")) with 0%Z.
  apply Z.ltb_lt in Hmin. rewrite Hmin. by eexists.
Qed.

Lemma analyze_voice_blank_conversation_witness :
  exists started,
    analyze_voice 50 (fun _ => ∅) (fun _ _ => ∅) (fun _ => ∅) None (fun _ => None)
      "" "" [ {| question_id := "q1"; transcription := Some "   "; metadata := None |};
              {| question_id := "q2"; transcription := None; metadata := None |} ]
      "user"
    = ([started; Log_operation_error (Py.Exception_insufficient 0)],
       inl (Py.Exception_insufficient 0)).
Proof.
  apply analyze_voice_blank_conversation.
  - discriminate.
  - repeat constructor.
  - lia.
Defined.

Lemma analyze_voice_result
    (min_transcription_length : Z)
    (linguistic : string -> gmap string Q)
    (style : string -> list ConversationItem -> gmap string Q)
    (emotional : string -> gmap string Q)
    (openai_client : option (string -> option string))
    (json_loads : string -> option Py.json)
    (prompt_head prompt_tail user_id : string)
    (conversation_data : list ConversationItem) :
  conversation_data <> [] ->
  (min_transcription_length
   <= Z.of_nat (String.length (_combine_transcriptions conversation_data)))%Z ->
  exists analyses,
    (analyze_voice min_transcription_length linguistic style emotional
       openai_client json_loads prompt_head prompt_tail conversation_data user_id).2
    = inr {| VoiceAnalyzer.voice_signature := _create_voice_signature analyses;
             VoiceAnalyzer.confidence_score :=
               _calculate_confidence_score (_create_voice_signature analyses)
                 (Z.of_nat (String.length (_combine_transcriptions conversation_data)))
                 (Z.of_nat (length conversation_data));
             processing_details :=
               {| text_length :=
                    String.length (_combine_transcriptions conversation_data);
                  conversation_turns := length conversation_data;
                  analysis_dimensions := 14 |} |}.
Proof.
  intros Hne Hlen. unfold analyze_voice.
  destruct conversation_data as [| first rest]; [done |].
  apply Z.ltb_ge in Hlen. rewrite Hlen. cbn [snd].
  eexists. by rewrite create_voice_signature_size.
Qed.

(** X5, [analyze_voice].  On a conversation with at least one entry whose
    combined transcript reaches the threshold, the analysis returns, and
    what it returns is well formed whatever the four analyzers produced: a
    signature of exactly the 14 canonical dimensions with every score in
    [0, 1], a confidence in [0, 1], and the processing details of this
    input with 14 dimensions. *)
Theorem analyze_voice_success
    (min_transcription_length : Z)
    (linguistic : string -> gmap string Q)
    (style : string -> list ConversationItem -> gmap string Q)
    (emotional : string -> gmap string Q)
    (openai_client : option (string -> option string))
    (json_loads : string -> option Py.json)
    (prompt_head prompt_tail user_id : string)
    (conversation_data : list ConversationItem) :
  conversation_data <> [] ->
  (min_transcription_length
   <= Z.of_nat (String.length (_combine_transcriptions conversation_data)))%Z ->
  exists r,
    (analyze_voice min_transcription_length linguistic style emotional
       openai_client json_loads prompt_head prompt_tail conversation_data user_id).2
    = inr r /\
    Spec.is_voice_signature (VoiceAnalyzer.voice_signature r) /\
    Spec.is_bounded (VoiceAnalyzer.voice_signature r) /\
    0 <= VoiceAnalyzer.confidence_score r <= 1 /\
    processing_details r
    = {| text_length := String.length (_combine_transcriptions conversation_data);
         conversation_turns := length conversation_data;
         analysis_dimensions := 14 |}.
Proof.
  intros Hne Hlen.
  destruct (analyze_voice_result min_transcription_length linguistic style
              emotional openai_client json_loads prompt_head prompt_tail user_id
              conversation_data Hne Hlen) as (analyses & E).
  eexists. split; [exact E |].
  cbn [VoiceAnalyzer.voice_signature VoiceAnalyzer.confidence_score processing_details].
  split; [apply create_voice_signature_dom |].
  split; [apply create_voice_signature_bounded |].
  split; [apply confidence_score_bounds | done].
Qed.

Lemma analyze_voice_success_witness :
  exists r,
    (analyze_voice 5 (fun _ => ∅) (fun _ _ => ∅) (fun _ => ∅) None (fun _ => None)
       "" "" [ {| question_id := "q1"; transcription := Some " I lead teams. ";
                  metadata := None |} ] "user").2
    = inr r /\
    Spec.is_voice_signature (VoiceAnalyzer.voice_signature r) /\
    Spec.is_bounded (VoiceAnalyzer.voice_signature r) /\
    0 <= VoiceAnalyzer.confidence_score r <= 1 /\
    processing_details r
    = {| text_length := 13; conversation_turns := 1; analysis_dimensions := 14 |}.
Proof.
  apply (analyze_voice_success 5 (fun _ => ∅) (fun _ _ => ∅) (fun _ => ∅) None
           (fun _ => None) "" "" "user"
           [ {| question_id := "q1"; transcription := Some " I lead teams. ";
                metadata := None |} ]).
  - discriminate.
  - vm_compute. discriminate.
Defined.

(** ** More on the industry adjustments *)

Lemma apply_industry_adjustments_dom (sig : gmap string Q) (industry : string) :
  dom (apply_industry_adjustments sig industry) = dom sig.
Proof.
  unfold apply_industry_adjustments.
  destruct (Config.INDUSTRY_VOICE_ADJUSTMENTS !! industry); [| done].
  apply fold_adjust_dom.
Qed.

Lemma apply_industry_adjustments_bounded (sig : gmap string Q) (industry : string) :
  Spec.is_bounded sig -> Spec.is_bounded (apply_industry_adjustments sig industry).
Proof.
  unfold apply_industry_adjustments.
  destruct (Config.INDUSTRY_VOICE_ADJUSTMENTS !! industry); [| done].
  apply fold_adjust_bounded.
Qed.

(** X6, [apply_industry_adjustments] after [_create_voice_signature].
    Adjusting a fused signature for any industry, known or not, gives a
    voice signature again: exactly the 14 canonical dimensions, every score
    in [0, 1]. *)
Theorem adjusted_signature_is_voice_signature
    (analyses : list (gmap string Q)) (industry : string) :
  Spec.is_voice_signature
    (apply_industry_adjustments (_create_voice_signature analyses) industry) /\
  Spec.is_bounded
    (apply_industry_adjustments (_create_voice_signature analyses) industry).
Proof.
  split.
  - unfold Spec.is_voice_signature. rewrite apply_industry_adjustments_dom.
    apply create_voice_signature_dom.
  - apply apply_industry_adjustments_bounded, create_voice_signature_bounded.
Qed.

Lemma adjusted_value_ge (m v : Q) :
  1 <= m -> 0 <= v <= 1 -> v <= Spec.adjusted_value m v.
Proof.
  intros Hm [H0 H1]. unfold Spec.adjusted_value, Py.max, Py.min.
  assert (Hp : 0 <= v * (m - 1)) by (apply Qmult_le_0_compat; lra).
  assert (v <= v * m) by lra.
  destruct (Py.Qltb (v * m) 1.0) eqn:E1;
    [apply Qltb_lt in E1 | apply Qltb_ge in E1]; case_Qltb; lra.
Qed.

Lemma industry_multipliers (industry : string) (adjustments : list (string * Q)) :
  Config.INDUSTRY_VOICE_ADJUSTMENTS !! industry = Some adjustments ->
  industry <> "technology" ->
  Forall (fun item => 1 <= item.2) adjustments.
Proof.
  intros E Hne. apply elem_of_list_to_map_2 in E.
  repeat (apply elem_of_cons in E as [E | E]);
    [.. | by apply elem_of_nil in E];
    injection E as E ->; [done | ..];
    repeat (constructor; [cbn [snd]; lra |]); constructor.
Qed.

Lemma fold_adjust_ge (adjustments : list (string * Q)) (sig : gmap string Q)
    (d : string) (v : Q) :
  Forall (fun item => 1 <= item.2) adjustments ->
  Spec.is_bounded sig ->
  sig !! d = Some v ->
  exists v', fold_left adjust adjustments sig !! d = Some v' /\ v <= v'.
Proof.
  intros Hm. revert sig v.
  induction Hm as [| [k m] rest Hk _ IH]; intros sig v Hsig Hv; cbn [fold_left].
  - exists v. split; [done | lra].
  - cbn [snd] in Hk.
    assert (Hsig' : Spec.is_bounded (adjust sig (k, m))).
    { apply (fold_adjust_bounded [(k, m)]), Hsig. }
    destruct (decide (d = k)) as [-> | Hne].
    + destruct (IH (adjust sig (k, m)) (Spec.adjusted_value m v) Hsig')
        as (v' & Hv' & Hle).
      { rewrite adjust_lookup, decide_True, Hv by done. done. }
      exists v'. split; [done |].
      pose proof (adjusted_value_ge m v Hk (Hsig _ _ Hv)). lra.
    + apply (IH _ _ Hsig'). by rewrite adjust_lookup, decide_False.
Qed.

(** X7, [apply_industry_adjustments] with [INDUSTRY_VOICE_ADJUSTMENTS].
    Technology is the only industry with a multiplier below 1
    (formality_level, 0.9): for every other industry, known or not, no
    score of a signature with scores in [0, 1] is lowered. *)
Theorem industry_adjustments_never_lower
    (sig : gmap string Q) (industry d : string) (v : Q) :
  Spec.is_bounded sig ->
  industry <> "technology" ->
  sig !! d = Some v ->
  exists v', apply_industry_adjustments sig industry !! d = Some v' /\ v <= v'.
Proof.
  intros Hsig Hne Hv. unfold apply_industry_adjustments.
  destruct (Config.INDUSTRY_VOICE_ADJUSTMENTS !! industry) as [adjustments |] eqn:E.
  - apply fold_adjust_ge; [by eapply industry_multipliers | done..].
  - exists v. split; [done | lra].
Qed.

Lemma industry_adjustments_never_lower_witness :
  exists v',
    apply_industry_adjustments {[ "empathy_level" := 0.5 ]} "healthcare"
      !! "empathy_level" = Some v' /\ 0.5 <= v'.
Proof.
  apply industry_adjustments_never_lower.
  - apply map_Forall_singleton. lra.
  - discriminate.
  - reflexivity.
Defined.

(** ** The pattern-based analyzers *)

Lemma count_nonneg (n : nat) : 0 <= inject_Z (Z.of_nat n).
Proof. change 0 with (inject_Z 0). rewrite <- Zle_Qle. lia. Qed.

Lemma count_pos (n : nat) : (0 < n)%nat -> 0 < inject_Z (Z.of_nat n).
Proof. intros H. change 0 with (inject_Z 0). rewrite <- Zlt_Qlt. lia. Qed.

Lemma ratio_nonneg (x y : nat) : 0 <= ratio x y.
Proof.
  unfold ratio. destruct (Nat.ltb_spec 0 y) as [Hy | _]; [| lra].
  apply Qle_shift_div_l; [by apply count_pos |].
  pose proof (count_nonneg x). lra.
Qed.

Lemma capped_bounds (x k : Q) : 0 <= x -> 0 <= k -> 0 <= Py.min (x * k) 1.0 <= 1.
Proof.
  intros Hx Hk. pose proof (Qmult_le_0_compat _ _ Hx Hk).
  unfold Py.min. case_Qltb; lra.
Qed.

Lemma dom_canonical (items : list (string * Q)) :
  Forall (fun d => d ∈ Config.voice_dimensions) items.*1 ->
  dom (list_to_map items : gmap string Q) ⊆ list_to_set Config.voice_dimensions.
Proof.
  intros H. rewrite dom_list_to_map_L. intros d Hd%elem_of_list_to_set.
  apply elem_of_list_to_set. rewrite Forall_forall in H. by apply H.
Qed.

Lemma ratio_no_words (x : nat) : ratio x 0 = 0.
Proof. reflexivity. Qed.

Lemma ratio_none (y : nat) : ratio 0 y == 0.
Proof.
  unfold ratio. destruct (0 <? y)%nat; [| reflexivity].
  unfold Qdiv. change (inject_Z (Z.of_nat 0)) with 0. ring.
Qed.

Lemma capped_zero (x k : Q) : x == 0 -> Py.min (x * k) 1.0 == 0.
Proof.
  intros Hx. assert (E : x * k == 0) by (rewrite Hx; ring).
  unfold Py.min. case_Qltb; lra.
Qed.

(** X8, [_analyze_communication_style].  Whatever the counts taken from the
    text, the analyzer scores exactly its seven dimensions, all canonical,
    and every score it gives lies in [0, 1].  With no words at all the six
    scores taken relative to the number of words are 0, and with no question
    mark [question_asking_tendency] is 0. *)
Theorem communication_style_scores (c : StyleCounts) :
  let scores := communication_style_of_counts c in
  dom scores
  = list_to_set
      ["question_asking_tendency"; "personal_experience_sharing";
       "storytelling_style"; "authority_tone"; "empathy_level"; "humor_usage";
       "call_to_action_style"] /\
  dom scores ⊆ list_to_set Config.voice_dimensions /\
  Spec.is_bounded scores /\
  (word_count c = 0%nat ->
   Forall (fun d => exists v, scores !! d = Some v /\ v == 0)
     ["personal_experience_sharing"; "storytelling_style"; "authority_tone";
      "empathy_level"; "humor_usage"; "call_to_action_style"]) /\
  (question_count c = 0%nat ->
   exists v, scores !! "question_asking_tendency" = Some v /\ v == 0).
Proof.
  cbv zeta. split; [| split; [| split; [| split]]].
  - unfold communication_style_of_counts. cbv zeta.
    by rewrite dom_list_to_map_L.
  - unfold communication_style_of_counts. cbv zeta. apply dom_canonical.
    cbn [fmap list_fmap fst]. refine (bool_decide_unpack _ _). by vm_compute.
  - unfold communication_style_of_counts, Spec.is_bounded. cbv zeta.
    cbn [list_to_map foldr uncurry fst snd].
    repeat (apply map_Forall_insert_2;
            [apply capped_bounds; [apply ratio_nonneg | lra] |]).
    apply map_Forall_empty.
  - intros Hwords. unfold communication_style_of_counts. cbv zeta.
    rewrite Hwords, !ratio_no_words.
    repeat (constructor;
            [eexists; split; [reflexivity | by apply capped_zero] |]).
    constructor.
  - intros Hquestions. unfold communication_style_of_counts. cbv zeta.
    rewrite Hquestions. eexists. split; [reflexivity |].
    apply capped_zero, ratio_none.
Qed.

(** X9, [_analyze_emotional_patterns].  The emotional analyzer scores
    exactly [emotional_expressiveness] and [vulnerability_comfort], both
    canonical, and both scores lie in [0, 1] for all counts; for a text
    without words both are 0. *)
Theorem emotional_patterns_scores (positive negative vulnerability total_words : nat) :
  let scores :=
    emotional_patterns_of_counts positive negative vulnerability total_words in
  dom scores = list_to_set ["emotional_expressiveness"; "vulnerability_comfort"] /\
  dom scores ⊆ list_to_set Config.voice_dimensions /\
  Spec.is_bounded scores /\
  emotional_patterns_of_counts positive negative vulnerability 0
  = list_to_map [("emotional_expressiveness", 0); ("vulnerability_comfort", 0)].
Proof.
  cbv zeta. split; [| split; [| split]].
  - unfold emotional_patterns_of_counts. cbv zeta.
    by rewrite dom_list_to_map_L.
  - unfold emotional_patterns_of_counts. cbv zeta. apply dom_canonical.
    cbn [fmap list_fmap fst]. refine (bool_decide_unpack _ _). by vm_compute.
  - unfold emotional_patterns_of_counts, Spec.is_bounded. cbv zeta.
    cbn [list_to_map foldr uncurry fst snd].
    repeat (apply map_Forall_insert_2;
      [destruct (Nat.ltb_spec 0 total_words) as [Hw | _]; [| lra];
       apply capped_bounds; [| lra];
       apply Qle_shift_div_l; [by apply count_pos |];
       match goal with |- _ <= inject_Z (Z.of_nat ?n) =>
         pose proof (count_nonneg n) end; lra |]).
    apply map_Forall_empty.
  - reflexivity.
Qed.

(** ** More on voice profiles *)

(** X10, [VoiceProfile.from_analysis_result] after [analyze_voice].  The
    profile constructor validates the user id as a UUID and the confidence
    against [0, 1].  On the result of a successful analysis the confidence
    never fails the validation: the profile is built exactly when the user
    id is accepted, and then carries the analysed signature of the 14
    canonical dimensions; otherwise the constructor raises
    [ValidationError]. *)
Theorem profile_from_analysis
    (is_uuid : string -> bool)
    (min_transcription_length : Z)
    (linguistic : string -> gmap string Q)
    (style : string -> list ConversationItem -> gmap string Q)
    (emotional : string -> gmap string Q)
    (openai_client : option (string -> option string))
    (json_loads : string -> option Py.json)
    (prompt_head prompt_tail user_id : string)
    (conversation_data : list ConversationItem)
    (transcript : string) (recording_url : option string) :
  conversation_data <> [] ->
  (min_transcription_length
   <= Z.of_nat (String.length (_combine_transcriptions conversation_data)))%Z ->
  exists r,
    (analyze_voice min_transcription_length linguistic style emotional
       openai_client json_loads prompt_head prompt_tail conversation_data user_id).2
    = inr r /\
    (is_uuid user_id = true ->
     exists p,
       from_analysis_result is_uuid user_id r transcript recording_url = inr p /\
       VoiceProfile.user_id p = user_id /\
       VoiceProfile.voice_signature p = VoiceAnalyzer.voice_signature r /\
       VoiceProfile.confidence_score p = VoiceAnalyzer.confidence_score r /\
       Spec.is_voice_signature (VoiceProfile.voice_signature p)) /\
    (is_uuid user_id = false ->
     from_analysis_result is_uuid user_id r transcript recording_url
     = inl Py.ValidationError).
Proof.
  intros Hne Hlen.
  destruct (analyze_voice_result min_transcription_length linguistic style
              emotional openai_client json_loads prompt_head prompt_tail user_id
              conversation_data Hne Hlen) as (analyses & E).
  eexists. split; [exact E |].
  unfold from_analysis_result. cbv zeta.
  cbn [VoiceAnalyzer.voice_signature VoiceAnalyzer.confidence_score].
  split; [| by intros ->].
  intros ->. cbn [andb].
  match goal with |- context [Qle_bool 0.0 ?c] =>
    assert (Hc : 0 <= c <= 1) by apply confidence_score_bounds;
    assert (H0 : Qle_bool 0.0 c = true) by (apply Qle_bool_iff; lra);
    assert (H1 : Qle_bool c 1.0 = true) by (apply Qle_bool_iff; lra)
  end.
  rewrite H0, H1. cbn [andb].
  eexists. split; [reflexivity |].
  cbn [VoiceProfile.user_id VoiceProfile.voice_signature VoiceProfile.confidence_score].
  do 3 (split; [reflexivity |]). apply create_voice_signature_dom.
Qed.

Lemma profile_from_analysis_witness :
  let user_id := "123e4567-e89b-12d3-a456-426614174000" in
  exists r p,
    (analyze_voice 5 (fun _ => ∅) (fun _ _ => ∅) (fun _ => ∅) None (fun _ => None)
       "" "" [ {| question_id := "q1"; transcription := Some " I lead teams. ";
                  metadata := None |} ] user_id).2
    = inr r /\
    from_analysis_result Spec.is_canonical_uuid user_id r "I lead teams." None
    = inr p /\
    VoiceProfile.voice_signature p = VoiceAnalyzer.voice_signature r /\
    from_analysis_result Spec.is_canonical_uuid "user" r "I lead teams." None
    = inl Py.ValidationError.
Proof.
  intros user_id.
  destruct (profile_from_analysis Spec.is_canonical_uuid 5 (fun _ => ∅)
              (fun _ _ => ∅) (fun _ => ∅) None (fun _ => None) "" "" user_id
              [ {| question_id := "q1"; transcription := Some " I lead teams. ";
                   metadata := None |} ] "I lead teams." None)
    as (r & Hr & Hvalid & _).
  - discriminate.
  - vm_compute. discriminate.
  - destruct (Hvalid eq_refl) as (p & Hp & _ & Hsig & _).
    exists r, p. split; [exact Hr |]. split; [exact Hp |]. split; [exact Hsig |].
    reflexivity.
Defined.

Lemma compare_loop_differences
    (p1 p2 : VoiceProfile) (ds : list string) (d : string) :
  (compare_loop p1 p2 ds).1.2 !! d
  = if bool_decide (d ∈ ds)
    then Some (Qabs (get_voice_dimension p1 d - get_voice_dimension p2 d))
    else None.
Proof.
  induction ds as [| d' ds IH] using rev_ind.
  - reflexivity.
  - rewrite compare_loop_snoc. cbn [compare_dimension fst snd].
    destruct (decide (d = d')) as [-> | Hne].
    + rewrite lookup_insert_eq, bool_decide_eq_true_2; [done |].
      apply elem_of_app. right. by apply list_elem_of_singleton.
    + rewrite lookup_insert_ne, IH by done.
      apply (f_equal (fun b : bool => if b then _ else _)), bool_decide_ext.
      rewrite elem_of_app, list_elem_of_singleton. tauto.
Qed.

Lemma Qabs_swap (a b : Q) : Qabs (a - b) == Qabs (b - a).
Proof.
  assert (E : b - a == - (a - b)) by ring. rewrite E. symmetry. apply Qabs_opp.
Qed.

Lemma compare_profiles_bounded (p1 p2 : VoiceProfile) :
  Spec.is_bounded (voice_signature p1) ->
  Spec.is_bounded (voice_signature p2) ->
  let st :=
    compare_loop p1 p2
      (elements (dom (voice_signature p1) ∪ dom (voice_signature p2))) in
  compare_profiles p1 p2
  = inr {| profile1_id := user_id p1;
           profile2_id := user_id p2;
           overall_similarity := overall_of st.2;
           dimension_similarities := st.1.1;
           differences := st.1.2;
           recommendation := Some (recommend (overall_of st.2)) |}.
Proof.
  intros H1 H2 st. unfold compare_profiles. cbv zeta. fold st.
  assert (Hbounds : Forall (fun x => 0 <= x <= 1) st.2).
  { subst st. rewrite compare_loop_similarities. apply Forall_forall. intros x Hx.
    change (List.map ?f ?l) with (f <$> l) in Hx.
    apply list_elem_of_fmap in Hx as (d & -> & _).
    rewrite code_similarity. by apply similarity_bounds. }
  pose proof (overall_of_bounds _ Hbounds) as [Hlo Hhi].
  rewrite (proj2 (Qle_bool_iff 0.0 _)) by lra.
  by rewrite (proj2 (Qle_bool_iff _ 1.0)) by lra.
Qed.

(** X11, [VoiceProfileComparison.compare_profiles].  What the comparison
    says about each dimension does not depend on the order of the two
    profiles: for signatures with scores in [0, 1] both comparisons
    succeed, over the same dimensions, with the same similarity and the
    same difference for each, and with the two ids exchanged.  The overall
    similarity and the recommendation are left out: the code sums the
    similarities in the iteration order of a set, which two calls need not
    share, and a sum of floats depends on that order. *)
Theorem compare_profiles_dimensions_symmetric (p1 p2 : VoiceProfile) :
  Spec.is_bounded (voice_signature p1) ->
  Spec.is_bounded (voice_signature p2) ->
  exists r r',
    compare_profiles p1 p2 = inr r /\
    compare_profiles p2 p1 = inr r' /\
    profile1_id r = profile2_id r' /\
    profile2_id r = profile1_id r' /\
    dom (dimension_similarities r) = dom (dimension_similarities r') /\
    dom (differences r) = dom (differences r') /\
    (forall d, option_Forall2 Qeq (dimension_similarities r !! d)
                                  (dimension_similarities r' !! d)) /\
    (forall d, option_Forall2 Qeq (differences r !! d) (differences r' !! d)).
Proof.
  intros H1 H2.
  pose proof (compare_profiles_bounded p1 p2 H1 H2) as E.
  pose proof (compare_profiles_bounded p2 p1 H2 H1) as E'.
  cbv zeta in E, E'.
  rewrite (comm_L (∪) (dom (voice_signature p2))) in E'.
  set (ds := elements (dom (voice_signature p1) ∪ dom (voice_signature p2))) in *.
  eexists. eexists. split; [exact E |]. split; [exact E' |].
  cbn [profile1_id profile2_id dimension_similarities differences].
  split; [done |]. split; [done |].
  split; [| split; [| split]].
  - apply set_eq. intros d. rewrite !elem_of_dom.
    rewrite !compare_loop_dimension_similarities.
    by case_bool_decide.
  - apply set_eq. intros d. rewrite !elem_of_dom.
    rewrite !compare_loop_differences.
    by case_bool_decide.
  - intros d. rewrite !compare_loop_dimension_similarities.
    case_bool_decide; constructor. by rewrite Qabs_swap.
  - intros d. rewrite !compare_loop_differences.
    case_bool_decide; constructor. apply Qabs_swap.
Qed.

Lemma compare_profiles_dimensions_symmetric_witness :
  let p1 := {| user_id := "u1"; voice_signature := {[ "formality_level" := 0.5 ]};
               confidence_score := 1 |} in
  let p2 := {| user_id := "u2"; voice_signature := {[ "humor_usage" := 0.25 ]};
               confidence_score := 1 |} in
  exists r r',
    compare_profiles p1 p2 = inr r /\
    compare_profiles p2 p1 = inr r' /\
    profile1_id r = profile2_id r' /\
    profile2_id r = profile1_id r' /\
    dom (dimension_similarities r) = dom (dimension_similarities r') /\
    dom (differences r) = dom (differences r') /\
    (forall d, option_Forall2 Qeq (dimension_similarities r !! d)
                                  (dimension_similarities r' !! d)) /\
    (forall d, option_Forall2 Qeq (differences r !! d) (differences r' !! d)).
Proof.
  apply compare_profiles_dimensions_symmetric; apply map_Forall_singleton; lra.
Defined.

(** X12, [is_suitable_for_content_type].  Suitability is monotone in the
    scores: a profile that scores at least as high as a suitable one on
    every dimension is suitable for the same content type. *)
Theorem is_suitable_monotone (p q : VoiceProfile) (content_type : string) :
  (forall d, get_voice_dimension p d <= get_voice_dimension q d) ->
  is_suitable_for_content_type p content_type = true ->
  is_suitable_for_content_type q content_type = true.
Proof.
  intros Hle. unfold is_suitable_for_content_type. cbv zeta.
  rewrite !forallb_forall. intros Hp [d m] Hin.
  specialize (Hp _ Hin). cbn [fst snd] in *.
  apply negb_true_iff, Qltb_ge. apply negb_true_iff, Qltb_ge in Hp.
  specialize (Hle d). lra.
Qed.

Lemma is_suitable_monotone_witness :
  let p := {| user_id := "u"; voice_signature := {[ "storytelling_style" := 0.5;
                "personal_experience_sharing" := 0.3 ]}; confidence_score := 1 |} in
  let q := {| user_id := "v"; voice_signature := {[ "storytelling_style" := 0.9;
                "personal_experience_sharing" := 0.6 ]}; confidence_score := 1 |} in
  is_suitable_for_content_type q "story" = true.
Proof.
  intros p q. apply (is_suitable_monotone p q).
  - intros d. unfold get_voice_dimension, Py.get. subst p q. cbn [voice_signature].
    destruct (decide (d = "storytelling_style")) as [-> | H1];
      [vm_compute; discriminate |].
    destruct (decide (d = "personal_experience_sharing")) as [-> | H2];
      [vm_compute; discriminate |].
    rewrite !lookup_insert_ne, !lookup_singleton_ne by done. cbn. lra.
  - vm_compute. reflexivity.
Defined.

(** X13, [is_suitable_for_content_type].  Only four content types carry
    requirements; for any other content type, such as ["post"] or
    ["article"], every profile is suitable, the empty one included. *)
Theorem is_suitable_without_requirements (p : VoiceProfile) (content_type : string) :
  content_type ∉ ["story"; "technical_article"; "thought_leadership"; "personal_update"] ->
  is_suitable_for_content_type p content_type = true.
Proof.
  intros Hct. unfold is_suitable_for_content_type, content_requirements.
  rewrite (not_elem_of_list_to_map_1 _ content_type); [done |].
  exact Hct.
Qed.

Lemma is_suitable_without_requirements_witness :
  is_suitable_for_content_type
    {| user_id := "u"; voice_signature := ∅; confidence_score := 0 |} "post" = true.
Proof.
  apply is_suitable_without_requirements.
  refine (bool_decide_unpack _ _). by vm_compute.
Defined.

(** X14, [update_voice_signature].  [dict.update] keeps the old entries the
    new signature does not mention; when the new signature covers every
    dimension of the profile, as a 14-dimension signature does for a
    profile made of one, the profile's signature afterwards is the new
    one. *)
Theorem update_with_complete_signature (p : VoiceProfile) (new_signature : gmap string Q) :
  dom (voice_signature p) ⊆ dom new_signature ->
  voice_signature (update_voice_signature p new_signature) = new_signature /\
  user_id (update_voice_signature p new_signature) = user_id p /\
  confidence_score (update_voice_signature p new_signature) = confidence_score p.
Proof.
  intros Hdom. split; [| done].
  unfold update_voice_signature, Py.update. cbn [voice_signature].
  apply map_eq. intros d. destruct (new_signature !! d) as [v |] eqn:E.
  - by apply lookup_union_Some_l.
  - rewrite lookup_union_r by done.
    apply not_elem_of_dom. apply not_elem_of_dom in E. set_solver.
Qed.

Lemma update_with_complete_signature_witness :
  let p := {| user_id := "u"; voice_signature := {[ "humor_usage" := 0.2 ]};
              confidence_score := 0.5 |} in
  let new_signature : gmap string Q :=
    {[ "humor_usage" := 0.6; "formality_level" := 0.4 ]} in
  voice_signature (update_voice_signature p new_signature) = new_signature /\
  user_id (update_voice_signature p new_signature) = user_id p /\
  confidence_score (update_voice_signature p new_signature) = confidence_score p.
Proof.
  intros p new_signature. apply update_with_complete_signature.
  subst p new_signature. cbn [voice_signature].
  rewrite dom_singleton_L, dom_insert_L. apply union_subseteq_l.
Defined.

(** X15, [get_formality_level] against [_voice_signature_to_description].
    Both read [formality_level] with the bands 0.7 and 0.3, so for a
    signature that scores the dimension the first line of the prompt's
    voice description is the one belonging to the profile's level; they
    differ when the dimension is missing, where the profile reads 0.0
    ("Casual") and the prompt builder 0.5 ("Balanced professional
    tone"). *)
Theorem formality_bands_agree (p : VoiceProfile) :
  (is_Some (voice_signature p !! "formality_level") ->
   head (voice_descriptions (voice_signature p))
   = Some (Spec.formality_description (get_formality_level p))) /\
  (voice_signature p !! "formality_level" = None ->
   get_formality_level p = "Casual" /\
   head (voice_descriptions (voice_signature p))
   = Some "Balanced professional tone").
Proof.
  unfold voice_descriptions, get_formality_level, get_voice_dimension, Py.get.
  cbv zeta. cbn [head].
  destruct (voice_signature p !! "formality_level") as [v |];
    cbn [default from_option Datatypes.id]; split.
  - intros _. destruct (Py.Qltb 0.7 v); [reflexivity |].
    destruct (Py.Qltb 0.3 v); reflexivity.
  - done.
  - by intros [? [=]].
  - intros _. split; reflexivity.
Qed.

(** ** More on the template manager *)

Lemma template_score_flags (sig : gmap string Q) (t : Template) :
  template_score sig t = Spec.score_with (Spec.flags_of sig) t.
Proof. reflexivity. Qed.

Lemma get_template_post (sig : gmap string Q) (t : Template) :
  Spec.best_post (Spec.flags_of sig) = Some t ->
  get_template_for_voice_profile sig "post" = inr t.
Proof.
  unfold Spec.best_post, get_template_for_voice_profile, select_template.
  destruct (List.filter _ _) as [| template others]; [done |].
  intros [= <-]. f_equal.
Qed.

Lemma best_post_storyteller (f : Spec.score_flags) :
  Spec.storytelling_above_05 f = true ->
  Spec.storytelling_above_04 f = true ->
  Spec.personal_above_04 f = true ->
  TemplateManager.id <$> Spec.best_post f = Some "personal_story".
Proof.
  destruct f as [s5 s4 a5 a4 p5 p4 t4]. cbn [Spec.storytelling_above_05
    Spec.storytelling_above_04 Spec.personal_above_04].
  intros -> -> ->.
  destruct a5, a4, p5, t4; vm_compute; reflexivity.
Qed.

(** X16, [get_template_for_voice_profile].  A signature whose storytelling
    score is above 0.5 and whose personal-experience score is above 0.4 is
    given the "Personal Story" template for a post, whatever its other
    scores: that template then scores 6.0 and no other post can reach it. *)
Theorem storyteller_gets_personal_story (sig : gmap string Q) :
  0.5 < Py.get sig "storytelling_style" 0.3 ->
  0.4 < Py.get sig "personal_experience_sharing" 0.4 ->
  exists t,
    get_template_for_voice_profile sig "post" = inr t /\
    TemplateManager.id t = "personal_story".
Proof.
  intros Hs Hp.
  assert (H : TemplateManager.id <$> Spec.best_post (Spec.flags_of sig)
              = Some "personal_story").
  { apply best_post_storyteller;
      cbn [Spec.flags_of Spec.storytelling_above_05
           Spec.storytelling_above_04 Spec.personal_above_04];
      apply Qltb_lt; lra. }
  destruct (Spec.best_post (Spec.flags_of sig)) as [t |] eqn:E; [| done].
  exists t. split; [by apply get_template_post |].
  by injection H.
Qed.

Lemma storyteller_gets_personal_story_witness :
  exists t,
    get_template_for_voice_profile
      {[ "storytelling_style" := 0.8; "personal_experience_sharing" := 0.6;
         "authority_tone" := 0.9 ]} "post" = inr t /\
    TemplateManager.id t = "personal_story".
Proof.
  apply storyteller_gets_personal_story; vm_compute; reflexivity.
Defined.

Lemma default_ids_NoDup : NoDup (TemplateManager.id <$> _get_default_templates).
Proof. refine (bool_decide_unpack _ _). by vm_compute. Qed.

Lemma find_by_id_NoDup (templates : list Template) (t : Template) :
  NoDup (TemplateManager.id <$> templates) -> t ∈ templates ->
  List.find (fun template => String.eqb (TemplateManager.id template)
                                        (TemplateManager.id t)) templates
  = Some t.
Proof.
  induction templates as [| t' templates IH]; intros Hnd Hin.
  - by apply elem_of_nil in Hin.
  - cbn [fmap list_fmap] in Hnd. apply NoDup_cons in Hnd as [Hfresh Hnd].
    cbn [List.find].
    destruct (String.eqb_spec (TemplateManager.id t') (TemplateManager.id t))
      as [E | E].
    + apply elem_of_cons in Hin as [-> | Hin]; [done |].
      exfalso. apply Hfresh. rewrite E. apply list_elem_of_fmap. by exists t.
    + apply elem_of_cons in Hin as [-> | Hin]; [done |]. by apply IH.
Qed.

(** X17, [get_template_by_id] over [_get_default_templates].  The ids of
    the default templates are pairwise distinct, so looking a default
    template up by its own id gives that template back. *)
Theorem get_template_by_id_round_trip (t : Template) :
  t ∈ _get_default_templates -> get_template_by_id (TemplateManager.id t) = Some t.
Proof. apply find_by_id_NoDup, default_ids_NoDup. Qed.

Lemma get_template_by_id_round_trip_witness :
  exists t, head _get_default_templates = Some t /\
            get_template_by_id (TemplateManager.id t) = Some t.
Proof.
  eexists. split; [reflexivity |].
  apply get_template_by_id_round_trip. apply list_elem_of_here.
Defined.

(** X18, [get_template_by_id].  Without a database the lookup only ever
    answers with a default template, and one that carries the requested
    id. *)
Theorem get_template_by_id_sound (template_id : string) (t : Template) :
  get_template_by_id template_id = Some t ->
  TemplateManager.id t = template_id /\ t ∈ _get_default_templates.
Proof.
  unfold get_template_by_id. intros H. apply find_some in H as [Hin E].
  apply String.eqb_eq in E. split; [done | by apply list_elem_of_In].
Qed.

Lemma get_template_by_id_sound_witness :
  exists t, get_template_by_id "personal_story" = Some t /\
            TemplateManager.id t = "personal_story" /\
            t ∈ _get_default_templates.
Proof.
  eexists. split; [reflexivity |].
  apply get_template_by_id_sound. reflexivity.
Defined.

Lemma filter_defaults_spec (ct industry uc : option string) (t : Template) :
  In t (filter_defaults ct industry uc) <->
  In t _get_default_templates /\
  Spec.passes ct (String.eqb (content_type t)) = true /\
  Spec.passes industry (fun i => Py.mem i (industry_tags t)) = true /\
  Spec.passes uc (String.eqb (use_case t)) = true.
Proof.
  unfold filter_defaults, Spec.passes. cbv zeta.
  destruct (is_given ct), (is_given industry), (is_given uc);
    rewrite ?filter_In; tauto.
Qed.

(** X19, [get_templates] without a database, on a cache miss.  The
    templates returned are exactly the default templates that pass every
    filter that is given; a filter that is [None] or the empty string is not
    applied. *)
Theorem get_templates_miss (self : Cache) (now stored_at : Q)
    (ct industry uc : option string) :
  _is_cache_valid self now (cache_key_of ct industry uc) = false ->
  forall t,
    In t (get_templates self now stored_at ct industry uc).1 <->
    In t _get_default_templates /\
    Spec.passes ct (String.eqb (content_type t)) = true /\
    Spec.passes industry (fun i => Py.mem i (industry_tags t)) = true /\
    Spec.passes uc (String.eqb (use_case t)) = true.
Proof.
  intros Hmiss t. unfold get_templates. cbv zeta. rewrite Hmiss. cbn [fst].
  apply filter_defaults_spec.
Qed.

Lemma get_templates_miss_witness :
  exists t,
    get_template_by_id "thought_leadership_long" = Some t /\
    (In t (get_templates {| template_cache := ∅; cache_expiry := ∅ |} 0 0
             (Some "article") None (Some "")).1 <->
     In t _get_default_templates /\
     Spec.passes (Some "article") (String.eqb (content_type t)) = true /\
     Spec.passes None (fun i => Py.mem i (industry_tags t)) = true /\
     Spec.passes (Some "") (String.eqb (use_case t)) = true).
Proof.
  eexists. split; [reflexivity |].
  apply (get_templates_miss {| template_cache := ∅; cache_expiry := ∅ |} 0 0
           (Some "article") None (Some "")).
  reflexivity.
Defined.

Lemma get_templates_hit (self : Cache) (now stored_at : Q)
    (ct industry uc : option string) (templates : list Template) (expiry : Q) :
  template_cache self !! cache_key_of ct industry uc = Some templates ->
  cache_expiry self !! cache_key_of ct industry uc = Some expiry ->
  now < expiry ->
  get_templates self now stored_at ct industry uc = (templates, self).
Proof.
  intros Hc He Hnow. unfold get_templates, _is_cache_valid. cbv zeta.
  rewrite Hc, He. apply Qltb_lt in Hnow. by rewrite Hnow.
Qed.

(** X20, [get_templates] and [_is_cache_valid].  After a miss, a call made
    before the entry expires (an hour after it was stored) is answered from
    the cache and leaves the cache as it is, for every filter triple with
    the same cache key.  The key is the text
    [templates_<content_type>_<industry>_<use_case>], which does not tell
    [None] from the string ["None"] nor where an underscore belongs: such a
    call gets the templates of the first call, not those of its own
    filters. *)
Theorem get_templates_cached (self : Cache) (now stored_at now' stored_at' : Q)
    (ct industry uc ct' industry' uc' : option string) :
  _is_cache_valid self now (cache_key_of ct industry uc) = false ->
  cache_key_of ct' industry' uc' = cache_key_of ct industry uc ->
  now' < stored_at + cache_ttl ->
  let first := get_templates self now stored_at ct industry uc in
  get_templates first.2 now' stored_at' ct' industry' uc' = first.
Proof.
  intros Hmiss Hkey Hfresh first.
  assert (E : first = (filter_defaults ct industry uc,
    {| template_cache :=
         <[cache_key_of ct industry uc := filter_defaults ct industry uc]>
           (template_cache self);
       cache_expiry :=
         <[cache_key_of ct industry uc := stored_at + cache_ttl]>
           (cache_expiry self) |})).
  { subst first. unfold get_templates. cbv zeta. by rewrite Hmiss. }
  rewrite E. cbn [snd].
  apply (get_templates_hit _ _ _ _ _ _ _ (stored_at + cache_ttl));
    cbn [template_cache cache_expiry]; rewrite ?Hkey;
    [apply lookup_insert_eq.. | done].
Qed.

Lemma get_templates_cached_witness :
  let empty := {| template_cache := ∅; cache_expiry := ∅ |} in
  let first := get_templates empty 100 100 (Some "post") None None in
  get_templates first.2 200 200 (Some "post") (Some "None") None = first /\
  length first.1 = 9%nat /\
  filter_defaults (Some "post") (Some "None") None = [].
Proof.
  intros empty first. split; [| split; reflexivity].
  apply (get_templates_cached empty 100 100 200 200
           (Some "post") None None (Some "post") (Some "None") None);
    reflexivity.
Defined.

(** ** More on the content generator *)

(** [lra] does not read divisions: the divisions by a constant of the
    sources are rewritten as multiplications. *)
Ltac Qdiv_consts :=
  unfold Qdiv in *;
  change (/ 3) with (1 # 3) in *; change (/ 5) with (1 # 5) in *;
  change (/ 10) with (1 # 10) in *; change (/ 20) with (1 # 20) in *.

Lemma get_bounds (sig : gmap string Q) (d : string) (x : Q) :
  Spec.is_bounded sig -> 0 <= x <= 1 -> 0 <= Py.get sig d x <= 1.
Proof.
  intros Hsig Hx. unfold Py.get. destruct (sig !! d) as [v |] eqn:E; cbn [default].
  - exact (Hsig d v E).
  - exact Hx.
Qed.

Lemma calculate_temperature_bounds (sig : gmap string Q) :
  0.3 <= _calculate_temperature sig <= 0.9.
Proof.
  unfold _calculate_temperature. cbv zeta.
  rewrite Py_min_Qmin, Py_max_Qmax. split.
  - apply Q.min_glb; [lra | apply Q.le_max_l].
  - apply Q.le_min_l.
Qed.

(** X21, [_calculate_temperature].  The sampling temperature always lies in
    [0.3, 0.9], whatever the signature holds; for a signature with scores
    in [0, 1] the clamp never acts and the temperature is 0.3 plus a fifth
    of the sum of the expressiveness, humour and storytelling scores. *)
Theorem temperature_range (sig : gmap string Q) :
  0.3 <= _calculate_temperature sig <= 0.9 /\
  (Spec.is_bounded sig ->
   _calculate_temperature sig
   == 0.3 + 0.2 * (Py.get sig "emotional_expressiveness" 0.3
                   + Py.get sig "humor_usage" 0.1
                   + Py.get sig "storytelling_style" 0.3)).
Proof.
  split; [apply calculate_temperature_bounds |].
  unfold _calculate_temperature. cbv zeta. intros Hsig.
  pose proof (get_bounds sig "emotional_expressiveness" 0.3 Hsig ltac:(lra)).
  pose proof (get_bounds sig "humor_usage" 0.1 Hsig ltac:(lra)).
  pose proof (get_bounds sig "storytelling_style" 0.3 Hsig ltac:(lra)).
  set (e := Py.get sig "emotional_expressiveness" 0.3) in *.
  set (h := Py.get sig "humor_usage" 0.1) in *.
  set (s := Py.get sig "storytelling_style" 0.3) in *.
  unfold Py.max.
  destruct (Py.Qltb 0.3 (0.3 + (e + h + s) / 3 * 0.6)) eqn:E1;
    [apply Qltb_lt in E1 | apply Qltb_ge in E1];
    unfold Py.min; case_Qltb; Qdiv_consts; lra.
Qed.

(** X22, [_generate_variations].  The temperature passed for a variation,
    [min(0.9, _calculate_temperature(...) + 0.1)], lies in [0.4, 0.9] and
    is never below the temperature of the primary generation. *)
Theorem variation_temperature_range (sig : gmap string Q) :
  0.4 <= variation_temperature sig <= 0.9 /\
  _calculate_temperature sig <= variation_temperature sig.
Proof.
  destruct (calculate_temperature_bounds sig) as [Hlo Hhi].
  unfold variation_temperature. cbv zeta. rewrite Py_min_Qmin.
  destruct (Q.min_spec 0.9 (_calculate_temperature sig + 0.1)) as [[? ->] | [? ->]]; lra.
Qed.

Lemma match_bounds (expected actual : Q) :
  0 <= expected <= 1 -> 0 <= actual <= 1 ->
  0 <= 1.0 - Qabs (expected - actual) <= 1.
Proof.
  intros He Ha. pose proof (Qabs_nonneg (expected - actual)).
  assert (Qabs (expected - actual) <= 1) by (apply Qabs_Qle_condition; lra).
  lra.
Qed.

Lemma scaled_count_bounds (n : nat) (k : Q) :
  0 < k -> 0 <= Py.min (inject_Z (Z.of_nat n) / k) 1.0 <= 1.
Proof.
  intros Hk. pose proof (count_nonneg n).
  assert (0 <= inject_Z (Z.of_nat n) / k).
  { apply Qle_shift_div_l; [done | lra]. }
  unfold Py.min. case_Qltb; lra.
Qed.

(** X23, [_calculate_voice_match_score].  For a signature with scores in
    [0, 1] the voice-match score lies in [0, 1], whatever the numbers of
    indicator words found in the content. *)
Theorem voice_match_score_bounds (formal casual story personal : nat)
    (sig : gmap string Q) :
  Spec.is_bounded sig ->
  0 <= voice_match_score_of_counts formal casual story personal sig <= 1.
Proof.
  intros Hsig. unfold voice_match_score_of_counts. cbv zeta.
  assert (Hf : 0 <= (if (casual <? formal)%nat
                     then Py.min (inject_Z (Z.of_nat formal) / 5) 1.0
                     else Py.max 0 (1.0 - inject_Z (Z.of_nat casual) / 5)) <= 1).
  { destruct (casual <? formal)%nat; [apply scaled_count_bounds; lra |].
    pose proof (count_nonneg casual).
    assert (0 <= inject_Z (Z.of_nat casual) / 5)
      by (apply Qle_shift_div_l; lra).
    unfold Py.max. case_Qltb; lra. }
  pose proof (match_bounds _ _ (get_bounds sig "formality_level" 0.5 Hsig ltac:(lra)) Hf).
  pose proof (match_bounds _ _
    (get_bounds sig "storytelling_style" 0.3 Hsig ltac:(lra))
    (scaled_count_bounds story 10 ltac:(lra))).
  pose proof (match_bounds _ _
    (get_bounds sig "personal_experience_sharing" 0.4 Hsig ltac:(lra))
    (scaled_count_bounds personal 20 ltac:(lra))).
  unfold Py.sum, Py.len. cbn [fold_left length].
  change (inject_Z (Z.of_nat 3)) with 3.
  split; [apply Qle_shift_div_l | apply Qle_shift_div_r]; lra.
Qed.

Lemma voice_match_score_bounds_witness :
  0 <= voice_match_score_of_counts 2 1 4 7 (list_to_map Spec.neutral_signature) <= 1.
Proof.
  apply voice_match_score_bounds.
  apply map_Forall_lookup. intros d v Hd.
  apply elem_of_list_to_map_2 in Hd.
  unfold Spec.neutral_signature in Hd. cbn in Hd.
  repeat (apply elem_of_cons in Hd as [[= -> ->] | Hd]; [lra |]).
  by apply elem_of_nil in Hd.
Defined.

(** *** Batches *)

Lemma batch_fold {Result Error : Type} (items : list (nat * (Error + Result)))
    (st : list (nat * Result) * list (nat * Error)) :
  let st' := fold_left (batch_step Result Error) items st in
  st'.1 = (st.1 ++ omap (fun item => match item.2 with
                                      | inr r => Some (item.1, r)
                                      | inl _ => None
                                      end) items)%list /\
  st'.2 = (st.2 ++ omap (fun item => match item.2 with
                                      | inl e => Some (item.1, e)
                                      | inr _ => None
                                      end) items)%list.
Proof.
  revert st. induction items as [| [i [e | r]] items IH]; intros st; cbn [fold_left].
  - cbn. by rewrite !(right_id_L [] (++)%list).
  - destruct (IH (batch_step Result Error st (i, inl e))) as [H1 H2].
    cbv zeta. rewrite H1, H2. unfold batch_step. cbn [fst snd omap list_omap].
    by rewrite <- (assoc_L (++)%list).
  - destruct (IH (batch_step Result Error st (i, inr r))) as [H1 H2].
    cbv zeta. rewrite H1, H2. unfold batch_step. cbn [fst snd omap list_omap].
    by rewrite <- (assoc_L (++)%list).
Qed.

Lemma elem_of_enumerate {A} (l : list A) (i : nat) (x : A) :
  (i, x) ∈ combine (seq 0 (length l)) l <-> l !! i = Some x.
Proof.
  assert (G : forall start, (i, x) ∈ combine (seq start (length l)) l
                            <-> (start <= i)%nat /\ l !! (i - start)%nat = Some x).
  { induction l as [| y l IH]; intros start; cbn [length seq combine].
    - rewrite elem_of_nil. split; [done | by intros [_ ?]].
    - rewrite elem_of_cons, IH. split.
      + intros [[= -> ->] | [Hle Hl]].
        * split; [lia |]. by rewrite Nat.sub_diag.
        * split; [lia |]. by replace (i - start)%nat with (S (i - S start)) by lia.
      + intros [Hle Hl]. destruct (decide (i = start)) as [-> | Hne].
        * left. rewrite Nat.sub_diag in Hl. by injection Hl as ->.
        * right. split; [lia |].
          by replace (i - start)%nat with (S (i - S start)) in Hl by lia. }
  rewrite G, Nat.sub_0_r. split; [by intros [_ ?] | intros; split; [lia | done]].
Qed.

(** X24, [batch_generate_content].  A batch of at most ten requests is
    processed as a whole: every request index is reported exactly once,
    under [successful] with its result when its generation returned and
    under [failed] with its error when it raised, and [total_processed] is
    the number of requests. *)
Theorem batch_generate_content_partition {Request Result Error : Type}
    (generate_content : Request -> Error + Result) (requests : list Request) :
  (length requests <= 10)%nat ->
  exists r,
    batch_generate_content Request Result Error generate_content requests = inr r /\
    total_processed _ _ r = length requests /\
    (length (successful _ _ r) + length (failed _ _ r) = length requests)%nat /\
    (forall i res, (i, res) ∈ successful _ _ r <->
       exists req, requests !! i = Some req /\ generate_content req = inr res) /\
    (forall i err, (i, err) ∈ failed _ _ r <->
       exists req, requests !! i = Some req /\ generate_content req = inl err).
Proof.
  intros Hlen. unfold batch_generate_content.
  destruct (Nat.ltb_spec 10 (length requests)) as [? | _]; [lia |].
  eexists. split; [reflexivity |]. cbn [total_processed successful failed].
  set (results := List.map generate_content requests).
  set (items := combine (seq 0 (length results)) results).
  destruct (batch_fold items ([], [])) as [H1 H2]. cbv zeta in H1, H2.
  rewrite H1, H2. cbn [fst snd app].
  assert (Hres : forall i x, (i, x) ∈ items <->
            exists req, requests !! i = Some req /\ generate_content req = x).
  { intros i x. subst items. rewrite elem_of_enumerate. subst results.
    change (List.map ?f ?l) with (f <$> l). rewrite list_lookup_fmap.
    destruct (requests !! i) as [req |]; cbn.
    - split; [intros [= <-]; by exists req | by intros (? & [= <-] & <-)].
    - split; [done | by intros (? & ? & _)]. }
  split; [subst items results; by rewrite length_map |]. split; [| split].
  - assert (Hitems : length items = length requests).
    { subst items results.
      by rewrite length_combine, length_seq, Nat.min_id, length_map. }
    rewrite <- Hitems. clear. induction items as [| [i [e | r]] items IH];
      cbn [omap list_omap length snd]; [done | lia..].
  - intros i res. rewrite list_elem_of_omap. split.
    + intros ([j [e | r]] & Hin & Hm); cbn [fst snd] in Hm; [done |].
      injection Hm as -> ->. by apply Hres.
    + intros Hreq. exists (i, inr res). split; [by apply Hres | done].
  - intros i err. rewrite list_elem_of_omap. split.
    + intros ([j [e | r]] & Hin & Hm); cbn [fst snd] in Hm; [| done].
      injection Hm as -> ->. by apply Hres.
    + intros Hreq. exists (i, inl err). split; [by apply Hres | done].
Qed.

Lemma batch_generate_content_partition_witness :
  let generate_content (topic : string) : string + nat :=
    if String.eqb topic "" then inl "topic is required"
    else inr (String.length topic) in
  let requests := ["hiring"; ""; "remote work"] in
  exists r,
    batch_generate_content string nat string generate_content requests = inr r /\
    total_processed _ _ r = length requests /\
    (length (successful _ _ r) + length (failed _ _ r) = length requests)%nat /\
    (forall i res, (i, res) ∈ successful _ _ r <->
       exists req, requests !! i = Some req /\ generate_content req = inr res) /\
    (forall i err, (i, err) ∈ failed _ _ r <->
       exists req, requests !! i = Some req /\ generate_content req = inl err).
Proof.
  intros generate_content requests.
  apply (batch_generate_content_partition generate_content requests).
  subst requests. cbn [length]. lia.
Defined.

(** ** Paragraph layout *)

(** *** More on strings *)

Lemma occurs_app (c : ascii) (a b : string) :
  Spec.occurs c (a ++ b) = Spec.occurs c a || Spec.occurs c b.
Proof.
  induction a as [| x a IH]; [done |].
  rewrite string_app_cons. cbn [Spec.occurs]. by rewrite IH, orb_assoc.
Qed.

Lemma rev_app_spec (s t : string) : String.rev_app s t = String.rev s ++ t.
Proof.
  unfold String.rev. revert t. induction s as [| a s IH]; intros t; [done |].
  cbn [String.rev_app]. rewrite IH, (IH (String a "")).
  by rewrite string_app_assoc.
Qed.

Lemma rev_cons (a : ascii) (s : string) :
  String.rev (String a s) = String.rev s ++ String a "".
Proof. unfold String.rev at 1. cbn [String.rev_app]. apply rev_app_spec. Qed.

Lemma rev_app_distr (a b : string) :
  String.rev (a ++ b) = String.rev b ++ String.rev a.
Proof.
  induction a as [| x a IH].
  - by rewrite string_app_nil_l, string_app_nil_r.
  - by rewrite string_app_cons, !rev_cons, IH, string_app_assoc.
Qed.

Lemma rev_involutive (s : string) : String.rev (String.rev s) = s.
Proof.
  induction s as [| a s IH]; [done |].
  by rewrite rev_cons, rev_app_distr, IH.
Qed.

Lemma all_space_app (a b : string) :
  Spec.all_space (a ++ b) = Spec.all_space a && Spec.all_space b.
Proof.
  induction a as [| x a IH]; [done |].
  rewrite string_app_cons. cbn [Spec.all_space]. by rewrite IH, andb_assoc.
Qed.

Lemma all_space_rev (s : string) : Spec.all_space (String.rev s) = Spec.all_space s.
Proof.
  induction s as [| a s IH]; [done |].
  rewrite rev_cons, all_space_app, IH. cbn [Spec.all_space].
  by rewrite andb_true_r, andb_comm.
Qed.

(** [lstrip] and [rstrip] cut a run of whitespace off one end. *)
Lemma lstrip_split (s : string) :
  exists ws, Spec.all_space ws = true /\ s = ws ++ Py.lstrip s.
Proof.
  induction s as [| c s (ws & Hws & E)].
  - by exists "".
  - cbn [Py.lstrip]. destruct (Py.is_space c) eqn:Hc.
    + exists (String c ws). cbn [Spec.all_space]. rewrite Hc, Hws.
      split; [done |]. by rewrite string_app_cons, <- E.
    + by exists "".
Qed.

Lemma rstrip_split (s : string) :
  exists ws, Spec.all_space ws = true /\ s = Py.rstrip s ++ ws.
Proof.
  destruct (lstrip_split (String.rev s)) as (ws & Hws & E).
  exists (String.rev ws). split; [by rewrite all_space_rev |].
  unfold Py.rstrip. rewrite <- rev_app_distr, <- E. by rewrite rev_involutive.
Qed.

Lemma strip_split (s : string) :
  exists ws ws',
    Spec.all_space ws = true /\ Spec.all_space ws' = true /\
    s = ws ++ Py.strip s ++ ws'.
Proof.
  destruct (lstrip_split s) as (ws & Hws & E).
  destruct (rstrip_split (Py.lstrip s)) as (ws' & Hws' & E').
  exists ws, ws'. unfold Py.strip. by rewrite <- E', <- E.
Qed.

Lemma occurs_strip (c : ascii) (s : string) :
  Spec.occurs c s = false -> Spec.occurs c (Py.strip s) = false.
Proof.
  destruct (strip_split s) as (ws & ws' & _ & _ & E). intros H.
  rewrite E, !occurs_app in H.
  by apply orb_false_iff in H as [_ [H _]%orb_false_iff].
Qed.


(** *** [strip] is idempotent *)

Lemma lstrip_fixed (c : ascii) (s : string) :
  Py.is_space c = false -> Py.lstrip (String c s) = String c s.
Proof. intros H. cbn [Py.lstrip]. by rewrite H. Qed.

Lemma lstrip_head (s : string) :
  Py.lstrip s = "" \/ exists c s', Py.lstrip s = String c s' /\ Py.is_space c = false.
Proof.
  induction s as [| c s IH]; [by left |].
  cbn [Py.lstrip]. destruct (Py.is_space c) eqn:Hc; [done |].
  right. by exists c, s.
Qed.

Lemma lstrip_idemp (s : string) : Py.lstrip (Py.lstrip s) = Py.lstrip s.
Proof.
  destruct (lstrip_head s) as [-> | (c & s' & -> & Hc)]; [done |].
  by apply lstrip_fixed.
Qed.

Lemma rstrip_idemp (s : string) : Py.rstrip (Py.rstrip s) = Py.rstrip s.
Proof. unfold Py.rstrip. by rewrite rev_involutive, lstrip_idemp. Qed.

Lemma lstrip_rstrip (c : ascii) (s : string) :
  Py.is_space c = false ->
  Py.lstrip (Py.rstrip (String c s)) = Py.rstrip (String c s).
Proof.
  intros Hc. destruct (rstrip_split (String c s)) as (ws & Hws & E).
  destruct (Py.rstrip (String c s)) as [| c' r]; [done |].
  rewrite string_app_cons in E. injection E as <- _. by apply lstrip_fixed.
Qed.

Lemma strip_idemp (s : string) : Py.strip (Py.strip s) = Py.strip s.
Proof.
  unfold Py.strip.
  destruct (lstrip_head s) as [-> | (c & s' & -> & Hc)]; [done |].
  by rewrite (lstrip_rstrip _ _ Hc), rstrip_idemp.
Qed.

Lemma lstrip_all_space_app (ws s : string) :
  Spec.all_space ws = true -> Py.lstrip (ws ++ s) = Py.lstrip s.
Proof.
  induction ws as [| c ws IH]; [done |]. cbn [Spec.all_space].
  intros [Hc Hws]%andb_true_iff. rewrite string_app_cons. cbn [Py.lstrip].
  rewrite Hc. by apply IH.
Qed.

Lemma strip_all_space_app (ws s : string) :
  Spec.all_space ws = true -> Py.strip (ws ++ s) = Py.strip s.
Proof. intros H. unfold Py.strip. by rewrite (lstrip_all_space_app _ _ H). Qed.

(** *** The loop of [_add_line_breaks] *)

Lemma add_sentence_pieces (pieces : list string) (st : list string * list string) :
  fold_left add_sentence pieces st
  = fold_left
      Spec.group_sentence
      (List.filter (fun s => negb (String.eqb s "")) (List.map Py.strip pieces)) st.
Proof.
  revert st. induction pieces as [| p pieces IH]; intros st; [done |].
  cbn [fold_left List.map List.filter]. rewrite IH. unfold add_sentence at 1.
  cbv zeta. by destruct (String.eqb (Py.strip p) "").
Qed.

Lemma grouping (sentences : list string) (paragraphs : list string) :
  Spec.finish (fold_left Spec.group_sentence sentences (paragraphs, []))
  = (paragraphs ++ Spec.paragraphs_of sentences)%list.
Proof.
  revert paragraphs.
  assert (H : forall n sentences, (length sentences <= n)%nat ->
    forall paragraphs,
      Spec.finish (fold_left Spec.group_sentence sentences (paragraphs, []))
      = (paragraphs ++ Spec.paragraphs_of sentences)%list).
  { induction n as [| n IH]; intros [| s1 [| s2 rest]] Hlen paragraphs;
      cbn [length] in Hlen; try lia.
    - cbn. by rewrite (right_id_L [] (++)%list).
    - cbn. by rewrite (right_id_L [] (++)%list).
    - reflexivity.
    - cbn [fold_left Spec.group_sentence fst snd app length Nat.leb Spec.paragraphs_of].
      rewrite IH by lia. by rewrite <- (assoc_L (++)%list). }
  intros paragraphs. by apply (H (length sentences)).
Qed.

Lemma add_line_breaks_layout (content : string) :
  _add_line_breaks content
  = String.concat (newline ++ newline)
      (Spec.paragraphs_of (Spec.sentences_of content)).
Proof.
  unfold _add_line_breaks. cbv zeta. rewrite add_sentence_pieces.
  fold (Spec.sentences_of content).
  change (match (fold_left ?f ?l ?a).2 with
          | [] => (fold_left ?f ?l ?a).1
          | s :: l0 => ((fold_left ?f ?l ?a).1 ++ [close_paragraph (s :: l0)])%list
          end) with (Spec.finish (fold_left f l a)).
  by rewrite grouping.
Qed.

(** *** Splitting into sentences *)

Lemma split_sentences_cons (c : ascii) (s : string) :
  is_terminator c = false ->
  split_sentences (String c s)
  = match split_sentences s with
    | piece :: others => String c piece :: others
    | [] => [String c ""]
    end.
Proof. intros H. cbn [split_sentences]. by rewrite H. Qed.

Lemma split_sentences_nonempty (s : string) : split_sentences s <> [].
Proof.
  induction s as [| c s IH]; [done |]. cbn [split_sentences].
  destruct (is_terminator c).
  - destruct s as [| c' s']; [done |]. by destruct (is_terminator c').
  - by destruct (split_sentences s).
Qed.

Lemma split_sentences_stop (a t : string) :
  Spec.terminator_free a = true -> Spec.starts_plain t ->
  split_sentences (a ++ String "." t) = a :: split_sentences t.
Proof.
  intros Ha Ht. induction a as [| c a IH].
  - rewrite string_app_nil_l. cbn [split_sentences is_terminator Ascii.eqb Bool.eqb orb].
    destruct t as [| c' t']; [done |]. cbn in Ht. by rewrite Ht.
  - cbn [Spec.terminator_free] in Ha. apply andb_true_iff in Ha as [Hc Ha].
    apply negb_true_iff in Hc.
    rewrite string_app_cons, (split_sentences_cons _ _ Hc), (IH Ha). done.
Qed.

Lemma split_sentences_plain (a : string) :
  Spec.terminator_free a = true -> split_sentences a = [a].
Proof.
  induction a as [| c a IH]; [done |]. cbn [Spec.terminator_free].
  intros [Hc Ha]%andb_true_iff. apply negb_true_iff in Hc.
  by rewrite (split_sentences_cons _ _ Hc), (IH Ha).
Qed.

Lemma split_sentences_free (s : string) :
  Forall (fun p => Spec.terminator_free p = true) (split_sentences s).
Proof.
  induction s as [| c s IH]; [by repeat constructor |]. cbn [split_sentences].
  destruct (is_terminator c) eqn:Hc.
  - destruct s as [| c' s']; [by constructor |].
    destruct (is_terminator c'); [done | by constructor].
  - destruct (split_sentences s) as [| p ps]; [repeat constructor; cbn; by rewrite Hc |].
    apply Forall_cons in IH as [Hp Hps]. constructor; [| done].
    cbn [Spec.terminator_free]. by rewrite Hc, Hp.
Qed.

Lemma terminator_free_app (a b : string) :
  Spec.terminator_free (a ++ b)
  = Spec.terminator_free a && Spec.terminator_free b.
Proof.
  induction a as [| x a IH]; [done |].
  rewrite string_app_cons. cbn [Spec.terminator_free]. by rewrite IH, andb_assoc.
Qed.

Lemma terminator_free_strip (s : string) :
  Spec.terminator_free s = true -> Spec.terminator_free (Py.strip s) = true.
Proof.
  destruct (strip_split s) as (ws & ws' & _ & _ & E). intros H.
  rewrite E, !terminator_free_app in H.
  by apply andb_true_iff in H as [_ [H _]%andb_true_iff].
Qed.

Lemma sentences_of_clean (content : string) :
  Forall Spec.is_sentence (Spec.sentences_of content).
Proof.
  unfold Spec.sentences_of. apply Forall_forall. intros s Hs.
  apply list_elem_of_In, filter_In in Hs as [Hs Hne].
  apply in_map_iff in Hs as (p & <- & Hp).
  split; [| split].
  - intros E. by rewrite E in Hne.
  - apply strip_idemp.
  - apply terminator_free_strip.
    pose proof (split_sentences_free content) as Hfree.
    rewrite Forall_forall in Hfree. by apply Hfree, list_elem_of_In.
Qed.

Lemma all_space_terminator_free (ws : string) :
  Spec.all_space ws = true -> Spec.terminator_free ws = true.
Proof.
  induction ws as [| c ws IH]; [done |]. cbn [Spec.all_space Spec.terminator_free].
  intros [Hc Hws]%andb_true_iff. rewrite (IH Hws), andb_true_r.
  destruct c as [[] [] [] [] [] [] [] []]; try done.
Qed.

Lemma sentences_of_cons (p : string) (s : string) (ps : list string) :
  Py.strip p = s -> s <> "" ->
  List.filter (fun s => negb (String.eqb s "")) (List.map Py.strip (p :: ps))
  = s :: List.filter (fun s => negb (String.eqb s "")) (List.map Py.strip ps).
Proof.
  intros <- Hne. cbn [List.map List.filter].
  destruct (String.eqb_spec (Py.strip p) ""); [done | done].
Qed.

Lemma close_paragraph_two (s1 s2 : string) :
  close_paragraph [s1; s2] = s1 ++ String "." (String " " (s2 ++ ".")).
Proof.
  unfold close_paragraph. cbn [String.concat].
  by rewrite !string_app_assoc, !string_app_cons, !string_app_nil_l.
Qed.

Lemma sentences_of_layout (ws : string) (sentences : list string) :
  Spec.all_space ws = true ->
  Forall Spec.is_sentence sentences ->
  Spec.sentences_of
    (ws ++ String.concat (newline ++ newline) (Spec.paragraphs_of sentences))
  = sentences.
Proof.
  intros Hws Hall. revert ws Hws.
  assert (H : forall n sentences, (length sentences <= n)%nat ->
    Forall Spec.is_sentence sentences -> forall ws,
    Spec.all_space ws = true ->
    Spec.sentences_of
      (ws ++ String.concat (newline ++ newline) (Spec.paragraphs_of sentences))
    = sentences).
  { clear. induction n as [| n IH]; intros [| s1 [| s2 rest]] Hlen Hall ws Hws;
      cbn [length] in Hlen; try lia.
    - cbn [Spec.paragraphs_of String.concat]. rewrite string_app_nil_r.
      unfold Spec.sentences_of.
      rewrite (split_sentences_plain _ (all_space_terminator_free _ Hws)).
      cbn [List.map List.filter]. by rewrite (strip_all_space _ Hws).
    - cbn [Spec.paragraphs_of String.concat]. rewrite string_app_nil_r.
      unfold Spec.sentences_of.
      rewrite (split_sentences_plain _ (all_space_terminator_free _ Hws)).
      cbn [List.map List.filter]. by rewrite (strip_all_space _ Hws).
    - apply Forall_inv in Hall as (Hne & Hstrip & Hfree).
      cbn [Spec.paragraphs_of String.concat]. unfold close_paragraph.
      cbn [String.concat]. unfold Spec.sentences_of.
      rewrite <- string_app_assoc.
      change (?a ++ ".") with (a ++ String "." "").
      rewrite split_sentences_stop; [| | done].
      2:{ rewrite terminator_free_app, Hfree.
          by rewrite (all_space_terminator_free _ Hws). }
      rewrite (sentences_of_cons _ s1); [| by rewrite strip_all_space_app | done].
      done.
    - apply Forall_cons in Hall as [(Hne1 & Hstrip1 & Hfree1) Hall].
      apply Forall_cons in Hall as [(Hne2 & Hstrip2 & Hfree2) Hall].
      cbn [Spec.paragraphs_of]. rewrite close_paragraph_two.
      set (tail := Spec.paragraphs_of rest).
      assert (Etail : exists t,
        String.concat (newline ++ newline)
          ((s1 ++ String "." (String " " (s2 ++ "."))) :: tail)
        = s1 ++ String "." (String " " (s2 ++ String "." t)) /\
        Spec.starts_plain t /\
        Spec.sentences_of t = rest).
      { destruct rest as [| s3 rest'].
        - exists "". cbn [String.concat tail Spec.paragraphs_of]. done.
        - exists (String (ascii_of_nat 10) (String (ascii_of_nat 10) "")
                  ++ String.concat (newline ++ newline) tail).
          split; [| split; [done |]].
          + subst tail. 
            assert (Hp : exists p ps, Spec.paragraphs_of (s3 :: rest') = p :: ps).
            { destruct rest'; cbn [Spec.paragraphs_of]; eauto. }
            destruct Hp as (p & ps & ->). 
            change (String.concat ?sep (?x :: p :: ps))
              with (x ++ sep ++ String.concat sep (p :: ps)).
            unfold newline.
            by rewrite !string_app_assoc, !string_app_cons, !string_app_nil_l,
              !string_app_assoc, !string_app_cons, !string_app_nil_l.
          + apply (IH (s3 :: rest')); [cbn [length] in *; lia | done | done]. }
      destruct Etail as (t & -> & Hstart & Hrest).
      unfold Spec.sentences_of. rewrite <- string_app_assoc.
      rewrite split_sentences_stop; [| | done].
      2:{ rewrite terminator_free_app, Hfree1.
          by rewrite (all_space_terminator_free _ Hws). }
      rewrite (sentences_of_cons _ s1); [| by rewrite strip_all_space_app | done].
      change (String " " (s2 ++ String "." t))
        with (String " " s2 ++ String "." t).
      rewrite split_sentences_stop; [| by cbn; rewrite Hfree2 | done].
      rewrite (sentences_of_cons _ s2);
        [| by change (String " " s2) with (" " ++ s2);
              rewrite (strip_all_space_app " " s2) | done].
      by fold (Spec.sentences_of t); rewrite Hrest. }
  intros ws Hws. by apply (H (length sentences)).
Qed.

(** X25, [_add_line_breaks].  The layout is idempotent: the sentences found
    in a laid-out text are the sentences it was made of, so laying it out
    again gives the same paragraphs. *)
Theorem add_line_breaks_idempotent (content : string) :
  _add_line_breaks (_add_line_breaks content) = _add_line_breaks content.
Proof.
  rewrite (add_line_breaks_layout (_add_line_breaks content)).
  rewrite (add_line_breaks_layout content) at 1.
  pose proof (sentences_of_layout "" _ eq_refl (sentences_of_clean content)) as E.
  rewrite string_app_nil_l in E. rewrite E.
  symmetry. apply add_line_breaks_layout.
Qed.

(** *** Question and exclamation marks *)

Lemma occurs_concat (c : ascii) (sep : string) (l : list string) :
  Spec.occurs c sep = false ->
  Forall (fun s => Spec.occurs c s = false) l ->
  Spec.occurs c (String.concat sep l) = false.
Proof.
  intros Hsep. induction 1 as [| s l Hs Hl IH]; [done |].
  destruct l as [| s' l]; [done |].
  change (String.concat sep (s :: s' :: l))
    with (s ++ sep ++ String.concat sep (s' :: l)).
  by rewrite !occurs_app, Hs, Hsep, IH.
Qed.

Lemma terminator_free_occurs (c : ascii) (s : string) :
  is_terminator c = true -> Spec.terminator_free s = true ->
  Spec.occurs c s = false.
Proof.
  intros Hc. induction s as [| a s IH]; [done |].
  cbn [Spec.terminator_free Spec.occurs].
  intros [Ha Hs]%andb_true_iff. rewrite (IH Hs), orb_false_r.
  destruct (Ascii.eqb_spec a c) as [-> | _]; [| done].
  by rewrite Hc in Ha.
Qed.

Lemma paragraphs_of_marks (c : ascii) (sentences : list string) :
  is_terminator c = true -> Ascii.eqb "." c = false ->
  Forall Spec.is_sentence sentences ->
  Forall (fun p => Spec.occurs c p = false) (Spec.paragraphs_of sentences).
Proof.
  intros Hc Hdot.
  assert (Hsp : Ascii.eqb " " c = false).
  { destruct (Ascii.eqb_spec " " c) as [<- | _]; [by vm_compute in Hc | done]. }
  assert (H : forall n sentences, (length sentences <= n)%nat ->
    Forall Spec.is_sentence sentences ->
    Forall (fun p => Spec.occurs c p = false) (Spec.paragraphs_of sentences)).
  { clear sentences.
    induction n as [| n IH]; intros [| s1 [| s2 rest]] Hlen Hall;
      cbn [length] in Hlen; try lia; cbn [Spec.paragraphs_of];
      try by constructor.
    - apply Forall_inv in Hall as (_ & _ & Hfree).
      repeat constructor. unfold close_paragraph. cbn [String.concat].
      rewrite occurs_app, (terminator_free_occurs _ _ Hc Hfree).
      cbn [Spec.occurs]. by rewrite Hdot.
    - apply Forall_cons in Hall as [(_ & _ & Hfree1) Hall].
      apply Forall_cons in Hall as [(_ & _ & Hfree2) Hall].
      constructor; [| apply IH; [lia | done]].
      rewrite close_paragraph_two, occurs_app.
      rewrite (terminator_free_occurs _ _ Hc Hfree1).
      cbn [Spec.occurs orb]. rewrite Hdot, Hsp, occurs_app.
      rewrite (terminator_free_occurs _ _ Hc Hfree2).
      cbn [Spec.occurs orb]. by rewrite Hdot. }
  intros Hall. by apply (H (length sentences)).
Qed.

Lemma add_line_breaks_marks (c : ascii) (content : string) :
  is_terminator c = true -> Ascii.eqb "." c = false ->
  Spec.occurs c (_add_line_breaks content) = false.
Proof.
  intros Hc Hdot. rewrite add_line_breaks_layout.
  apply occurs_concat.
  - unfold newline. rewrite occurs_app. cbn [Spec.occurs].
    destruct (Ascii.eqb_spec (ascii_of_nat 10) c) as [<- | _]; [| done].
    by vm_compute in Hc.
  - apply paragraphs_of_marks; [done.. | apply sentences_of_clean].
Qed.

Lemma all_word_occurs (c : ascii) (w : string) :
  is_word c = false -> Spec.all_word w = true -> Spec.occurs c w = false.
Proof.
  intros Hc. induction w as [| a w IH]; [done |].
  cbn [Spec.all_word Spec.occurs]. intros [Ha Hw]%andb_true_iff.
  rewrite (IH Hw), orb_false_r.
  destruct (Ascii.eqb_spec a c) as [-> | _]; [| done].
  by rewrite Hc in Ha.
Qed.

Lemma hashtag_occurs (c : ascii) (h : string) :
  Spec.is_separator c -> Spec.is_hashtag h = true -> Spec.occurs c h = false.
Proof.
  intros [Hw Hh]. destruct h as [| a [| a' w]]; [done.. |].
  cbn [Spec.is_hashtag]. intros [Ha Hword]%andb_true_iff.
  change (Spec.occurs c (String a (String a' w)))
    with (Ascii.eqb a c || Spec.occurs c (String a' w)).
  rewrite (all_word_occurs _ _ Hw Hword), orb_false_r.
  apply Ascii.eqb_eq in Ha as ->. by rewrite Ascii.eqb_sym.
Qed.

Lemma optimize_hashtags_occurs (c : ascii) (content industry : string) :
  Spec.is_separator c -> Ascii.eqb (ascii_of_nat 10) c = false ->
  Ascii.eqb " " c = false ->
  Spec.occurs c content = false ->
  Spec.occurs c (_optimize_hashtags content industry) = false.
Proof.
  intros Hsep Hnl Hsp Hcontent. rewrite optimize_hashtags_eq. cbv zeta.
  destruct (_ <? 3)%nat; [| done].
  destruct (suggested_for_ok industry) as (_ & _ & Htags).
  set (new := take _ _).
  assert (Hnew : Forall (fun h => Spec.occurs c h = false) new).
  { apply Forall_forall. intros h Hh. apply hashtag_occurs; [done |].
    apply (subseteq_take _ _) in Hh. apply list_elem_of_In, filter_In in Hh as [Hh _].
    rewrite Forall_forall in Htags. by apply Htags, list_elem_of_In. }
  destruct new as [| h new']; [done |].
  rewrite !occurs_app, Hcontent. unfold newline. cbn [Spec.occurs orb].
  rewrite Hnl. cbn [orb]. apply occurs_concat; [| done].
  cbn [Spec.occurs]. by rewrite Hsp.
Qed.

(** X26, [_add_line_breaks], then [_optimize_hashtags] as in
    [_optimize_content].  Every run of sentence terminators is replaced by
    a full stop, so the laid-out text contains neither an exclamation mark
    nor a question mark, and none comes back with the hashtags: the text
    that [_optimize_content] hands to the call-to-action check never holds
    a question mark. *)
Theorem add_line_breaks_drops_marks (content industry : string) :
  Spec.occurs "!" (_add_line_breaks content) = false /\
  Spec.occurs "?" (_add_line_breaks content) = false /\
  Spec.occurs "?" (_optimize_hashtags (_add_line_breaks content) industry) = false.
Proof.
  split; [by apply add_line_breaks_marks |].
  split; [by apply add_line_breaks_marks |].
  apply optimize_hashtags_occurs; [done.. |].
  by apply add_line_breaks_marks.
Qed.

(** ** The optimization pipeline *)

Lemma space_is_separator (c : ascii) : Py.is_space c = true -> Spec.is_separator c.
Proof. destruct c as [[] [] [] [] [] [] [] []]; by vm_compute. Qed.

Lemma findall_from_skip (c : ascii) (s : string) :
  Spec.is_separator c -> findall_from None (String c s) = findall_from None s.
Proof. intros [Hw Hh]. cbn [findall_from]. by rewrite Hw, Hh. Qed.

Lemma findall_from_leading (ws s : string) :
  Spec.all_space ws = true -> findall_from None (ws ++ s) = findall_from None s.
Proof.
  induction ws as [| c ws IH]; [done |]. cbn [Spec.all_space].
  intros [Hc Hws]%andb_true_iff. rewrite string_app_cons.
  rewrite (findall_from_skip _ _ (space_is_separator _ Hc)). by apply IH.
Qed.

Lemma findall_from_all_space (ws : string) :
  Spec.all_space ws = true -> findall_from None ws = [].
Proof.
  intros H. rewrite <- (string_app_nil_r ws).
  by rewrite (findall_from_leading _ _ H).
Qed.

Lemma findall_from_trailing (run : option string) (s ws : string) :
  Spec.all_space ws = true -> findall_from run (s ++ ws) = findall_from run s.
Proof.
  intros Hws. destruct ws as [| c ws]; [by rewrite string_app_nil_r |].
  cbn [Spec.all_space] in Hws. apply andb_true_iff in Hws as [Hc Hws].
  rewrite (findall_from_separator _ _ _ _ (space_is_separator _ Hc)).
  by rewrite (findall_from_all_space _ Hws), (right_id_L [] (++)%list).
Qed.

Lemma findall_strip (s : string) :
  findall_hashtags (Py.strip s) = findall_hashtags s.
Proof.
  destruct (strip_split s) as (ws & ws' & Hws & Hws' & E).
  unfold findall_hashtags. rewrite E at 2.
  by rewrite (findall_from_leading _ _ Hws), (findall_from_trailing _ _ _ Hws').
Qed.

Lemma findall_from_cons (run : option string) (c : ascii) (rest : string) :
  findall_from run (String c rest)
  = if is_word c
    then findall_from ((fun w => w ++ String c EmptyString) <$> run) rest
    else (flush run ++
          findall_from (if Ascii.eqb c "#" then Some EmptyString else None) rest)%list.
Proof. reflexivity. Qed.

Lemma space_before_hash_cons (a b : ascii) (rest : string) :
  space_before_hash (String a (String b rest))
  = if is_word a && Ascii.eqb b "#"
    then String a (String " " (String "#" (space_before_hash rest)))
    else String a (space_before_hash (String b rest)).
Proof. reflexivity. Qed.

Lemma findall_space_before_hash (s : string) (run : option string) :
  findall_from run (space_before_hash s) = findall_from run s.
Proof.
  revert run.
  assert (H : forall n s, (String.length s <= n)%nat ->
    forall run, findall_from run (space_before_hash s) = findall_from run s).
  { clear s. induction n as [| n IH]; intros [| a [| b rest]] Hlen run;
      cbn [String.length] in Hlen; try lia; try reflexivity.
    rewrite space_before_hash_cons.
    destruct (is_word a && Ascii.eqb b "#") eqn:Hmatch.
    - apply andb_true_iff in Hmatch as [Ha Hb]. apply Ascii.eqb_eq in Hb as ->.
      rewrite !(findall_from_cons run a), Ha.
      set (run' := (fun w => w ++ String a EmptyString) <$> run).
      rewrite (findall_from_cons run' " "), !(findall_from_cons _ "#").
      change (is_word " ") with false. change (is_word "#") with false.
      cbn [flush app]. by rewrite IH by lia.
    - rewrite !(findall_from_cons run a).
      destruct (is_word a); by rewrite IH by (cbn [String.length]; lia). }
  intros run. by apply (H (String.length s)).
Qed.

(** *** Splitting and joining lines *)

Lemma split_char_nonempty (c : ascii) (s : string) : split_char c s <> [].
Proof.
  destruct s as [| a s]; [done |]. cbn [split_char].
  destruct (Ascii.eqb a c); [done |]. by destruct (split_char c s).
Qed.

Lemma concat_cons (sep piece : string) (pieces : list string) :
  pieces <> [] ->
  String.concat sep (piece :: pieces) = piece ++ sep ++ String.concat sep pieces.
Proof. by destruct pieces. Qed.

Lemma concat_split_char (c : ascii) (s : string) :
  String.concat (String c EmptyString) (split_char c s) = s.
Proof.
  induction s as [| a s IH]; [done |]. cbn [split_char].
  destruct (Ascii.eqb_spec a c) as [-> | Hne].
  - rewrite concat_cons by apply split_char_nonempty.
    by rewrite IH, string_app_nil_l, string_app_cons, string_app_nil_l.
  - pose proof (split_char_nonempty c s) as Hs.
    destruct (split_char c s) as [| piece others]; [done |].
    destruct others as [| other others].
    + cbn [String.concat] in *. by rewrite IH.
    + rewrite concat_cons in * by done. by rewrite string_app_cons, IH.
Qed.

Lemma split_char_head (c : ascii) (s : string) :
  let pieces := split_char c s in
  (tl pieces = [] /\ s = hd EmptyString pieces) \/
  s = hd EmptyString pieces ++ String c (String.concat (String c EmptyString) (tl pieces)).
Proof.
  cbv zeta. pose proof (concat_split_char c s) as E.
  pose proof (split_char_nonempty c s) as Hs.
  destruct (split_char c s) as [| piece others]; [done |]. cbn [hd tl].
  destruct others as [| other others]; [by left |]. right.
  rewrite concat_cons in E by done.
  by rewrite string_app_cons, string_app_nil_l in E.
Qed.

Lemma dot_separator : Spec.is_separator ".".
Proof. by split. Qed.

Lemma format_for_linkedin_hashtags (content content_type : string) :
  findall_hashtags (_format_for_linkedin content content_type)
  = findall_hashtags content.
Proof.
  unfold _format_for_linkedin. cbv zeta. rewrite findall_strip.
  unfold findall_hashtags. rewrite findall_space_before_hash.
  pose proof (concat_split_char (ascii_of_nat 10) content) as Hlines.
  fold newline in Hlines.
  pose proof (split_char_nonempty (ascii_of_nat 10) content) as Hne.
  destruct (split_char (ascii_of_nat 10) content) as [| first_line others];
    [done |].
  destruct (Nat.ltb_spec 100 (String.length first_line)) as [Hlong | _];
    [| by rewrite Hlines].
  destruct (Nat.ltb_spec (String.length (hd EmptyString (split_char "." first_line))) 80)
    as [Hshort | _]; [| by rewrite Hlines].
  destruct (split_char_head "." first_line) as [[_ E] | E]; [rewrite <- E in Hshort; lia |].
  set (first_sentence := hd EmptyString (split_char "." first_line)) in *.
  set (others_joined := String.concat "." (tl (split_char "." first_line))) in *.
  rewrite <- Hlines.
  assert (G : forall tail : string,
    findall_from None
      ((first_sentence ++ "." ++ newline ++ newline ++ others_joined) ++ tail)
    = findall_from None (first_line ++ tail)).
  { intros tail. rewrite E. unfold newline.
    rewrite !string_app_assoc, !string_app_cons, !string_app_nil_l.
    rewrite !(findall_from_separator _ _ _ _ dot_separator).
    by rewrite !(findall_from_skip _ _ newline_separator). }
  destruct others as [| other others].
  - cbn [String.concat].
    rewrite <- (string_app_nil_r (_ ++ _ ++ _ ++ _ ++ _)), G.
    by rewrite string_app_nil_r.
  - rewrite !concat_cons by done. apply G.
Qed.

(** X27, [_format_for_linkedin].  Formatting changes no hashtag: breaking
    the first line after its first sentence, putting a space before a [#]
    that follows a word character and stripping the result leave the
    hashtags found in the content as they were, in the same order; and the
    formatted text has no whitespace left at either end. *)
Theorem format_for_linkedin_keeps_hashtags (content content_type : string) :
  findall_hashtags (_format_for_linkedin content content_type)
  = findall_hashtags content /\
  Py.strip (_format_for_linkedin content content_type)
  = _format_for_linkedin content content_type.
Proof.
  split; [apply format_for_linkedin_hashtags |].
  unfold _format_for_linkedin. cbv zeta. apply strip_idemp.
Qed.

Lemma findall_from_plain (s : string) :
  Spec.occurs "#" s = false -> findall_from None s = [].
Proof.
  induction s as [| c s IH]; [done |]. cbn [Spec.occurs].
  intros [Hc Hs]%orb_false_iff. rewrite findall_from_cons.
  destruct (is_word c); cbn [fmap option_fmap option_map flush app];
    [by apply IH |].
  rewrite Hc. by apply IH.
Qed.

Lemma random_choice_plain (draw : nat) (options : list string) :
  Forall (fun o => Spec.occurs "#" o = false) options ->
  Spec.occurs "#" (random_choice draw options) = false.
Proof.
  intros H. unfold random_choice.
  destruct (nth_in_or_default (draw mod length options) options EmptyString)
    as [Hin | ->]; [| done].
  rewrite Forall_forall in H. by apply H, list_elem_of_In.
Qed.

Lemma cta_options_plain (content_type : string) :
  Forall (fun o => Spec.occurs "#" o = false)
    (default (default [] (cta_options !! "post")) (cta_options !! content_type)).
Proof.
  destruct (cta_options !! content_type) as [options |] eqn:E; cbn [default].
  - apply elem_of_list_to_map_2 in E.
    repeat (apply elem_of_cons in E as [[= -> ->] | E]; [by repeat constructor |]).
    by apply elem_of_nil in E.
  - by repeat constructor.
Qed.

Lemma ensure_call_to_action_hashtags (has_cta : string -> bool) (draw : nat)
    (content content_type : string) :
  findall_hashtags (_ensure_call_to_action has_cta draw content content_type)
  = findall_hashtags content.
Proof.
  unfold _ensure_call_to_action. cbv zeta.
  destruct (has_cta content); cbn [negb]; [done |].
  unfold findall_hashtags, newline.
  rewrite !string_app_cons, !string_app_nil_l.
  rewrite (findall_from_separator _ _ _ _ newline_separator).
  rewrite (findall_from_skip _ _ newline_separator).
  rewrite (findall_from_plain (random_choice _ _)), (right_id_L [] (++)%list);
    [done |].
  apply random_choice_plain, cta_options_plain.
Qed.

Lemma optimize_hashtags_count (content industry : string) :
  (3 <= length (findall_hashtags (_optimize_hashtags content industry)))%nat.
Proof.
  rewrite optimize_hashtags_eq. cbv zeta.
  set (existing := findall_hashtags content).
  destruct (Nat.ltb_spec (length existing) 3) as [Hk | Hk]; [| done].
  destruct (suggested_for_ok industry) as (Hnd & Hlen & Htags).
  pose proof (fresh_count existing _ Hnd) as Hcount.
  set (candidates := List.filter (Spec.fresh existing) (Spec.suggested_for industry)) in *.
  set (new := take (5 - length existing) candidates).
  assert (Hnew : Forall (fun h => Spec.is_hashtag h = true) new).
  { apply Forall_forall. intros h Hh.
    apply (subseteq_take _ _) in Hh. apply list_elem_of_In, filter_In in Hh as [Hh _].
    rewrite Forall_forall in Htags. by apply Htags, list_elem_of_In. }
  assert (Hlen' : (3 <= length existing + length new)%nat).
  { subst new. rewrite length_take. lia. }
  destruct new as [| h new'] eqn:Enew.
  - fold existing. cbn [length] in Hlen'. lia.
  - rewrite findall_appended by done. fold existing. by rewrite length_app.
Qed.

(** X28, [_optimize_content].  The hashtags of the optimized content are
    those the hashtag step produced on the laid-out text: the call to
    action, whichever is drawn and whether or not one is added, and the
    final formatting add and remove none.  There are always at least three
    of them. *)
Theorem optimize_content_hashtags (has_cta : string -> bool) (draw : nat)
    (content content_type : string) (user_profile : gmap string string) :
  findall_hashtags (_optimize_content has_cta draw content content_type user_profile)
  = findall_hashtags
      (_optimize_hashtags (_add_line_breaks content)
         (default "business" (user_profile !! "industry"))) /\
  (3 <= length (findall_hashtags
                  (_optimize_content has_cta draw content content_type user_profile)))%nat.
Proof.
  unfold _optimize_content. cbv zeta.
  rewrite format_for_linkedin_hashtags, ensure_call_to_action_hashtags.
  split; [done | apply optimize_hashtags_count].
Qed.
